(** * OAuth2 connect flows and item normalisation for the HubSpot and
      Notion adapters (backend/integrations/hubspot.py, notion.py)

    The two Python modules are embedded function by function.  Python
    [str] values are sequences of Unicode code points, [bytes] values are
    sequences of octets, the in-memory key-value store is a finite map from
    strings to strings, and every function that can raise returns a
    [result].  The parts of the Python standard library the adapters call
    (base64, UTF-8, json, int(), datetime) are embedded next to them. *)

From Stdlib Require Import ZArith NArith List String Ascii Lia Bool.
From Stdlib Require Import Floats.SpecFloat.
From Stdlib Require Import DecimalFacts DecimalPos DecimalN.
From stdpp Require Import base gmap list.

Set Default Proof Using "Type".
Set Warnings "-register-all".

(** ** Python strings and bytes *)

(** A Python [str] is a list of code points, a [bytes] object a list of
    octets; both are lists of [N]. *)
Abbreviation pystr := (list N).
Abbreviation pybytes := (list N).

(** A string literal of the source, as code points. *)
Definition lit (s : string) : pystr :=
  map N_of_ascii (list_ascii_of_string s).

(** Unicode scalar values: code points below U+110000 outside the
    surrogate range U+D800..U+DFFF. *)
Definition is_scalar (c : N) : bool :=
  ((c <? 0xD800) || ((0xDFFF <? c) && (c <? 0x110000)))%N.

Definition valid_text (s : pystr) : Prop := Forall (fun c => is_scalar c = true) s.

Definition is_ascii (c : N) : bool := (c <? 128)%N.

Definition is_octet (b : N) : bool := (b <? 256)%N.

(** Bounded universal quantification over [N], decided by enumeration. *)
Definition N_all_below (k : N) (P : N -> bool) : bool :=
  fst (N.iter k (fun st => (fst st && P (snd st), N.succ (snd st))) (true, 0%N)).

(** ** Exceptions and results *)

Inductive exn :=
  | HTTPException (status_code : Z) (detail : pystr)
  | KeyError
  | AttributeError
  | TypeError
  | ValueError
  | OverflowError
  | OSError
  | JSONDecodeError
  | UnicodeError
  | TransportError.

(** Python's [except (ValueError, TypeError)]: the subclasses of
    ValueError that occur here are JSONDecodeError and the Unicode
    errors. *)
Definition is_ValueError_or_TypeError (e : exn) : bool :=
  match e with
  | ValueError | TypeError | JSONDecodeError | UnicodeError => true
  | _ => false
  end.

Inductive result (A : Type) :=
  | Ok (a : A)
  | Raise (e : exn).
Arguments Ok {A} a.
Arguments Raise {A} e.

Definition bind {A B} (r : result A) (k : A -> result B) : result B :=
  match r with
  | Ok a => k a
  | Raise e => Raise e
  end.

Notation "x <- r ;; k" := (bind r (fun x => k))
  (at level 100, r at next level, right associativity).

Definition of_option {A} (e : exn) (o : option A) : result A :=
  match o with
  | Some a => Ok a
  | None => Raise e
  end.

(** ** base64: binascii.b2a_base64, binascii.a2b_base64 and the URL-safe
    wrappers of base64.py *)

Definition table_b2a_base64 : pystr :=
  lit "ABCDEFGHIJKLMNOPQRSTUVWXYZabcdefghijklmnopqrstuvwxyz0123456789+/".

Definition BASE64_PAD : N := 61.

Definition b2a (sextet : N) : N := nth (N.to_nat sextet) table_b2a_base64 0%N.

Fixpoint index_of (c : N) (l : list N) (i : N) : option N :=
  match l with
  | [] => None
  | x :: r => if (x =? c)%N then Some i else index_of c r (N.succ i)
  end.

(** [table_a2b_base64]: the sextet of an alphabet character, [None] for
    every other octet (the C table holds a value >= 64 there). *)
Definition table_a2b_base64 (c : N) : option N := index_of c table_b2a_base64 0%N.

(** binascii.b2a_base64 without the trailing newline: three octets give
    four characters, a remainder of one or two octets is padded. *)
Fixpoint b64encode (data : pybytes) : pybytes :=
  match data with
  | a :: b :: c :: rest =>
      b2a (N.shiftr a 2)
      :: b2a (N.lor (N.shiftl (N.land a 3) 4) (N.shiftr b 4))
      :: b2a (N.lor (N.shiftl (N.land b 15) 2) (N.shiftr c 6))
      :: b2a (N.land c 63)
      :: b64encode rest
  | [a; b] =>
      [b2a (N.shiftr a 2);
       b2a (N.lor (N.shiftl (N.land a 3) 4) (N.shiftr b 4));
       b2a (N.shiftl (N.land b 15) 2);
       BASE64_PAD]
  | [a] =>
      [b2a (N.shiftr a 2); b2a (N.shiftl (N.land a 3) 4); BASE64_PAD; BASE64_PAD]
  | [] => []
  end.

(** The non-strict decoding loop of binascii.a2b_base64: characters
    outside the alphabet are skipped, a pad sequence that completes a quad
    stops the scan, and leftover characters at the end are an error. *)
Fixpoint a2b_loop (quad_pos leftchar pads : N) (data : pybytes) : option pybytes :=
  match data with
  | [] => if (quad_pos =? 0)%N then Some [] else None
  | this_ch :: rest =>
      if (this_ch =? BASE64_PAD)%N then
        if ((2 <=? quad_pos) && (4 <=? quad_pos + (pads + 1)))%N then Some []
        else a2b_loop quad_pos leftchar
               (if (2 <=? quad_pos)%N then (pads + 1)%N else pads) rest
      else
        match table_a2b_base64 this_ch with
        | None => a2b_loop quad_pos leftchar pads rest
        | Some v =>
            match quad_pos with
            | 0%N => a2b_loop 1 v 0 rest
            | 1%N =>
                cons (N.land (N.lor (N.shiftl leftchar 2) (N.shiftr v 4)) 255)
                  <$> a2b_loop 2 (N.land v 15) 0 rest
            | 2%N =>
                cons (N.land (N.lor (N.shiftl leftchar 4) (N.shiftr v 2)) 255)
                  <$> a2b_loop 3 (N.land v 3) 0 rest
            | _ =>
                cons (N.land (N.lor (N.shiftl leftchar 6) v) 255)
                  <$> a2b_loop 0 0 0 rest
            end
        end
  end.

Definition a2b_base64 (data : pybytes) : option pybytes := a2b_loop 0 0 0 data.

(** bytes.translate with the two URL-safe tables of base64.py. *)
Definition urlsafe_encode_translation (c : N) : N :=
  if (c =? 43)%N then 45%N else if (c =? 47)%N then 95%N else c.

Definition urlsafe_decode_translation (c : N) : N :=
  if (c =? 45)%N then 43%N else if (c =? 95)%N then 47%N else c.

Definition urlsafe_b64encode (s : pybytes) : pybytes :=
  map urlsafe_encode_translation (b64encode s).

(** base64._bytes_from_decode_data on a [str]: ASCII only, else ValueError. *)
Definition bytes_from_decode_data (s : pystr) : result pybytes :=
  if forallb is_ascii s then Ok s else Raise ValueError.

(** base64.urlsafe_b64decode of a [str]; binascii.Error is a ValueError. *)
Definition urlsafe_b64decode (s : pystr) : result pybytes :=
  b <- bytes_from_decode_data s ;;
  of_option ValueError (a2b_base64 (map urlsafe_decode_translation b)).

(** ** UTF-8 ([str.encode()] and [bytes.decode()], both strict) *)

Definition utf8_encode_char (c : N) : option pybytes :=
  if (c <? 0x80)%N then Some [c]
  else if (c <? 0x800)%N then
    Some [N.lor 0xC0 (N.shiftr c 6); N.lor 0x80 (N.land c 0x3F)]
  else if (c <? 0x10000)%N then
    if ((0xD800 <=? c) && (c <=? 0xDFFF))%N then None
    else Some [N.lor 0xE0 (N.shiftr c 12);
               N.lor 0x80 (N.land (N.shiftr c 6) 0x3F);
               N.lor 0x80 (N.land c 0x3F)]
  else if (c <? 0x110000)%N then
    Some [N.lor 0xF0 (N.shiftr c 18);
          N.lor 0x80 (N.land (N.shiftr c 12) 0x3F);
          N.lor 0x80 (N.land (N.shiftr c 6) 0x3F);
          N.lor 0x80 (N.land c 0x3F)]
  else None.

Fixpoint utf8_encode (s : pystr) : result pybytes :=
  match s with
  | [] => Ok []
  | c :: r =>
      match utf8_encode_char c with
      | None => Raise UnicodeError
      | Some bs => rest <- utf8_encode r ;; Ok (bs ++ rest)
      end
  end.

Definition in_range (lo hi b : N) : bool := ((lo <=? b) && (b <=? hi))%N.

Definition cont (b : N) : N := N.land b 0x3F.

(** The well-formed byte sequences of the Unicode standard (table 3-7);
    anything else is a UnicodeDecodeError. *)
Fixpoint utf8_decode (bs : pybytes) {struct bs} : result pystr :=
      match bs with
      | [] => Ok []
      | b0 :: r0 =>
          if (b0 <? 0x80)%N then
            s <- utf8_decode r0 ;; Ok (b0 :: s)
          else if in_range 0xC2 0xDF b0 then
            match r0 with
            | b1 :: r1 =>
                if in_range 0x80 0xBF b1 then
                  s <- utf8_decode r1 ;;
                  Ok (N.lor (N.shiftl (N.land b0 0x1F) 6) (cont b1) :: s)
                else Raise UnicodeError
            | _ => Raise UnicodeError
            end
          else if in_range 0xE0 0xEF b0 then
            match r0 with
            | b1 :: b2 :: r2 =>
                if in_range (if (b0 =? 0xE0)%N then 0xA0 else 0x80)
                            (if (b0 =? 0xED)%N then 0x9F else 0xBF) b1
                   && in_range 0x80 0xBF b2 then
                  s <- utf8_decode r2 ;;
                  Ok (N.lor (N.shiftl (N.land b0 0x0F) 12)
                        (N.lor (N.shiftl (cont b1) 6) (cont b2)) :: s)
                else Raise UnicodeError
            | _ => Raise UnicodeError
            end
          else if in_range 0xF0 0xF4 b0 then
            match r0 with
            | b1 :: b2 :: b3 :: r3 =>
                if in_range (if (b0 =? 0xF0)%N then 0x90 else 0x80)
                            (if (b0 =? 0xF4)%N then 0x8F else 0xBF) b1
                   && in_range 0x80 0xBF b2 && in_range 0x80 0xBF b3 then
                  s <- utf8_decode r3 ;;
                  Ok (N.lor (N.shiftl (N.land b0 0x07) 18)
                        (N.lor (N.shiftl (cont b1) 12)
                           (N.lor (N.shiftl (cont b2) 6) (cont b3))) :: s)
                else Raise UnicodeError
            | _ => Raise UnicodeError
            end
          else Raise UnicodeError
      end.

(** ** Python values *)

(** The values [json.loads] and [Response.json()] produce.  A [dict] is
    an association list in insertion order; floats are IEEE binary64
    numbers in the integer-only presentation of [SpecFloat]. *)
Inductive value :=
  | VNone
  | VBool (b : bool)
  | VInt (z : Z)
  | VFloat (f : spec_float)
  | VStr (s : pystr)
  | VList (l : list value)
  | VDict (d : list (pystr * value)).

Fixpoint str_eqb (a b : pystr) : bool :=
  match a, b with
  | [], [] => true
  | x :: a', y :: b' => (x =? y)%N && str_eqb a' b'
  | _, _ => false
  end.

(** [d.get(k)] on the association list, [None] when the key is absent. *)
Fixpoint dict_lookup (k : pystr) (d : list (pystr * value)) : option value :=
  match d with
  | [] => None
  | (k', v) :: r => if str_eqb k' k then Some v else dict_lookup k r
  end.

(** [d[k] = v]: an existing key keeps its position, a new key goes last. *)
Fixpoint dict_set (k : pystr) (v : value) (d : list (pystr * value)) : list (pystr * value) :=
  match d with
  | [] => [(k, v)]
  | (k', v') :: r => if str_eqb k' k then (k', v) :: r else (k', v') :: dict_set k v r
  end.

(** [v.get(k, default)]: only a dict has a [get] method. *)
Definition py_get (v : value) (k : pystr) (default : value) : result value :=
  match v with
  | VDict d => Ok (match dict_lookup k d with Some x => x | None => default end)
  | _ => Raise AttributeError
  end.

(** [v[k]] with a string key: KeyError on a dict without the key,
    TypeError on every other value (a list or str index must be an
    integer, the rest is not subscriptable). *)
Definition py_getitem (v : value) (k : pystr) : result value :=
  match v with
  | VDict d => of_option KeyError (dict_lookup k d)
  | _ => Raise TypeError
  end.

Definition sf_is_zero (f : spec_float) : bool :=
  match f with S754_zero _ => true | _ => false end.

(** Truth value testing. *)
Definition py_truthy (v : value) : bool :=
  match v with
  | VNone => false
  | VBool b => b
  | VInt z => negb (z =? 0)%Z
  | VFloat f => negb (sf_is_zero f)
  | VStr s => match s with [] => false | _ => true end
  | VList l => match l with [] => false | _ => true end
  | VDict d => match d with [] => false | _ => true end
  end.

(** Truth value of an optional string ([None] or a [str]). *)
Definition str_truthy (o : option pystr) : bool :=
  match o with
  | Some (_ :: _) => true
  | _ => false
  end.

(** The parts of the interpreter the adapters depend on without fixing
    them: the shortest-digits [repr] of floats, the [repr] of strings, the
    Unicode character database (decimal digit values and case mappings of
    non-ASCII code points) and the local time zone of the process. *)
Record runtime := {
  float_repr : spec_float -> pystr;
  str_repr : pystr -> pystr;
  unicode_todecimal : N -> option N;
  unicode_capitalize : pystr -> pystr;
  local_utcoffset : Z -> Z;
}.

(** A runtime for closed examples: UTC as the local zone.  The other
    fields are placeholders, no closed example below reaches them. *)
Definition utc_runtime : runtime := {|
  float_repr := fun _ => lit "nan";
  str_repr := fun s => lit "'" ++ s ++ lit "'";
  unicode_todecimal := fun _ => None;
  unicode_capitalize := fun s => s;
  local_utcoffset := fun _ => 0%Z;
|}.

Fixpoint uint_chars (u : Decimal.uint) : pystr :=
  match u with
  | Decimal.Nil => []
  | Decimal.D0 r => 48%N :: uint_chars r
  | Decimal.D1 r => 49%N :: uint_chars r
  | Decimal.D2 r => 50%N :: uint_chars r
  | Decimal.D3 r => 51%N :: uint_chars r
  | Decimal.D4 r => 52%N :: uint_chars r
  | Decimal.D5 r => 53%N :: uint_chars r
  | Decimal.D6 r => 54%N :: uint_chars r
  | Decimal.D7 r => 55%N :: uint_chars r
  | Decimal.D8 r => 56%N :: uint_chars r
  | Decimal.D9 r => 57%N :: uint_chars r
  end.

(** [int.__repr__]: decimal digits with a leading minus sign. *)
Definition int_repr (z : Z) : pystr :=
  match z with
  | Zneg p => 45%N :: uint_chars (N.to_uint (Npos p))
  | _ => uint_chars (N.to_uint (Z.to_N z))
  end.

Fixpoint join (sep : pystr) (parts : list pystr) : pystr :=
  match parts with
  | [] => []
  | [p] => p
  | p :: r => p ++ sep ++ join sep r
  end.

Section Formatting.
Context (rt : runtime).

(** [repr(v)]. *)
Fixpoint py_repr (v : value) : pystr :=
  match v with
  | VNone => lit "None"
  | VBool true => lit "True"
  | VBool false => lit "False"
  | VInt z => int_repr z
  | VFloat f => float_repr rt f
  | VStr s => str_repr rt s
  | VList l => lit "[" ++ join (lit ", ") (map py_repr l) ++ lit "]"
  | VDict d =>
      lit "{"
      ++ join (lit ", ")
           (map (fun kv => str_repr rt (fst kv) ++ lit ": " ++ py_repr (snd kv)) d)
      ++ lit "}"
  end.

(** [str(v)], which is also what an f-string replacement field gives. *)
Definition py_str (v : value) : pystr :=
  match v with
  | VStr s => s
  | _ => py_repr v
  end.
End Formatting.

(** ** Floats: correctly rounded conversions *)

Definition prec : Z := 53.
Definition emax : Z := 1024.

(** The binary64 number nearest to [p / q] (ties to even) for [0 <= p]
    and [0 < q]; this is both [float(literal)] and the true division of
    two integers. *)
Definition sf_of_ratio (neg : bool) (p q : Z) : spec_float :=
  if (p =? 0)%Z then S754_zero neg
  else
    let '(mz, ez, lz) := SFdiv_core_binary prec emax p 0 q 0 in
    binary_round_aux prec emax neg mz ez lz.

Definition sf_of_Z (z : Z) : spec_float := sf_of_ratio (z <? 0)%Z (Z.abs z) 1.

(** Rounding towards zero, [None] for NaN and the infinities. *)
Definition sf_trunc (f : spec_float) : option Z :=
  match f with
  | S754_zero _ => Some 0%Z
  | S754_finite s m e =>
      let a := match e with
               | Zneg k => Z.shiftr (Zpos m) (Zpos k)
               | _ => Z.shiftl (Zpos m) e
               end in
      Some (if s then (- a)%Z else a)
  | _ => None
  end.

(** Rounding to the nearest integer, ties to even. *)
Definition sf_round_half_even (f : spec_float) : option Z :=
  match f with
  | S754_zero _ => Some 0%Z
  | S754_finite s m e =>
      let a := match e with
               | Zneg k =>
                   let d := Z.shiftl 1 (Zpos k) in
                   let q := (Zpos m / d)%Z in
                   let r := (Zpos m mod d)%Z in
                   match (2 * r ?= d)%Z with
                   | Lt => q
                   | Gt => (q + 1)%Z
                   | Eq => if Z.even q then q else (q + 1)%Z
                   end
               | _ => Z.shiftl (Zpos m) e
               end in
      Some (if s then (- a)%Z else a)
  | _ => None
  end.

(** [a / b] on two ints with [b > 0]. *)
Definition int_truediv (a b : Z) : result spec_float :=
  match sf_of_ratio (a <? 0)%Z (Z.abs a) b with
  | S754_infinity _ => Raise OverflowError
  | f => Ok f
  end.

(** ** int() *)

Definition is_digit (c : N) : bool := ((48 <=? c) && (c <=? 57))%N.

(** Py_ISSPACE: the six ASCII white space characters. *)
Definition Py_ISSPACE (c : N) : bool :=
  ((c =? 32) || ((9 <=? c) && (c <=? 13)))%N.

(** Py_UNICODE_ISSPACE. *)
Definition Py_UNICODE_ISSPACE (c : N) : bool :=
  (((9 <=? c) && (c <=? 13)) || ((28 <=? c) && (c <=? 32))
   || (c =? 0x85) || (c =? 0xA0) || (c =? 0x1680)
   || ((0x2000 <=? c) && (c <=? 0x200A))
   || (c =? 0x2028) || (c =? 0x2029) || (c =? 0x202F) || (c =? 0x205F)
   || (c =? 0x3000))%N.

Section IntParsing.
Context (rt : runtime).

(** _PyUnicode_TransformDecimalAndSpaceToASCII: code points below 127
    stay, other white space becomes a space, other decimal digits become
    ASCII digits and the first code point that is neither ends the
    string with a question mark. *)
Fixpoint transform_decimal_and_space (s : pystr) : pystr :=
  match s with
  | [] => []
  | ch :: r =>
      if (ch <? 127)%N then ch :: transform_decimal_and_space r
      else if Py_UNICODE_ISSPACE ch then 32%N :: transform_decimal_and_space r
      else match unicode_todecimal rt ch with
           | Some d => (48 + d)%N :: transform_decimal_and_space r
           | None => [63%N]
           end
  end.

Fixpoint skip_spaces (s : pystr) : pystr :=
  match s with
  | c :: r => if Py_ISSPACE c then skip_spaces r else s
  | [] => []
  end.

(** Digits in base ten with single underscores between them. *)
Fixpoint scan_digits (prev_underscore : bool) (acc : Z) (s : pystr) : option (Z * pystr) :=
  match s with
  | [] => if prev_underscore then None else Some (acc, [])
  | c :: r =>
      if is_digit c then scan_digits false (acc * 10 + Z.of_N (c - 48)) r
      else if (c =? 95)%N then
        if prev_underscore then None else scan_digits true acc r
      else if prev_underscore then None else Some (acc, s)
  end.

(** PyLong_FromString in base ten. *)
Definition long_from_string (s : pystr) : option Z :=
  let s1 := skip_spaces s in
  let '(neg, s2) :=
    match s1 with
    | 43%N :: r => (false, r)
    | 45%N :: r => (true, r)
    | _ => (false, s1)
    end in
  match s2 with
  | c :: _ =>
      if is_digit c then
        match scan_digits false 0 s2 with
        | Some (n, rest) =>
            match skip_spaces rest with
            | [] => Some (if neg then (- n)%Z else n)
            | _ => None
            end
        | None => None
        end
      else None
  | [] => None
  end.

(** [int(v)].  The cap on the number of digits that recent interpreters
    apply to [int(str)] is left out. *)
Definition py_int (v : value) : result Z :=
  match v with
  | VInt z => Ok z
  | VBool b => Ok (if b then 1 else 0)%Z
  | VFloat S754_nan => Raise ValueError
  | VFloat (S754_infinity _) => Raise OverflowError
  | VFloat f => of_option ValueError (sf_trunc f)
  | VStr s => of_option ValueError (long_from_string (transform_decimal_and_space s))
  | VNone | VList _ | VDict _ => Raise TypeError
  end.
End IntParsing.

(** ** json.dumps (default options) *)

Definition hex_digit (n : N) : N := if (n <? 10)%N then (48 + n)%N else (87 + n)%N.

(** ['\\u{0:04x}'.format(n)] for [n < 0x10000]. *)
Definition u_escape (n : N) : pystr :=
  [92; 117; hex_digit (N.shiftr n 12); hex_digit (N.land (N.shiftr n 8) 15);
   hex_digit (N.land (N.shiftr n 4) 15); hex_digit (N.land n 15)]%N.

(** The replacement that py_encode_basestring_ascii applies to each code
    point: printable ASCII other than the quote and the backslash stays,
    the rest is escaped, code points above the BMP as a surrogate pair. *)
Definition escape_char (c : N) : pystr :=
  if (c =? 34)%N then [92; 34]%N
  else if (c =? 92)%N then [92; 92]%N
  else if ((32 <=? c) && (c <=? 126))%N then [c]
  else if (c =? 8)%N then [92; 98]%N
  else if (c =? 12)%N then [92; 102]%N
  else if (c =? 10)%N then [92; 110]%N
  else if (c =? 13)%N then [92; 114]%N
  else if (c =? 9)%N then [92; 116]%N
  else if (c <? 0x10000)%N then u_escape c
  else
    let n := (c - 0x10000)%N in
    u_escape (N.lor 0xD800 (N.land (N.shiftr n 10) 0x3FF))
    ++ u_escape (N.lor 0xDC00 (N.land n 0x3FF)).

Definition escape_body (s : pystr) : pystr := flat_map escape_char s.

Definition encode_basestring_ascii (s : pystr) : pystr :=
  34%N :: escape_body s ++ [34%N].

Section JsonDumps.
Context (rt : runtime).

Definition float_json (f : spec_float) : pystr :=
  match f with
  | S754_nan => lit "NaN"
  | S754_infinity false => lit "Infinity"
  | S754_infinity true => lit "-Infinity"
  | _ => float_repr rt f
  end.

Fixpoint json_dumps (v : value) : pystr :=
  match v with
  | VNone => lit "null"
  | VBool true => lit "true"
  | VBool false => lit "false"
  | VInt z => int_repr z
  | VFloat f => float_json f
  | VStr s => encode_basestring_ascii s
  | VList l => lit "[" ++ join (lit ", ") (map json_dumps l) ++ lit "]"
  | VDict d =>
      lit "{"
      ++ join (lit ", ")
           (map (fun kv => encode_basestring_ascii (fst kv) ++ lit ": " ++ json_dumps (snd kv)) d)
      ++ lit "}"
  end.
End JsonDumps.

(** ** json.loads (the C scanner, strict mode) *)

Definition json_ws (c : N) : bool := ((c =? 32) || (c =? 9) || (c =? 10) || (c =? 13))%N.

Fixpoint skip_ws (s : pystr) : pystr :=
  match s with
  | c :: r => if json_ws c then skip_ws r else s
  | [] => []
  end.

Definition hex_value (c : N) : option N :=
  if is_digit c then Some (c - 48)%N
  else if ((97 <=? c) && (c <=? 102))%N then Some (c - 87)%N
  else if ((65 <=? c) && (c <=? 70))%N then Some (c - 55)%N
  else None.

Definition hex4 (h1 h2 h3 h4 : N) : option N :=
  match hex_value h1, hex_value h2, hex_value h3, hex_value h4 with
  | Some a, Some b, Some c, Some d =>
      Some (N.lor (N.shiftl a 12) (N.lor (N.shiftl b 8) (N.lor (N.shiftl c 4) d)))
  | _, _, _, _ => None
  end.

Definition is_high_surrogate (c : N) : bool := ((0xD800 <=? c) && (c <=? 0xDBFF))%N.
Definition is_low_surrogate (c : N) : bool := ((0xDC00 <=? c) && (c <=? 0xDFFF))%N.

Definition join_surrogates (hi lo : N) : N :=
  (0x10000 + N.lor (N.shiftl (N.land hi 0x3FF) 10) (N.land lo 0x3FF))%N.

Definition simple_escape (e : N) : option N :=
  if (e =? 34)%N then Some 34%N
  else if (e =? 92)%N then Some 92%N
  else if (e =? 47)%N then Some 47%N
  else if (e =? 98)%N then Some 8%N
  else if (e =? 102)%N then Some 12%N
  else if (e =? 110)%N then Some 10%N
  else if (e =? 114)%N then Some 13%N
  else if (e =? 116)%N then Some 9%N
  else None.

Definition cons_fst {A} (c : N) (p : pystr * A) : pystr * A := (c :: fst p, snd p).

(** scanstring_unicode after the opening quote: the decoded string and
    the text after the closing quote.  A [\u] escape needs four hex digits
    and a following character; a high surrogate directly followed by an
    escaped low surrogate is joined with it. *)
Fixpoint scanstring (s : pystr) {struct s} : option (pystr * pystr) :=
  match s with
  | [] => None
  | c :: r =>
      if (c =? 34)%N then Some ([], r)
      else if (c =? 92)%N then
        match r with
        | [] => None
        | e :: r1 =>
            if (e =? 117)%N then
              match r1 with
              | h1 :: h2 :: h3 :: h4 :: r5 =>
                  match r5 with
                  | [] => None
                  | _ :: _ =>
                  match hex4 h1 h2 h3 h4 with
                  | None => None
                  | Some u =>
                      match r5 with
                      | b :: u' :: g1 :: g2 :: g3 :: g4 :: ((_ :: _) as r11) =>
                          if is_high_surrogate u && (b =? 92)%N && (u' =? 117)%N then
                            match hex4 g1 g2 g3 g4 with
                            | None => None
                            | Some u2 =>
                                if is_low_surrogate u2
                                then cons_fst (join_surrogates u u2) <$> scanstring r11
                                else cons_fst u <$> scanstring r5
                            end
                          else cons_fst u <$> scanstring r5
                      | _ => cons_fst u <$> scanstring r5
                      end
                  end
                  end
              | _ => None
              end
            else
              match simple_escape e with
              | Some ch => cons_fst ch <$> scanstring r1
              | None => None
              end
        end
      else if (c <=? 0x1F)%N then None
      else cons_fst c <$> scanstring r
  end.

Fixpoint span_digits (s : pystr) : pystr * pystr :=
  match s with
  | c :: r => if is_digit c then cons_fst c (span_digits r) else ([], s)
  | [] => ([], [])
  end.

Definition digits_value (ds : pystr) : Z :=
  fold_left (fun acc c => (acc * 10 + Z.of_N (c - 48))%Z) ds 0%Z.

(** [float] of a matched number literal: integer digits, fraction digits
    and a decimal exponent. *)
Definition float_of_literal (neg : bool) (int_ds frac_ds : pystr) (exp10 : Z) : spec_float :=
  let m := digits_value (int_ds ++ frac_ds) in
  let e := (exp10 - Z.of_nat (length frac_ds))%Z in
  if (0 <=? e)%Z then sf_of_ratio neg (m * 10 ^ e) 1
  else sf_of_ratio neg m (10 ^ (- e)).

(** _match_number_unicode, in its four steps: the sign, the integer
    digits (a lone zero or a digit string without leading zero), a
    fraction (a dot followed by at least one digit) and an exponent (a
    letter e, an optional sign that is itself followed by something, and
    at least one digit; otherwise the scanner backtracks to before the
    letter). *)
Definition number_sign (s : pystr) : bool * pystr :=
  match s with
  | 45%N :: r => (true, r)
  | _ => (false, s)
  end.

Definition number_int (s1 : pystr) : option (pystr * pystr) :=
  match s1 with
  | c :: r =>
      if ((49 <=? c) && (c <=? 57))%N then Some (cons_fst c (span_digits r))
      else if (c =? 48)%N then Some ([c], r)
      else None
  | [] => None
  end.

Definition number_frac (s2 : pystr) : option pystr * pystr :=
  match s2 with
  | 46%N :: d :: r =>
      if is_digit d then (Some (d :: fst (span_digits r)), snd (span_digits r))
      else (None, s2)
  | _ => (None, s2)
  end.

Definition number_exp (s3 : pystr) : option Z * pystr :=
  match s3 with
  | e :: ((_ :: _) as r) =>
      if ((e =? 101) || (e =? 69))%N then
        let '(eneg, r1) :=
          match r with
          | sg :: ((_ :: _) as r') =>
              if (sg =? 45)%N then (true, r')
              else if (sg =? 43)%N then (false, r')
              else (false, r)
          | _ => (false, r)
          end in
        match span_digits r1 with
        | ([], _) => (None, s3)
        | (eds, rest) => (Some (if eneg then (- digits_value eds)%Z else digits_value eds), rest)
        end
      else (None, s3)
  | _ => (None, s3)
  end.

Definition match_number (s : pystr) : option (value * pystr) :=
  let '(neg, s1) := number_sign s in
  match number_int s1 with
  | None => None
  | Some (int_ds, s2) =>
      let '(frac, s3) := number_frac s2 in
      let '(expo, s4) := number_exp s3 in
      match frac, expo with
      | None, None =>
          Some (VInt (if neg then (- digits_value int_ds)%Z else digits_value int_ds), s4)
      | _, _ =>
          Some (VFloat (float_of_literal neg int_ds
                          (match frac with Some f => f | None => [] end)
                          (match expo with Some x => x | None => 0%Z end)), s4)
      end
  end.

Fixpoint strip_prefix (p s : pystr) : option pystr :=
  match p, s with
  | [], _ => Some s
  | x :: p', y :: s' => if (x =? y)%N then strip_prefix p' s' else None
  | _ :: _, [] => None
  end.

(** The named constants of scan_once. *)
Definition match_constant (s : pystr) : option (value * pystr) :=
  match strip_prefix (lit "null") s with
  | Some r => Some (VNone, r)
  | None =>
  match strip_prefix (lit "true") s with
  | Some r => Some (VBool true, r)
  | None =>
  match strip_prefix (lit "false") s with
  | Some r => Some (VBool false, r)
  | None =>
  match strip_prefix (lit "NaN") s with
  | Some r => Some (VFloat S754_nan, r)
  | None =>
  match strip_prefix (lit "Infinity") s with
  | Some r => Some (VFloat (S754_infinity false), r)
  | None =>
  match strip_prefix (lit "-Infinity") s with
  | Some r => Some (VFloat (S754_infinity true), r)
  | None => None
  end end end end end end.

(** The text after the first character of [s] when that character is
    [c]. *)
Definition expect (c : N) (s : pystr) : option pystr :=
  match s with
  | x :: r => if (x =? c)%N then Some r else None
  | [] => None
  end.

(** scan_once with the object and array loops.  [fuel] bounds the depth
    of the calls; a successful scan needs no more fuel than the number of
    characters it consumes (lemma [fuel_stable]). *)
Fixpoint scan_once (fuel : nat) (s : pystr) : option (value * pystr) :=
  match fuel with
  | O => None
  | S fuel' =>
      match s with
      | [] => None
      | c :: r =>
          if (c =? 34)%N then
            match scanstring r with
            | Some (k, rest) => Some (VStr k, rest)
            | None => None
            end
          else if (c =? 123)%N then
            match expect 125 (skip_ws r) with
            | Some rest => Some (VDict [], rest)
            | None => parse_object fuel' [] (skip_ws r)
            end
          else if (c =? 91)%N then
            match expect 93 (skip_ws r) with
            | Some rest => Some (VList [], rest)
            | None => parse_array fuel' [] (skip_ws r)
            end
          else
            match match_constant s with
            | Some x => Some x
            | None => match_number s
            end
      end
  end
with parse_object (fuel : nat) (acc : list (pystr * value)) (s : pystr) : option (value * pystr) :=
  match fuel with
  | O => None
  | S fuel' =>
      match expect 34 s with
      | None => None
      | Some r =>
          match scanstring r with
          | None => None
          | Some (key, s1) =>
              match expect 58 (skip_ws s1) with
              | None => None
              | Some s2 =>
                  match scan_once fuel' (skip_ws s2) with
                  | None => None
                  | Some (val, s3) =>
                      match expect 125 (skip_ws s3) with
                      | Some s4 => Some (VDict (dict_set key val acc), s4)
                      | None =>
                          match expect 44 (skip_ws s3) with
                          | Some s4 => parse_object fuel' (dict_set key val acc) (skip_ws s4)
                          | None => None
                          end
                      end
                  end
              end
          end
      end
  end
with parse_array (fuel : nat) (acc : list value) (s : pystr) : option (value * pystr) :=
  match fuel with
  | O => None
  | S fuel' =>
      match scan_once fuel' s with
      | None => None
      | Some (val, s1) =>
          match expect 93 (skip_ws s1) with
          | Some s2 => Some (VList (acc ++ [val]), s2)
          | None =>
              match expect 44 (skip_ws s1) with
              | Some s2 => parse_array fuel' (acc ++ [val]) (skip_ws s2)
              | None => None
              end
          end
      end
  end.

(** [json.loads] of a [str]. *)
Definition json_loads (s : pystr) : result value :=
  match s with
  | 0xFEFF%N :: _ => Raise JSONDecodeError
  | _ =>
      match scan_once (S (length s)) (skip_ws s) with
      | Some (v, rest) =>
          match skip_ws rest with
          | [] => Ok v
          | _ => Raise JSONDecodeError
          end
      | None => Raise JSONDecodeError
      end
  end.

(** ** Strings: strip, capitalize, replace *)

Fixpoint lstrip (s : pystr) : pystr :=
  match s with
  | c :: r => if Py_UNICODE_ISSPACE c then lstrip r else s
  | [] => []
  end.

(** [s.strip()]. *)
Definition strip (s : pystr) : pystr := rev (lstrip (rev (lstrip s))).

Definition ascii_upper (c : N) : N := if ((97 <=? c) && (c <=? 122))%N then (c - 32)%N else c.
Definition ascii_lower (c : N) : N := if ((65 <=? c) && (c <=? 90))%N then (c + 32)%N else c.

(** [s.capitalize()]: on ASCII text the first character in upper case
    and the rest in lower case; text with other code points is mapped by
    the character database of the runtime. *)
Definition capitalize (rt : runtime) (s : pystr) : pystr :=
  if forallb is_ascii s then
    match s with
    | [] => []
    | c :: r => ascii_upper c :: map ascii_lower r
    end
  else unicode_capitalize rt s.

(** [s.replace("Z", "+00:00")]. *)
Definition replace_Z (s : pystr) : pystr :=
  flat_map (fun c => if (c =? 90)%N then lit "+00:00" else [c]) s.

(** ** datetime *)

(** A [datetime.datetime]; [tzinfo] is the fixed offset from UTC in
    microseconds of an aware value and [None] for a naive one. *)
Record datetime := {
  year : Z; month : Z; day : Z;
  hour : Z; minute : Z; second : Z; microsecond : Z;
  tzinfo : option Z;
  fold : Z
}.

(** Days since 1970-01-01 of a date of the proleptic Gregorian calendar,
    and back. *)
Definition days_from_civil (y m d : Z) : Z :=
  let y' := (if m <=? 2 then y - 1 else y)%Z in
  let era := (y' / 400)%Z in
  let yoe := (y' - era * 400)%Z in
  let doy := ((153 * (if 2 <? m then m - 3 else m + 9) + 2) / 5 + d - 1)%Z in
  let doe := (yoe * 365 + yoe / 4 - yoe / 100 + doy)%Z in
  (era * 146097 + doe - 719468)%Z.

Definition civil_from_days (z : Z) : Z * Z * Z :=
  let z' := (z + 719468)%Z in
  let era := (z' / 146097)%Z in
  let doe := (z' - era * 146097)%Z in
  let yoe := ((doe - doe / 1460 + doe / 36524 - doe / 146096) / 365)%Z in
  let doy := (doe - (365 * yoe + yoe / 4 - yoe / 100))%Z in
  let mp := ((5 * doy + 2) / 153)%Z in
  let d := (doy - (153 * mp + 2) / 5 + 1)%Z in
  let m := (if mp <? 10 then mp + 3 else mp - 9)%Z in
  ((if m <=? 2 then yoe + era * 400 + 1 else yoe + era * 400)%Z, m, d).

(** Broken-down time of a count of seconds since the epoch. *)
Record tm := { tm_year : Z; tm_mon : Z; tm_mday : Z; tm_hour : Z; tm_min : Z; tm_sec : Z }.

Definition gmtime (t : Z) : tm :=
  let '(y, m, d) := civil_from_days (t / 86400) in
  let s := (t mod 86400)%Z in
  {| tm_year := y; tm_mon := m; tm_mday := d;
     tm_hour := s / 3600; tm_min := (s mod 3600) / 60; tm_sec := s mod 60 |}%Z.

Definition MINYEAR : Z := 1.
Definition MAXYEAR : Z := 9999.

(** utc_to_seconds of the datetime module: seconds since the epoch of a
    broken-down time, ValueError outside the supported years. *)
Definition utc_to_seconds (f : tm) : result Z :=
  if ((tm_year f <? MINYEAR) || (MAXYEAR <? tm_year f))%Z then Raise ValueError
  else Ok (days_from_civil (tm_year f) (tm_mon f) (tm_mday f) * 86400
           + tm_hour f * 3600 + tm_min f * 60 + tm_sec f)%Z.

Definition max_fold_seconds : Z := 24 * 3600.

Section FromTimestamp.
Context (rt : runtime).

(** _PyTime_localtime on a system whose localtime_r fails with
    EOVERFLOW when the year does not fit the 32-bit [tm_year] field. *)
Definition localtime (t : Z) : result tm :=
  let f := gmtime (t + local_utcoffset rt t) in
  if ((- 2 ^ 31 <=? tm_year f - 1900) && (tm_year f - 1900 <? 2 ^ 31))%Z
  then Ok f else Raise OSError.

Definition local (u : Z) : result Z := f <- localtime u ;; utc_to_seconds f.

(** _PyTime_ObjectToTimeval on a float with rounding half to even:
    whole seconds and microseconds. *)
Definition double_to_timeval (d : spec_float) : result (Z * Z) :=
  match d with
  | S754_nan => Raise ValueError
  | S754_infinity _ => Raise OverflowError
  | _ =>
      match sf_trunc d with
      | None => Raise OverflowError
      | Some intpart =>
          let floatpart := SFsub prec emax d (sf_of_Z intpart) in
          let scaled := SFmul prec emax floatpart (sf_of_Z 1000000) in
          match sf_round_half_even scaled with
          | None => Raise OverflowError
          | Some us =>
              let '(sec, us') :=
                if (1000000 <=? us)%Z then (intpart + 1, us - 1000000)%Z
                else if (us <? 0)%Z then (intpart - 1, us + 1000000)%Z
                else (intpart, us) in
              if ((- 2 ^ 63 <=? sec) && (sec <? 2 ^ 63))%Z then Ok (sec, us')
              else Raise OverflowError
          end
      end
  end.

(** [datetime.fromtimestamp(d)] without a time zone: the naive local
    time, with the probe one day back that detects a repeated hour. *)
Definition fromtimestamp (d : spec_float) : result datetime :=
  tv <- double_to_timeval d ;;
  let '(timet, us) := tv in
  f <- localtime timet ;;
  result_seconds <- utc_to_seconds f ;;
  probe_seconds <- local (timet - max_fold_seconds) ;;
  let transition := (result_seconds - probe_seconds - max_fold_seconds)%Z in
  fold_ <- (if (transition <? 0)%Z then
              probe2 <- local (timet + transition) ;;
              Ok (if (probe2 =? result_seconds)%Z then 1%Z else 0%Z)
            else Ok 0%Z) ;;
  Ok {| year := tm_year f; month := tm_mon f; day := tm_mday f;
        hour := tm_hour f; minute := tm_min f; second := tm_sec f;
        microsecond := us; tzinfo := None; fold := fold_ |}.
End FromTimestamp.

(** *** datetime.fromisoformat

    The grammar of Python 3.7 to 3.10,
    YYYY-MM-DD[*HH[:MM[:SS[.fff[fff]]]][+HH:MM[:SS[.ffffff]]]];
    later interpreters accept further ISO 8601 forms. *)

Definition digit_val (c : N) : option Z :=
  if is_digit c then Some (Z.of_N (c - 48)) else None.

Fixpoint parse_digits (n : nat) (acc : Z) (s : pystr) : option (Z * pystr) :=
  match n with
  | O => Some (acc, s)
  | S n' =>
      match s with
      | c :: r =>
          match digit_val c with
          | Some d => parse_digits n' (acc * 10 + d) r
          | None => None
          end
      | [] => None
      end
  end.

(** HH[:MM[:SS[.fff[fff]]]] over a whole string. *)
Definition parse_hh_mm_ss_ff (s : pystr) : option (Z * Z * Z * Z) :=
  match parse_digits 2 0 s with
  | None => None
  | Some (h, []) => Some (h, 0, 0, 0)%Z
  | Some (h, 58%N :: s1) =>
      match parse_digits 2 0 s1 with
      | None => None
      | Some (m, []) => Some (h, m, 0, 0)%Z
      | Some (m, 58%N :: s2) =>
          match parse_digits 2 0 s2 with
          | None => None
          | Some (sec, []) => Some (h, m, sec, 0)%Z
          | Some (sec, 46%N :: fr) =>
              match length fr, parse_digits (length fr) 0 fr with
              | 3%nat, Some (us, _) => Some (h, m, sec, us * 1000)%Z
              | 6%nat, Some (us, _) => Some (h, m, sec, us)%Z
              | _, _ => None
              end
          | Some _ => None
          end
      | Some _ => None
      end
  | Some _ => None
  end.

(** The time string split at the first sign character. *)
Fixpoint split_tz (s : pystr) : pystr * option (bool * pystr) :=
  match s with
  | [] => ([], None)
  | c :: r =>
      if (c =? 43)%N then ([], Some (false, r))
      else if (c =? 45)%N then ([], Some (true, r))
      else cons_fst c (split_tz r)
  end.

Definition is_leap (y : Z) : bool :=
  ((y mod 4 =? 0) && (negb (y mod 100 =? 0) || (y mod 400 =? 0)))%Z.

Definition days_in_month (y m : Z) : Z :=
  (if m =? 2 then (if is_leap y then 29 else 28)
   else if (m =? 4) || (m =? 6) || (m =? 9) || (m =? 11) then 30 else 31)%Z.

Definition between (lo hi x : Z) : bool := ((lo <=? x) && (x <=? hi))%Z.

Definition fromisoformat (s : pystr) : option datetime :=
  match parse_digits 4 0 s with
  | Some (y, 45%N :: s1) =>
      match parse_digits 2 0 s1 with
      | Some (mo, 45%N :: s2) =>
          match parse_digits 2 0 s2 with
          | Some (d, rest) =>
              let time :=
                match rest with
                | [] => Some (0, 0, 0, 0, None)%Z
                | _ :: ts =>
                    let '(tpart, tz) := split_tz ts in
                    match parse_hh_mm_ss_ff tpart with
                    | None => None
                    | Some (h, mi, sec, us) =>
                        match tz with
                        | None => Some (h, mi, sec, us, None)
                        | Some (neg, tzs) =>
                            match length tzs, parse_hh_mm_ss_ff tzs with
                            | (5 | 8 | 15)%nat, Some (th, tm_, tsec, tus) =>
                                let off := (((th * 3600 + tm_ * 60 + tsec) * 1000000) + tus)%Z in
                                if (off <? 86400 * 1000000)%Z
                                then Some (h, mi, sec, us, Some (if neg then (- off)%Z else off))
                                else None
                            | _, _ => None
                            end
                        end
                    end
                end in
              match time with
              | None => None
              | Some (h, mi, sec, us, tz) =>
                  if between MINYEAR MAXYEAR y && between 1 12 mo
                     && between 1 (days_in_month y mo) d
                     && between 0 23 h && between 0 59 mi && between 0 59 sec
                  then Some {| year := y; month := mo; day := d; hour := h; minute := mi;
                               second := sec; microsecond := us; tzinfo := tz; fold := 0 |}
                  else None
              end
          | None => None
          end
      | _ => None
      end
  | _ => None
  end.

(** POSIX seconds of the instant an aware datetime denotes, when its
    microsecond fields are zero. *)
Definition aware_timestamp (dt : datetime) (off : Z) : Z :=
  (days_from_civil (year dt) (month dt) (day dt) * 86400
   + hour dt * 3600 + minute dt * 60 + second dt - off / 1000000)%Z.

(** ** The collaborators: item record, store, HTTP client, request *)

(** Modelled from the spec: integrations/integration_item.py is not part
    of the sources at hand; the record has the fields of the spec's
    NormalizedItem, filled by keyword as both adapters do.  [type] and
    [name] hold whatever value the adapter passes. *)
Module IntegrationItem.
Record t := mk {
  id : pystr;
  type : value;
  name : value;
  creation_time : option datetime;
  last_modified_time : option datetime;
  url : option pystr;
  visibility : bool
}.
End IntegrationItem.

(** Code that reads and writes the store and may raise: a state and
    error monad over the store contents.  An exception leaves the store as
    it is at that point. *)
Definition M (A : Type) : Type := gmap pystr pystr -> result A * gmap pystr pystr.

Definition ret {A} (a : A) : M A := fun store => (Ok a, store).
Definition raise {A} (e : exn) : M A := fun store => (Raise e, store).
Definition lift {A} (r : result A) : M A := fun store => (r, store).

Definition mbind {A B} (m : M A) (k : A -> M B) : M B :=
  fun store =>
    match m store with
    | (Ok a, store') => k a store'
    | (Raise e, store') => (Raise e, store')
    end.

Notation "x <~ m ;; k" := (mbind m (fun x => k))
  (at level 100, m at next level, right associativity).

(** [try: m except Exception: handler]. *)
Definition try_except {A} (m : M A) (handler : exn -> M A) : M A :=
  fun store =>
    match m store with
    | (Ok a, store') => (Ok a, store')
    | (Raise e, store') => handler e store'
    end.

(** The in-memory store both modules define (class MockRedisClient and
    its module-level instance [redis_client]); the expiry is accepted and
    ignored. *)
Module MockRedisClient.
Definition add_key_value_redis (key value : pystr) (expire : option Z) : M unit :=
  fun store => (Ok tt, <[key := value]> store).

Definition get_value_redis (key : pystr) : M (option pystr) :=
  fun store => (Ok (store !! key), store).

Definition delete_key_redis (key : pystr) : M unit :=
  fun store => (Ok tt, delete key store).
End MockRedisClient.

(** An outgoing request and what the httpx client does with it: it
    raises, or it returns a response with a status code and a body whose
    [json()] gives a value or raises. *)
Record http_request := {
  http_method : pystr;
  http_url : pystr;
  http_headers : list (pystr * pystr);
  http_payload : list (pystr * value)
}.

Inductive http_outcome :=
  | Transport_failure
  | Response (status_code : Z) (json : result value).

Definition http_client := http_request -> http_outcome.

(** The incoming request, reduced to its parsed query parameters. *)
Record Request := { query_params : gmap pystr pystr }.

Inductive HTMLResponse := HTMLResponse_ (content : pystr).

(** The environment variables a module reads at import time. *)
Record settings := {
  CLIENT_ID : value;
  CLIENT_SECRET : value;
  REDIRECT_URI : value
}.

Definition dq : pystr := [34%N].
Definition nl : pystr := [10%N].

(** [for x in v]: the elements of a list, the keys of a dict, the
    characters of a string; other values are not iterable. *)
Definition py_iter (v : value) : result (list value) :=
  match v with
  | VList l => Ok l
  | VDict d => Ok (map (fun kv => VStr (fst kv)) d)
  | VStr s => Ok (map (fun c => VStr [c]) s)
  | _ => Raise TypeError
  end.

(** [v.values()]. *)
Definition py_values (v : value) : result (list value) :=
  match v with
  | VDict d => Ok (map snd d)
  | _ => Raise AttributeError
  end.

(** [v == s] for a string literal [s]. *)
Definition value_eq_str (v : value) (s : pystr) : bool :=
  match v with
  | VStr s' => str_eqb s' s
  | _ => false
  end.

(** A for loop that appends [f x] for each element and stops at the
    first exception: the list built so far and the exception, if any. *)
Fixpoint append_each (f : value -> result IntegrationItem.t)
    (acc : list IntegrationItem.t) (xs : list value)
    : list IntegrationItem.t * option exn :=
  match xs with
  | [] => (acc, None)
  | x :: r =>
      match f x with
      | Ok item => append_each f (acc ++ [item]) r
      | Raise e => (acc, Some e)
      end
  end.

(** The state dictionary both [authorize] functions build, through
    json.dumps, UTF-8 and URL-safe base64. *)
Definition state_data (token user_id org_id : pystr) : value :=
  VDict [(lit "state", VStr token); (lit "user_id", VStr user_id); (lit "org_id", VStr org_id)].

Definition encode_state_value (rt : runtime) (v : value) : result pystr :=
  b <- utf8_encode (json_dumps rt v) ;;
  utf8_decode (urlsafe_b64encode b).

(** [json.loads(base64.urlsafe_b64decode(encoded_state).decode())]. *)
Definition decode_state (encoded_state : pystr) : result value :=
  b <- urlsafe_b64decode encoded_state ;;
  s <- utf8_decode b ;;
  json_loads s.

(** The first half of both callback handlers is the same text: the
    [error] parameter, the presence of [code] and [state], and the
    decoding of the state. *)
Definition missing_code_or_state : exn := HTTPException 400 (lit "Missing code or state").
Definition invalid_state : exn := HTTPException 400 (lit "Invalid state").
Definition state_does_not_match : exn := HTTPException 400 (lit "State does not match").
Definition token_exchange_failed : exn :=
  HTTPException 400 (lit "Failed to exchange code for tokens").

(** [client.post(...)], the status check and [response.json()]. *)
Definition exchange (client : http_client) (req : http_request) : result value :=
  match client req with
  | Transport_failure => Raise TransportError
  | Response status_code json =>
      if negb (status_code =? 200)%Z then Raise token_exchange_failed else json
  end.

(** ** hubspot.py *)

Module Hubspot.
Section Adapter.
Context (rt : runtime) (env : settings).

Definition SCOPE : pystr :=
  lit "crm.objects.contacts.read crm.objects.companies.read crm.objects.deals.read oauth".

Definition state_key (org_id user_id : pystr) : pystr :=
  lit "hubspot_state:" ++ org_id ++ lit ":" ++ user_id.

Definition tokens_key (org_id user_id : pystr) : pystr :=
  lit "hubspot_tokens:" ++ org_id ++ lit ":" ++ user_id.

(** [token] is the draw of [secrets.token_urlsafe(32)]. *)
Definition authorize_hubspot (token user_id org_id : pystr) : M pystr :=
  encoded_state <~ lift (encode_state_value rt (state_data token user_id org_id)) ;;
  _ <~ MockRedisClient.add_key_value_redis (state_key org_id user_id) encoded_state (Some 600%Z) ;;
  ret (lit "https://app.hubspot.com/oauth/authorize"
       ++ lit "?client_id=" ++ py_str rt (CLIENT_ID env)
       ++ lit "&redirect_uri=" ++ py_str rt (REDIRECT_URI env)
       ++ lit "&scope=" ++ SCOPE
       ++ lit "&state=" ++ encoded_state).

Definition success_page : pystr :=
  nl ++ lit "  <html>" ++ nl ++ lit "    <head>" ++ nl ++ lit "      <script>" ++ nl
  ++ lit "        window.opener.postMessage(" ++ dq ++ lit "hubspot-auth-success" ++ dq
  ++ lit ", " ++ dq ++ lit "*" ++ dq ++ lit ");" ++ nl
  ++ lit "        window.close();" ++ nl ++ lit "      </script>" ++ nl
  ++ lit "    </head>" ++ nl ++ lit "    <body>" ++ nl
  ++ lit "      <p>HubSpot authentication successful. You can close this window.</p>" ++ nl
  ++ lit "    </body>" ++ nl ++ lit "  </html>" ++ nl.

Definition token_request (code : pystr) : http_request :=
  {| http_method := lit "POST";
     http_url := lit "https://api.hubspot.com/oauth/v1/token";
     http_headers := [];
     http_payload :=
       [(lit "grant_type", VStr (lit "authorization_code"));
        (lit "client_id", CLIENT_ID env);
        (lit "client_secret", CLIENT_SECRET env);
        (lit "redirect_uri", REDIRECT_URI env);
        (lit "code", VStr code)] |}.

(** The stored state is not looked up here: the source has that check
    in a comment only. *)
Definition oauth2callback_hubspot (client : http_client) (request : Request) : M HTMLResponse :=
  let q := query_params request in
  if str_truthy (q !! lit "error") then
    raise (HTTPException 400 (default [] (q !! lit "error")))
  else
    let code := q !! lit "code" in
    let encoded_state := q !! lit "state" in
    if negb (str_truthy code) || negb (str_truthy encoded_state) then
      raise missing_code_or_state
    else
      state_data <~ try_except (lift (decode_state (default [] encoded_state)))
                      (fun _ => raise invalid_state) ;;
      token_info <~ lift (exchange client (token_request (default [] code))) ;;
      org_id <~ lift (py_getitem state_data (lit "org_id")) ;;
      user_id <~ lift (py_getitem state_data (lit "user_id")) ;;
      _ <~ MockRedisClient.add_key_value_redis
             (tokens_key (py_str rt org_id) (py_str rt user_id))
             (json_dumps rt token_info) None ;;
      ret (HTMLResponse_ success_page).

Definition get_hubspot_credentials (user_id org_id : pystr) : M value :=
  credentials_str <~ MockRedisClient.get_value_redis (tokens_key org_id user_id) ;;
  if negb (str_truthy credentials_str) then
    raise (HTTPException 401 (lit "No credentials found"))
  else lift (json_loads (default [] credentials_str)).

(** [datetime.fromtimestamp(int(x) / 1000)]. *)
Definition epoch_millis_to_datetime (x : value) : result datetime :=
  n <- py_int rt x ;;
  d <- int_truediv n 1000 ;;
  fromtimestamp rt d.

(** One of the two timestamp blocks: the property is read, tested for
    truth and converted; ValueError and TypeError leave the field at
    [None], any other exception leaves the function. *)
Definition parse_timestamp (properties : value) (key : pystr) : result (option datetime) :=
  v <- py_get properties key VNone ;;
  if py_truthy v then
    match (x <- py_getitem properties key ;; epoch_millis_to_datetime x) with
    | Ok dt => Ok (Some dt)
    | Raise e => if is_ValueError_or_TypeError e then Ok None else Raise e
    end
  else Ok None.

Definition create_integration_item_metadata_object (response_json : value)
    (item_type : pystr) : result IntegrationItem.t :=
  item_id <- py_get response_json (lit "id") VNone ;;
  properties <- py_get response_json (lit "properties") (VDict []) ;;
  name <- (if str_eqb item_type (lit "contact") then
             first_name <- py_get properties (lit "firstname") (VStr []) ;;
             last_name <- py_get properties (lit "lastname") (VStr []) ;;
             match strip (py_str rt first_name ++ lit " " ++ py_str rt last_name) with
             | [] => py_get properties (lit "email") (VStr (lit "Unknown Contact"))
             | full => Ok (VStr full)
             end
           else if str_eqb item_type (lit "company") then
             py_get properties (lit "name") (VStr (lit "Unknown Company"))
           else if str_eqb item_type (lit "deal") then
             py_get properties (lit "dealname") (VStr (lit "Unknown Deal"))
           else Ok (VStr (lit "Unknown Item"))) ;;
  creation_time <- parse_timestamp properties (lit "createdate") ;;
  last_modified_time <- parse_timestamp properties (lit "hs_lastmodifieddate") ;;
  Ok {| IntegrationItem.id := py_str rt item_id;
        IntegrationItem.type := VStr item_type;
        IntegrationItem.name := name;
        IntegrationItem.creation_time := creation_time;
        IntegrationItem.last_modified_time := last_modified_time;
        IntegrationItem.url :=
          if str_eqb item_type (lit "contact")
          then Some (lit "https://app.hubspot.com/contacts/" ++ py_str rt item_id)
          else None;
        IntegrationItem.visibility := true |}.

Definition list_request (url : pystr) (access_token : value) (limit : Z) : http_request :=
  {| http_method := lit "GET";
     http_url := url;
     http_headers := [(lit "Authorization", lit "Bearer " ++ py_str rt access_token)];
     http_payload := [(lit "limit", VInt limit)] |}.

(** One of the three fetch blocks.  Everything from the request to the
    end of the loop is inside [try ... except Exception], so whatever is
    raised is swallowed and the items appended before it stay. *)
Definition fetch_block (client : http_client) (access_token : value) (url : pystr)
    (limit : Z) (item_type : pystr) (acc : list IntegrationItem.t) : list IntegrationItem.t :=
  match client (list_request url access_token limit) with
  | Transport_failure => acc
  | Response status_code json =>
      if (status_code =? 200)%Z then
        match (data <- json ;;
               results <- py_get data (lit "results") (VList []) ;;
               py_iter results) with
        | Raise _ => acc
        | Ok results =>
            fst (append_each (fun x => create_integration_item_metadata_object x item_type)
                   acc results)
        end
      else acc
  end.

Definition contacts_url : pystr := lit "https://api.hubapi.com/crm/v3/objects/contacts".
Definition companies_url : pystr := lit "https://api.hubapi.com/crm/v3/objects/companies".
Definition deals_url : pystr := lit "https://api.hubapi.com/crm/v3/objects/deals".

(** Console output is not part of the model. *)
Definition get_items_hubspot (client : http_client) (credentials : value)
    : result (list IntegrationItem.t) :=
  credentials <- (match credentials with
                  | VStr s => json_loads s
                  | _ => Ok credentials
                  end) ;;
  access_token <- py_get credentials (lit "access_token") VNone ;;
  if negb (py_truthy access_token) then Ok []
  else
    let items := [] in
    let items := fetch_block client access_token contacts_url 100 (lit "contact") items in
    let items := fetch_block client access_token companies_url 50 (lit "company") items in
    let items := fetch_block client access_token deals_url 50 (lit "deal") items in
    Ok items.
End Adapter.
End Hubspot.

(** ** notion.py *)

Module Notion.
Section Adapter.
Context (rt : runtime) (env : settings).

Definition NOTION_VERSION : pystr := lit "2022-06-28".

(** The module-level [authorization_url]. *)
Definition authorization_url : pystr :=
  lit "https://api.notion.com/v1/oauth/authorize?"
  ++ lit "client_id=" ++ py_str rt (CLIENT_ID env)
  ++ lit "&response_type=code"
  ++ lit "&owner=user"
  ++ lit "&redirect_uri=" ++ py_str rt (REDIRECT_URI env).

Definition state_key (org_id user_id : pystr) : pystr :=
  lit "notion_state:" ++ org_id ++ lit ":" ++ user_id.

Definition tokens_key (org_id user_id : pystr) : pystr :=
  lit "notion_tokens:" ++ org_id ++ lit ":" ++ user_id.

(** [token] is the draw of [secrets.token_urlsafe(32)]. *)
Definition encode_state (token user_id org_id : pystr) : result (pystr * value) :=
  encoded_state <- encode_state_value rt (state_data token user_id org_id) ;;
  Ok (encoded_state, state_data token user_id org_id).

Definition authorize_notion (token user_id org_id : pystr) : M pystr :=
  es <~ lift (encode_state token user_id org_id) ;;
  let encoded_state := fst es in
  _ <~ MockRedisClient.add_key_value_redis (state_key org_id user_id) encoded_state (Some 600%Z) ;;
  ret (lit "https://api.notion.com/v1/oauth/authorize"
       ++ lit "?client_id=" ++ py_str rt (CLIENT_ID env)
       ++ lit "&response_type=code"
       ++ lit "&owner=user"
       ++ lit "&redirect_uri=" ++ py_str rt (REDIRECT_URI env)
       ++ lit "&state=" ++ encoded_state).

Definition close_window_script : pystr :=
  nl ++ lit "    <html>" ++ nl ++ lit "        <script>" ++ nl
  ++ lit "            window.close();" ++ nl ++ lit "        </script>" ++ nl
  ++ lit "    </html>" ++ nl ++ lit "    ".

Definition token_request (code auth_header : pystr) : http_request :=
  {| http_method := lit "POST";
     http_url := lit "https://api.notion.com/v1/oauth/token";
     http_headers :=
       [(lit "Authorization", lit "Basic " ++ auth_header);
        (lit "Content-Type", lit "application/json")];
     http_payload :=
       [(lit "grant_type", VStr (lit "authorization_code"));
        (lit "code", VStr code);
        (lit "redirect_uri", REDIRECT_URI env)] |}.

Definition oauth2callback_notion (client : http_client) (request : Request) : M HTMLResponse :=
  let q := query_params request in
  if str_truthy (q !! lit "error") then
    raise (HTTPException 400 (default [] (q !! lit "error")))
  else
    let code := q !! lit "code" in
    let encoded_state := q !! lit "state" in
    if negb (str_truthy code) || negb (str_truthy encoded_state) then
      raise missing_code_or_state
    else
      state_data <~ try_except (lift (decode_state (default [] encoded_state)))
                      (fun _ => raise invalid_state) ;;
      user_id <~ lift (py_get state_data (lit "user_id") VNone) ;;
      org_id <~ lift (py_get state_data (lit "org_id") VNone) ;;
      stored_state <~ MockRedisClient.get_value_redis
                        (state_key (py_str rt org_id) (py_str rt user_id)) ;;
      if negb (str_truthy stored_state)
         || negb (str_eqb (default [] stored_state) (default [] encoded_state)) then
        raise state_does_not_match
      else
        auth_header <~ lift (b <- utf8_encode (py_str rt (CLIENT_ID env) ++ lit ":"
                                               ++ py_str rt (CLIENT_SECRET env)) ;;
                             utf8_decode (b64encode b)) ;;
        token_info <~ lift (exchange client (token_request (default [] code) auth_header)) ;;
        _ <~ MockRedisClient.add_key_value_redis
               (tokens_key (py_str rt org_id) (py_str rt user_id))
               (json_dumps rt token_info) None ;;
        _ <~ MockRedisClient.delete_key_redis
               (state_key (py_str rt org_id) (py_str rt user_id)) ;;
        ret (HTMLResponse_ close_window_script).

(** [None] is returned as [VNone]. *)
Definition get_notion_credentials (user_id org_id : pystr) : M value :=
  credentials <~ MockRedisClient.get_value_redis (tokens_key org_id user_id) ;;
  if negb (str_truthy credentials) then ret VNone
  else lift (json_loads (default [] credentials)).

(** The loop over [response_json["properties"].values()]: the first
    property of type "title" with a non-empty list gives the name and
    ends the loop. *)
Fixpoint find_title (props : list value) : result value :=
  match props with
  | [] => Ok VNone
  | prop :: rest =>
      ty <- py_get prop (lit "type") VNone ;;
      if value_eq_str ty (lit "title") then
        title_arr <- py_get prop (lit "title") (VList []) ;;
        match title_arr with
        | VList (first :: _) => py_get first (lit "plain_text") VNone
        | _ => find_title rest
        end
      else find_title rest
  end.

(** [obj_type.capitalize() + " Item"]. *)
Definition default_name (obj_type : value) : result value :=
  match obj_type with
  | VStr s => Ok (VStr (capitalize rt s ++ lit " Item"))
  | _ => Raise AttributeError
  end.

(** One of the two timestamp blocks; every exception is swallowed. *)
Definition parse_time (v : value) : option datetime :=
  if py_truthy v then
    match v with
    | VStr s => fromisoformat (replace_Z s)
    | _ => None
    end
  else None.

Definition create_integration_item_metadata_object (response_json : value)
    : result IntegrationItem.t :=
  item_id <- py_get response_json (lit "id") VNone ;;
  obj_type <- py_get response_json (lit "object") (VStr (lit "unknown")) ;;
  name <- (match response_json with
           | VDict d =>
               match dict_lookup (lit "properties") d with
               | Some props => vs <- py_values props ;; find_title vs
               | None => Ok VNone
               end
           | _ => Raise AttributeError
           end) ;;
  name <- (if negb (py_truthy name) then default_name obj_type else Ok name) ;;
  creation_time <- py_get response_json (lit "created_time") VNone ;;
  last_edited_time <- py_get response_json (lit "last_edited_time") VNone ;;
  Ok {| IntegrationItem.id := py_str rt item_id;
        IntegrationItem.type := obj_type;
        IntegrationItem.name := name;
        IntegrationItem.creation_time := parse_time creation_time;
        IntegrationItem.last_modified_time := parse_time last_edited_time;
        IntegrationItem.url := None;
        IntegrationItem.visibility := true |}.

Definition search_request (access_token : value) : http_request :=
  {| http_method := lit "POST";
     http_url := lit "https://api.notion.com/v1/search";
     http_headers :=
       [(lit "Authorization", lit "Bearer " ++ py_str rt access_token);
        (lit "Notion-Version", NOTION_VERSION)];
     http_payload := [] |}.

(** No try block here: whatever the request, [json()] or the loop
    raises leaves the function.  Console output is not part of the
    model. *)
Definition get_items_notion (client : http_client) (credentials : value)
    : result (list IntegrationItem.t) :=
  credentials <- (match credentials with
                  | VStr s => json_loads s
                  | _ => Ok credentials
                  end) ;;
  access_token <- py_get credentials (lit "access_token") VNone ;;
  if negb (py_truthy access_token) then Ok []
  else
    match client (search_request access_token) with
    | Transport_failure => Raise TransportError
    | Response status_code json =>
        if (status_code =? 200)%Z then
          data <- json ;;
          results <- py_get data (lit "results") (VList []) ;;
          results <- py_iter results ;;
          match append_each create_integration_item_metadata_object [] results with
          | (items, None) => Ok items
          | (_, Some e) => Raise e
          end
        else Ok []
    end.
End Adapter.
End Notion.

(** * Definitions used in the statements and proofs *)

Definition tr (c : N) : N := urlsafe_decode_translation (urlsafe_encode_translation c).

Definition sextet_ok (s : N) : bool :=
  negb (tr (b2a s) =? BASE64_PAD)%N
  && match table_a2b_base64 (tr (b2a s)) with Some v => (v =? s)%N | None => false end
  && is_ascii (urlsafe_encode_translation (b2a s)).

Definition s1 (a : N) : N := N.shiftr a 2.
Definition s2 (a b : N) : N := N.lor (N.shiftl (N.land a 3) 4) (N.shiftr b 4).
Definition s3 (b c : N) : N := N.lor (N.shiftl (N.land b 15) 2) (N.shiftr c 6).
Definition s4 (c : N) : N := N.land c 63.

Definition quad_ok (x y : N) : bool :=
  (s1 x <? 64)%N && (s2 x y <? 64)%N && (s3 x y <? 64)%N && (s4 x <? 64)%N
  && (N.shiftl (N.land x 3) 4 <? 64)%N && (N.shiftl (N.land x 15) 2 <? 64)%N
  && (N.land (N.lor (N.shiftl (s1 x) 2) (N.shiftr (s2 x y) 4)) 255 =? x)%N
  && (N.land (N.lor (N.shiftl (s1 x) 2) (N.shiftr (N.shiftl (N.land x 3) 4) 4)) 255 =? x)%N
  && (N.land (s2 x y) 15 =? N.shiftr y 4)%N
  && (N.land (N.lor (N.shiftl (N.shiftr x 4) 4) (N.shiftr (s3 x y) 2)) 255 =? x)%N
  && (N.land (N.lor (N.shiftl (N.shiftr x 4) 4)
                (N.shiftr (N.shiftl (N.land x 15) 2) 2)) 255 =? x)%N
  && (N.land (s3 x y) 3 =? N.shiftr y 6)%N
  && (N.land (N.lor (N.shiftl (N.shiftr x 6) 6) (s4 x)) 255 =? x)%N.

Definition u_escape_ok (c : N) : bool :=
  forallb is_ascii (u_escape c)
  && match hex4 (hex_digit (N.shiftr c 12)) (hex_digit (N.land (N.shiftr c 8) 15))
             (hex_digit (N.land (N.shiftr c 4) 15)) (hex_digit (N.land c 15)) with
     | Some v => (v =? c)%N
     | None => false
     end.

Definition hi_of (n : N) : N := N.lor 0xD800 (N.land (N.shiftr n 10) 0x3FF).
Definition lo_of (n : N) : N := N.lor 0xDC00 (N.land n 0x3FF).

Definition surrogate_ok (x : N) : bool :=
  (N.lor 0xD800 x <? 0x10000)%N && (N.lor 0xDC00 x <? 0x10000)%N
  && is_high_surrogate (N.lor 0xD800 x) && is_low_surrogate (N.lor 0xDC00 x)
  && (N.land (N.lor 0xD800 x) 0x3FF =? x)%N && (N.land (N.lor 0xDC00 x) 0x3FF =? x)%N.

Ltac nbool :=
  repeat match goal with
         | H : (_ && _) = true |- _ => apply andb_true_iff in H as [? ?]
         | H : (_ || _) = true |- _ => apply orb_true_iff in H as [?|?]
         | H : (_ && _) = false |- _ => apply andb_false_iff in H as [?|?]
         | H : (_ || _) = false |- _ => apply orb_false_iff in H as [? ?]
         | H : (_ <? _)%N = true |- _ => apply N.ltb_lt in H
         | H : (_ <? _)%N = false |- _ => apply N.ltb_ge in H
         | H : (_ <=? _)%N = true |- _ => apply N.leb_le in H
         | H : (_ <=? _)%N = false |- _ => apply N.leb_gt in H
         | H : (_ =? _)%N = true |- _ => apply N.eqb_eq in H
         | H : (_ =? _)%N = false |- _ => apply N.eqb_neq in H
         end.

(** The scanner [run] is stable at fuel [f]: a scan that succeeds with
    fuel [f] consumes at least one character and gives the same result
    with any fuel that is at least the number of characters consumed. *)
Definition stable {A} (run : nat -> A -> pystr -> option (value * pystr)) (f : nat) : Prop :=
  forall a s v r,
    run f a s = Some (v, r) ->
    length r < length s
    /\ forall f', length s - length r <= f' -> run f' a s = Some (v, r).

(** Case analysis on every test of a hypothesis. *)
Ltac split_cases H :=
  repeat match type of H with
         | context [if ?b then _ else _] => destruct b
         | context [match ?x with _ => _ end] => destruct x eqn:?
         end.

(** Closed inputs for the two handlers: an identity provider that
    accepts every code, one that rejects every code, and a callback
    request carrying a code and a state. *)
Definition example_settings : settings :=
  {| CLIENT_ID := VStr (lit "client"); CLIENT_SECRET := VStr (lit "secret");
     REDIRECT_URI := VStr (lit "http://localhost:8000/callback") |}.

Definition accepting_client : http_client :=
  fun _ => Response 200 (Ok (VDict [(lit "access_token", VStr (lit "tok-1"))])).

Definition rejecting_client : http_client :=
  fun _ => Response 400 (Ok (VDict [(lit "error", VStr (lit "invalid_grant"))])).

Definition callback_request (code state : pystr) : Request :=
  {| query_params := <[lit "code" := code]> (<[lit "state" := state]> ∅) |}.

(** The state of a flow for user "victim" of organisation "acme". *)
Definition example_state : pystr :=
  urlsafe_b64encode
    (json_dumps utc_runtime (state_data (lit "n0nce") (lit "victim") (lit "acme"))).

Definition example_token_record : pystr :=
  json_dumps utc_runtime (VDict [(lit "access_token", VStr (lit "tok-1"))]).

(** Case analysis on the innermost test or match of a hypothesis. *)
Ltac destruct_inner H :=
  match type of H with
  | context [match ?x with _ => _ end] =>
      lazymatch x with
      | context [match _ with _ => _ end] => fail
      | _ => destruct x eqn:?
      end
  end.

Ltac run_cases H :=
  repeat first
    [ discriminate H
    | progress (cbv beta iota in H)
    | destruct_inner H ].

Definition example_notion_store : gmap pystr pystr :=
  {[ Notion.state_key (lit "acme") (lit "victim") := example_state ]}.

(** A Notion property that is an object whose [type] is not "title". *)
Definition not_title (prop : value) : bool :=
  match prop with
  | VDict pd =>
      negb (value_eq_str (match dict_lookup (lit "type") pd with Some t => t | None => VNone end)
              (lit "title"))
  | _ => false
  end.

Definition bare_contact : list (pystr * value) :=
  [(lit "id", VStr (lit "101")); (lit "properties", VDict [(lit "phone", VStr (lit "555"))])].

Definition untitled_page : list (pystr * value) :=
  [(lit "id", VStr (lit "p-1")); (lit "object", VStr (lit "page"));
   (lit "properties", VDict [(lit "Tags", VDict [(lit "type", VStr (lit "multi_select"))])])].

(** A timestamp value is within the platform's range when its conversion
    raises nothing but ValueError or TypeError. *)
Definition in_platform_range (rt : runtime) (v : value) : Prop :=
  forall e, Hubspot.epoch_millis_to_datetime rt v = Raise e ->
            is_ValueError_or_TypeError e = true.

Definition is_dict (v : value) : bool :=
  match v with VDict _ => true | _ => false end.

(** A Notion property the title loop can inspect: an object, and if it
    is of type "title" with a non-empty list, the first entry of the list
    is an object. *)
Definition inspectable (prop : value) : bool :=
  match prop with
  | VDict pd =>
      if value_eq_str (match dict_lookup (lit "type") pd with Some t => t | None => VNone end)
           (lit "title")
      then match dict_lookup (lit "title") pd with
           | Some (VList (first :: _)) => is_dict first
           | _ => true
           end
      else true
  | _ => false
  end.

Definition notion_well_formed (d : list (pystr * value)) : bool :=
  match dict_lookup (lit "object") d with
  | None | Some (VStr _) => true
  | _ => false
  end
  && match dict_lookup (lit "properties") d with
     | None => true
     | Some (VDict props) => forallb inspectable (map snd props)
     | _ => false
     end.

Definition garbled_contact : list (pystr * value) :=
  [(lit "id", VStr (lit "101"));
   (lit "properties", VDict [(lit "firstname", VStr (lit "Ada"));
                             (lit "createdate", VStr (lit "last tuesday"))])].

Definition garbled_page : list (pystr * value) :=
  [(lit "id", VStr (lit "p-1")); (lit "object", VStr (lit "page"));
   (lit "created_time", VStr (lit "yesterday"));
   (lit "properties",
    VDict [(lit "Name", VDict [(lit "type", VStr (lit "title")); (lit "title", VList [])])])].

Definition example_company : value :=
  VDict [(lit "id", VStr (lit "c-1")); (lit "properties", VDict [(lit "name", VStr (lit "Acme"))])].

Definition example_deal : value :=
  VDict [(lit "id", VStr (lit "d-1")); (lit "properties", VDict [(lit "dealname", VStr (lit "Renewal"))])].

(** Contacts answer 500, companies and deals answer 200 with one object
    each. *)
Definition contacts_down_client : http_client :=
  fun req =>
    if str_eqb (http_url req) Hubspot.contacts_url then Response 500 (Raise JSONDecodeError)
    else if str_eqb (http_url req) Hubspot.companies_url
    then Response 200 (Ok (VDict [(lit "results", VList [example_company])]))
    else Response 200 (Ok (VDict [(lit "results", VList [example_deal])])).

Definition example_credentials : value :=
  VDict [(lit "access_token", VStr (lit "tok-1"))].

Definition example_company_item : IntegrationItem.t :=
  {| IntegrationItem.id := lit "c-1";
     IntegrationItem.type := VStr (lit "company");
     IntegrationItem.name := VStr (lit "Acme");
     IntegrationItem.creation_time := None;
     IntegrationItem.last_modified_time := None;
     IntegrationItem.url := None;
     IntegrationItem.visibility := true |}.

Definition example_deal_item : IntegrationItem.t :=
  {| IntegrationItem.id := lit "d-1";
     IntegrationItem.type := VStr (lit "deal");
     IntegrationItem.name := VStr (lit "Renewal");
     IntegrationItem.creation_time := None;
     IntegrationItem.last_modified_time := None;
     IntegrationItem.url := None;
     IntegrationItem.visibility := true |}.

Definition fetch_failed (outcome : http_outcome) : Prop :=
  match outcome with
  | Transport_failure => True
  | Response status_code _ => status_code <> 200%Z
  end.

(** Contacts and deals are down, companies answer with one object. *)
Definition only_companies_client : http_client :=
  fun req =>
    if str_eqb (http_url req) Hubspot.companies_url
    then Response 200 (Ok (VDict [(lit "results", VList [example_company])]))
    else Transport_failure.

(** Every zone offset the runtime reports is less than a day, as for
    every [tzinfo] Python accepts. *)
Definition sane_zone (rt : runtime) : Prop :=
  forall t, (- 86400 < local_utcoffset rt t < 86400)%Z.

Definition wall_clock (dt : datetime) : tm :=
  {| tm_year := year dt; tm_mon := month dt; tm_mday := day dt;
     tm_hour := hour dt; tm_min := minute dt; tm_sec := second dt |}.

Definition naive_local (f : tm) (us fold_ : Z) : datetime :=
  {| year := tm_year f; month := tm_mon f; day := tm_mday f;
     hour := tm_hour f; minute := tm_min f; second := tm_sec f;
     microsecond := us; tzinfo := None; fold := fold_ |}.

Definition hubspot_dated : list (pystr * value) :=
  [(lit "id", VStr (lit "101"));
   (lit "properties", VDict [(lit "createdate", VStr (lit "1700000000000"))])].

Definition notion_dated : list (pystr * value) :=
  [(lit "id", VStr (lit "p-1")); (lit "object", VStr (lit "page"));
   (lit "created_time", VStr (lit "2023-11-14T22:13:20.000Z"))].

Definition instant_2023_11_14_22_13_20 : tm :=
  {| tm_year := 2023; tm_mon := 11; tm_mday := 14; tm_hour := 22; tm_min := 13; tm_sec := 20 |}.

(** The keys of a dictionary are pairwise different, as in every Python
    [dict]. *)
Fixpoint distinct_keys (d : list (pystr * value)) : bool :=
  match d with
  | [] => true
  | kv :: r =>
      match dict_lookup (fst kv) r with None => true | Some _ => false end && distinct_keys r
  end.

(** Interpreters that limit the conversion between [int] and [str]
    (sys.set_int_max_str_digits) refuse it beyond 4300 digits by default;
    integers are taken within that limit where their text matters. *)
Definition MAX_STR_DIGITS : nat := 4300.

Definition int_text_allowed (z : Z) : bool :=
  Nat.leb (length (uint_chars (N.to_uint (Z.abs_N z)))) MAX_STR_DIGITS.

(** Values whose JSON text does not depend on the runtime: null,
    booleans, integers, strings of scalar values, and lists and
    dictionaries of such values.  Floats are left out. *)
Fixpoint json_safe (v : value) : bool :=
  match v with
  | VNone | VBool _ => true
  | VInt z => int_text_allowed z
  | VFloat _ => false
  | VStr s => forallb is_scalar s
  | VList l => forallb json_safe l
  | VDict d =>
      forallb (fun kv => forallb is_scalar (fst kv) && json_safe (snd kv)) d
      && distinct_keys d
  end.

(** What can follow a value inside a JSON text: nothing, a comma or a
    closing bracket. *)
Definition closes (rest : pystr) : Prop :=
  rest = [] \/ exists c t, rest = c :: t /\ (c = 44 \/ c = 93 \/ c = 125)%N.

(** The scanner reads the JSON text of [v] back, with enough fuel. *)
Definition scans (rt : runtime) (v : value) : Prop :=
  forall rest, closes rest ->
    exists f0, forall f, f0 <= f -> scan_once f (json_dumps rt v ++ rest) = Some (v, rest).

Definition horner (acc : Z) (ds : pystr) : Z :=
  fold_left (fun acc c => (acc * 10 + Z.of_N (c - 48))%Z) ds acc.

(** The characters a JSON text written by [json_dumps] can start with. *)
Definition value_start (c : N) : bool :=
  ((c =? 34) || (c =? 123) || (c =? 91) || (c =? 110) || (c =? 116) || (c =? 102)
   || (c =? 45) || is_digit c)%N.

(** One [key: value] member of an object, as [json_dumps] writes it. *)
Definition member (rt : runtime) (kv : pystr * value) : pystr :=
  encode_basestring_ascii (fst kv) ++ lit ": " ++ json_dumps rt (snd kv).

(** The text has no colon in it. *)
Definition no_colon (s : pystr) : Prop := ~ In 58%N s.

Definition plain_sextet_ok (s : N) : bool :=
  is_ascii (b2a s) && (tr (b2a s) =? b2a s)%N.

(** [f"{CLIENT_ID}:{CLIENT_SECRET}"] and its base64 text, the credential
    of the Basic authorization header. *)
Definition basic_credentials (rt : runtime) (env : settings) : pystr :=
  py_str rt (CLIENT_ID env) ++ lit ":" ++ py_str rt (CLIENT_SECRET env).

Definition basic_auth_header (rt : runtime) (env : settings) : pystr :=
  b64encode (basic_credentials rt env).

(** A token payload as the providers send it, and a token endpoint that
    answers every request with it. *)
Definition example_payload : value :=
  VDict [(lit "access_token", VStr (lit "tok-1"));
         (lit "token_type", VStr (lit "bearer"));
         (lit "expires_in", VInt 1800)].

Definition issuing_client : http_client := fun _ => Response 200 (Ok example_payload).

(** What every item of the HubSpot adapter looks like: its type is the
    category it was fetched for, it is visible, and it has a link -- the
    contact page of its id -- exactly when it is a contact. *)
Definition hubspot_item_of (item_type : pystr) (item : IntegrationItem.t) : Prop :=
  IntegrationItem.type item = VStr item_type
  /\ IntegrationItem.visibility item = true
  /\ IntegrationItem.url item
     = if str_eqb item_type (lit "contact")
       then Some (lit "https://app.hubspot.com/contacts/" ++ IntegrationItem.id item)
       else None.

(** What every item of the Notion adapter looks like: it has a name that
    is neither [None] nor empty, no link, and it is visible. *)
Definition notion_item (item : IntegrationItem.t) : Prop :=
  py_truthy (IntegrationItem.name item) = true
  /\ IntegrationItem.url item = None
  /\ IntegrationItem.visibility item = true.

(** Contacts answer with a good object, an object whose [properties] is
    null and another good object; companies and deals are down. *)
Definition example_contact : value :=
  VDict [(lit "id", VStr (lit "101"));
         (lit "properties", VDict [(lit "email", VStr (lit "ada@example.com"))])].

Definition broken_contact : value :=
  VDict [(lit "id", VStr (lit "102")); (lit "properties", VNone)].

Definition example_contact_item : IntegrationItem.t :=
  {| IntegrationItem.id := lit "101";
     IntegrationItem.type := VStr (lit "contact");
     IntegrationItem.name := VStr (lit "ada@example.com");
     IntegrationItem.creation_time := None;
     IntegrationItem.last_modified_time := None;
     IntegrationItem.url := Some (lit "https://app.hubspot.com/contacts/101");
     IntegrationItem.visibility := true |}.

Definition broken_contacts_client : http_client :=
  fun req =>
    if str_eqb (http_url req) Hubspot.contacts_url
    then Response 200
           (Ok (VDict [(lit "results",
                        VList [example_contact; broken_contact; example_contact])]))
    else Transport_failure.

(** A search endpoint that answers with one page, and the item made of
    it. *)
Definition one_page_client : http_client :=
  fun _ => Response 200 (Ok (VDict [(lit "results", VList [VDict untitled_page])])).

Definition untitled_page_item : IntegrationItem.t :=
  {| IntegrationItem.id := lit "p-1";
     IntegrationItem.type := VStr (lit "page");
     IntegrationItem.name := VStr (lit "Page Item");
     IntegrationItem.creation_time := None;
     IntegrationItem.last_modified_time := None;
     IntegrationItem.url := None;
     IntegrationItem.visibility := true |}.

(** A text that is not empty and has no white space at either end. *)
Definition trimmed (s : pystr) : bool :=
  match s, rev s with
  | c :: _, d :: _ => negb (Py_UNICODE_ISSPACE c) && negb (Py_UNICODE_ISSPACE d)
  | _, _ => false
  end.

Definition named_contact_properties : list (pystr * value) :=
  [(lit "firstname", VStr (lit "Ada")); (lit "lastname", VStr (lit "Lovelace"));
   (lit "email", VStr (lit "ada@example.com"))].

Definition named_contact : list (pystr * value) :=
  [(lit "id", VStr (lit "101")); (lit "properties", VDict named_contact_properties)].

Definition named_contact_item : IntegrationItem.t :=
  {| IntegrationItem.id := lit "101";
     IntegrationItem.type := VStr (lit "contact");
     IntegrationItem.name := VStr (lit "Ada Lovelace");
     IntegrationItem.creation_time := None;
     IntegrationItem.last_modified_time := None;
     IntegrationItem.url := Some (lit "https://app.hubspot.com/contacts/101");
     IntegrationItem.visibility := true |}.

(** A Notion property the title loop passes over: an object that is not
    of type "title", or is but whose [title] entry is absent, empty or not
    a list. *)
Definition passed_over (prop : value) : bool :=
  match prop with
  | VDict pd =>
      if value_eq_str (match dict_lookup (lit "type") pd with Some t => t | None => VNone end)
           (lit "title")
      then match dict_lookup (lit "title") pd with
           | Some (VList (_ :: _)) => false
           | _ => true
           end
      else true
  | _ => false
  end.

(** A page with a tag property, then a title, then another title. *)
Definition titled_page_properties : list (pystr * value) :=
  [(lit "Tags", VDict [(lit "type", VStr (lit "multi_select"))]);
   (lit "Name", VDict [(lit "type", VStr (lit "title"));
                       (lit "title", VList [VDict [(lit "plain_text", VStr (lit "Roadmap"))]])]);
   (lit "Alias", VDict [(lit "type", VStr (lit "title"));
                        (lit "title", VList [VDict [(lit "plain_text", VStr (lit "Plan"))]])])].

Definition titled_page : list (pystr * value) :=
  [(lit "id", VStr (lit "p-2")); (lit "object", VStr (lit "page"));
   (lit "properties", VDict titled_page_properties)].

Definition titled_page_item : IntegrationItem.t :=
  {| IntegrationItem.id := lit "p-2";
     IntegrationItem.type := VStr (lit "page");
     IntegrationItem.name := VStr (lit "Roadmap");
     IntegrationItem.creation_time := None;
     IntegrationItem.last_modified_time := None;
     IntegrationItem.url := None;
     IntegrationItem.visibility := true |}.

(** The last [n] decimal digits of [z], most significant first. *)
Fixpoint decimal_digits (n : nat) (z : Z) : pystr :=
  match n with
  | O => []
  | S n' => decimal_digits n' (z / 10) ++ [Z.to_N (48 + z mod 10)]
  end.

(** The text YYYY-MM-DDTHH:MM:SS.mmmZ, the form of Notion's
    [created_time] and [last_edited_time]. *)
Definition notion_timestamp (y mo d h mi s ms : Z) : pystr :=
  decimal_digits 4 y ++ lit "-" ++ decimal_digits 2 mo ++ lit "-" ++ decimal_digits 2 d
  ++ lit "T" ++ decimal_digits 2 h ++ lit ":" ++ decimal_digits 2 mi ++ lit ":"
  ++ decimal_digits 2 s ++ lit "." ++ decimal_digits 3 ms ++ lit "Z".

(** The fields of a calendar date and time of day with milliseconds. *)
Definition calendar_fields (y mo d h mi s ms : Z) : Prop :=
  (1 <= y <= 9999 /\ 1 <= mo <= 12 /\ 1 <= d <= days_in_month y mo
   /\ 0 <= h <= 23 /\ 0 <= mi <= 59 /\ 0 <= s <= 59 /\ 0 <= ms <= 999)%Z.

(** The aware datetime at offset zero with these fields. *)
Definition utc_datetime (y mo d h mi s ms : Z) : datetime :=
  {| year := y; month := mo; day := d; hour := h; minute := mi; second := s;
     microsecond := ms * 1000; tzinfo := Some 0%Z; fold := 0 |}.

Definition no_sign (c : N) : bool := negb (c =? 43)%N && negb (c =? 45)%N.

Definition keeps_Z (c : N) : bool := negb (c =? 90)%N.

Definition dated_page : list (pystr * value) :=
  [(lit "id", VStr (lit "p-3")); (lit "object", VStr (lit "page"));
   (lit "created_time", VStr (lit "2024-02-29T23:59:59.999Z"));
   (lit "last_edited_time", VStr (lit "2024-03-01T00:00:00.000Z"))].

Definition dated_page_item : IntegrationItem.t :=
  {| IntegrationItem.id := lit "p-3";
     IntegrationItem.type := VStr (lit "page");
     IntegrationItem.name := VStr (lit "Page Item");
     IntegrationItem.creation_time := Some (utc_datetime 2024 2 29 23 59 59 999);
     IntegrationItem.last_modified_time := Some (utc_datetime 2024 3 1 0 0 0 0);
     IntegrationItem.url := None;
     IntegrationItem.visibility := true |}.

(** An ASCII character that no integer literal contains: not a digit,
    an underscore, a sign or white space. *)
Definition not_in_integer (c : N) : bool :=
  (c <? 127)%N && negb (is_digit c) && negb (c =? 95)%N && negb (Py_ISSPACE c)
  && negb (c =? 43)%N && negb (c =? 45)%N.

(** A company as the HubSpot API sends it, its dates in ISO 8601. *)
Definition iso_dated_company : list (pystr * value) :=
  [(lit "id", VStr (lit "c-2"));
   (lit "properties",
    VDict [(lit "name", VStr (lit "Acme"));
           (lit "createdate", VStr (lit "2023-11-14T22:13:20.000Z"))])].

(** The characters of URL-safe base64 text: letters, digits, the hyphen,
    the underscore and the pad. *)
Definition urlsafe_char (c : N) : bool :=
  (((65 <=? c) && (c <=? 90)) || ((97 <=? c) && (c <=? 122)) || is_digit c
   || (c =? 45) || (c =? 95) || (c =? BASE64_PAD))%N.

Definition urlsafe_sextet_ok (s : N) : bool :=
  urlsafe_char (urlsafe_encode_translation (b2a s)).

(** A value that is neither a string nor a dictionary. *)
Definition neither_str_nor_dict (v : value) : bool :=
  match v with
  | VStr _ | VDict _ => false
  | _ => true
  end.

(** The state of a flow for user "mallory" that was never started here,
    and a state that is a JSON list. *)
Definition foreign_state : pystr :=
  urlsafe_b64encode
    (json_dumps utc_runtime (state_data (lit "n0nce") (lit "mallory") (lit "acme"))).

Definition list_state : pystr := urlsafe_b64encode (lit "[1, 2]").

(** A value a [for] loop cannot iterate over. *)
Definition not_iterable (v : value) : bool :=
  match v with
  | VNone | VBool _ | VInt _ | VFloat _ => true
  | _ => false
  end.

(** An API that answers every request with [{"results": null}]. *)
Definition null_results_client : http_client :=
  fun _ => Response 200 (Ok (VDict [(lit "results", VNone)])).

(** A payload with every kind of value but floats. *)
Definition nested_payload : value :=
  VDict [(lit "access_token", VStr (lit "tok-1"));
         (lit "expires_in", VInt 1800);
         (lit "skew", VInt (-5));
         (lit "refreshable", VBool true);
         (lit "owner", VDict [(lit "name", VStr [233; 0x1F600; 34; 92; 10]%N);
                              (lit "workspace", VNone)]);
         (lit "scopes", VList [VStr (lit "read"); VList []; VDict []])].

(** * Properties *)

(** ** Enumeration *)

Lemma N_all_below_iter k P :
  N.iter k (fun st => (fst st && P (snd st), N.succ (snd st))) (true, 0%N)
  = (N_all_below k P, k).
Proof.
  unfold N_all_below.
  induction k as [|k IH] using N.peano_ind; [reflexivity|].
  rewrite N.iter_succ, IH. reflexivity.
Qed.

Lemma N_all_below_spec k P :
  N_all_below k P = true -> forall n, (n < k)%N -> P n = true.
Proof.
  induction k as [|k IH] using N.peano_ind; intros H n Hn; [lia|].
  unfold N_all_below in H. rewrite N.iter_succ, N_all_below_iter in H. simpl in H.
  apply andb_true_iff in H as [Hk HP].
  destruct (N.eq_dec n k) as [->|Hne]; [exact HP|].
  apply IH; [exact Hk | lia].
Qed.

Lemma N_all_below_2 k1 k2 (P : N -> N -> bool) :
  N_all_below k1 (fun a => N_all_below k2 (P a)) = true ->
  forall a b, (a < k1)%N -> (b < k2)%N -> P a b = true.
Proof.
  intros H a b Ha Hb.
  apply (N_all_below_spec k2 (P a)); [|exact Hb].
  apply (N_all_below_spec k1 (fun a => N_all_below k2 (P a))); assumption.
Qed.

Lemma str_eqb_refl a : str_eqb a a = true.
Proof. induction a as [|x a IH]; simpl; [reflexivity|]. rewrite N.eqb_refl. exact IH. Qed.

Lemma str_eqb_eq a b : str_eqb a b = true <-> a = b.
Proof.
  split; [|intros ->; apply str_eqb_refl].
  revert b; induction a as [|x a IH]; intros [|y b]; simpl; try discriminate; [reflexivity|].
  intros H. apply andb_true_iff in H as [Hx Hr].
  apply N.eqb_eq in Hx. apply IH in Hr. congruence.
Qed.

Lemma list_ind3 {A} (P : list A -> Prop) :
  P [] -> (forall a, P [a]) -> (forall a b, P [a; b]) ->
  (forall a b c l, P l -> P (a :: b :: c :: l)) ->
  forall l, P l.
Proof.
  intros H0 H1 H2 H3. fix IH 1.
  intros [|a [|b [|c l]]]; [exact H0 | apply H1 | apply H2 |].
  apply H3, IH.
Qed.

(** ** base64 round trip *)

Lemma sextet_table : N_all_below 64 sextet_ok = true.
Proof. vm_compute. reflexivity. Qed.

Lemma sextet_pad s : (s < 64)%N -> (tr (b2a s) =? BASE64_PAD)%N = false.
Proof.
  intros Hs. pose proof (N_all_below_spec _ _ sextet_table s Hs) as H.
  unfold sextet_ok in H. apply andb_true_iff in H as [H _].
  apply andb_true_iff in H as [H _]. now apply negb_true_iff in H.
Qed.

Lemma sextet_lookup s : (s < 64)%N -> table_a2b_base64 (tr (b2a s)) = Some s.
Proof.
  intros Hs. pose proof (N_all_below_spec _ _ sextet_table s Hs) as H.
  unfold sextet_ok in H. apply andb_true_iff in H as [H _].
  apply andb_true_iff in H as [_ H].
  destruct (table_a2b_base64 (tr (b2a s))) as [v|]; [|discriminate].
  apply N.eqb_eq in H. now subst.
Qed.

Lemma sextet_ascii s : (s < 64)%N -> is_ascii (urlsafe_encode_translation (b2a s)) = true.
Proof.
  intros Hs. pose proof (N_all_below_spec _ _ sextet_table s Hs) as H.
  unfold sextet_ok in H. now apply andb_true_iff in H as [_ H].
Qed.

(** One alphabet character in each of the four positions of a quad. *)
Lemma a2b_loop_sextet q l p s rest :
  (s < 64)%N ->
  a2b_loop q l p (tr (b2a s) :: rest) =
  match q with
  | 0%N => a2b_loop 1 s 0 rest
  | 1%N => cons (N.land (N.lor (N.shiftl l 2) (N.shiftr s 4)) 255) <$> a2b_loop 2 (N.land s 15) 0 rest
  | 2%N => cons (N.land (N.lor (N.shiftl l 4) (N.shiftr s 2)) 255) <$> a2b_loop 3 (N.land s 3) 0 rest
  | _ => cons (N.land (N.lor (N.shiftl l 6) s) 255) <$> a2b_loop 0 0 0 rest
  end.
Proof.
  intros Hs. cbn [a2b_loop]. rewrite (sextet_pad s Hs), (sextet_lookup s Hs). reflexivity.
Qed.

Lemma quad_table : N_all_below 256 (fun x => N_all_below 256 (quad_ok x)) = true.
Proof. vm_compute. reflexivity. Qed.

Lemma quad_facts x y :
  (x < 256)%N -> (y < 256)%N ->
  ((s1 x < 64) /\ (s2 x y < 64) /\ (s3 x y < 64) /\ (s4 x < 64)
   /\ (N.shiftl (N.land x 3) 4 < 64) /\ (N.shiftl (N.land x 15) 2 < 64))%N
  /\ N.land (N.lor (N.shiftl (s1 x) 2) (N.shiftr (s2 x y) 4)) 255 = x
  /\ N.land (N.lor (N.shiftl (s1 x) 2) (N.shiftr (N.shiftl (N.land x 3) 4) 4)) 255 = x
  /\ N.land (s2 x y) 15 = N.shiftr y 4
  /\ N.land (N.lor (N.shiftl (N.shiftr x 4) 4) (N.shiftr (s3 x y) 2)) 255 = x
  /\ N.land (N.lor (N.shiftl (N.shiftr x 4) 4)
               (N.shiftr (N.shiftl (N.land x 15) 2) 2)) 255 = x
  /\ N.land (s3 x y) 3 = N.shiftr y 6
  /\ N.land (N.lor (N.shiftl (N.shiftr x 6) 6) (s4 x)) 255 = x.
Proof.
  intros Hx Hy.
  pose proof (N_all_below_2 256 256 quad_ok quad_table x y Hx Hy) as H.
  unfold quad_ok in H.
  repeat (apply andb_true_iff in H as [H ?]).
  repeat match goal with
         | h : (_ <? _)%N = true |- _ => apply N.ltb_lt in h
         | h : (_ =? _)%N = true |- _ => apply N.eqb_eq in h
         end.
  repeat split; assumption.
Qed.

Lemma b64_group a b c rest :
  (a < 256)%N -> (b < 256)%N -> (c < 256)%N ->
  a2b_loop 0 0 0 (map tr (b64encode (a :: b :: c :: rest)))
  = cons a <$> (cons b <$> (cons c <$> a2b_loop 0 0 0 (map tr (b64encode rest)))).
Proof.
  intros Ha Hb Hc.
  destruct (quad_facts a b Ha Hb) as ((A1 & A2 & _) & A3 & _ & A4 & _).
  destruct (quad_facts b c Hb Hc) as ((_ & _ & B3 & _) & _ & _ & _ & B5 & _ & B7 & _).
  destruct (quad_facts c c Hc Hc) as ((_ & _ & _ & C4 & _) & _ & _ & _ & _ & _ & _ & C8).
  cbn [b64encode map].
  fold (s1 a) (s2 a b) (s3 b c) (s4 c).
  rewrite (a2b_loop_sextet 0 0 0 (s1 a)) by exact A1.
  rewrite (a2b_loop_sextet 1 (s1 a) 0 (s2 a b)) by exact A2.
  rewrite (a2b_loop_sextet 2 _ 0 (s3 b c)) by exact B3.
  rewrite (a2b_loop_sextet 3 _ 0 (s4 c)) by exact C4.
  rewrite A3, A4, B5, B7, C8. reflexivity.
Qed.

Lemma b64_roundtrip data :
  Forall (fun b => (b < 256)%N) data ->
  a2b_loop 0 0 0 (map tr (b64encode data)) = Some data.
Proof.
  induction data as [|a|a b|a b c rest IH] using list_ind3; intros H.
  - reflexivity.
  - apply Forall_cons_1 in H as [Ha _].
    destruct (quad_facts a a Ha Ha) as ((A1 & _ & _ & _ & A5 & _) & _ & A3 & _).
    cbn [b64encode map]. fold (s1 a).
    rewrite (a2b_loop_sextet 0 0 0 (s1 a)) by exact A1.
    rewrite (a2b_loop_sextet 1 (s1 a) 0 _) by exact A5.
    rewrite A3. reflexivity.
  - apply Forall_cons_1 in H as [Ha H]. apply Forall_cons_1 in H as [Hb _].
    destruct (quad_facts a b Ha Hb) as ((A1 & A2 & _) & A3 & _ & A4 & _).
    destruct (quad_facts b b Hb Hb) as ((_ & _ & _ & _ & _ & B6) & _ & _ & _ & _ & B6' & _).
    cbn [b64encode map]. fold (s1 a) (s2 a b).
    rewrite (a2b_loop_sextet 0 0 0 (s1 a)) by exact A1.
    rewrite (a2b_loop_sextet 1 (s1 a) 0 (s2 a b)) by exact A2.
    rewrite (a2b_loop_sextet 2 _ 0 _) by exact B6.
    rewrite A3, A4, B6'. reflexivity.
  - apply Forall_cons_1 in H as [Ha H]. apply Forall_cons_1 in H as [Hb H].
    apply Forall_cons_1 in H as [Hc H].
    rewrite b64_group by assumption. rewrite (IH H). reflexivity.
Qed.

Lemma b64encode_ascii data :
  Forall (fun b => (b < 256)%N) data ->
  forallb is_ascii (urlsafe_b64encode data) = true.
Proof.
  unfold urlsafe_b64encode.
  induction data as [|a|a b|a b c rest IH] using list_ind3; intros H.
  - reflexivity.
  - apply Forall_cons_1 in H as [Ha _].
    destruct (quad_facts a a Ha Ha) as ((A1 & _ & _ & _ & A5 & _) & _).
    cbn [b64encode map forallb]. fold (s1 a).
    rewrite (sextet_ascii _ A1), (sextet_ascii _ A5). reflexivity.
  - apply Forall_cons_1 in H as [Ha H]. apply Forall_cons_1 in H as [Hb _].
    destruct (quad_facts a b Ha Hb) as ((A1 & A2 & _) & _).
    destruct (quad_facts b b Hb Hb) as ((_ & _ & _ & _ & _ & B6) & _).
    cbn [b64encode map forallb]. fold (s1 a) (s2 a b).
    rewrite (sextet_ascii _ A1), (sextet_ascii _ A2), (sextet_ascii _ B6). reflexivity.
  - apply Forall_cons_1 in H as [Ha H]. apply Forall_cons_1 in H as [Hb H].
    apply Forall_cons_1 in H as [Hc H].
    destruct (quad_facts a b Ha Hb) as ((A1 & A2 & _) & _).
    destruct (quad_facts b c Hb Hc) as ((_ & _ & B3 & _) & _).
    destruct (quad_facts c c Hc Hc) as ((_ & _ & _ & C4 & _) & _).
    cbn [b64encode map forallb]. fold (s1 a) (s2 a b) (s3 b c) (s4 c).
    rewrite (sextet_ascii _ A1), (sextet_ascii _ A2), (sextet_ascii _ B3), (sextet_ascii _ C4).
    exact (IH H).
Qed.

Lemma ascii_octets s :
  forallb is_ascii s = true -> Forall (fun b => (b < 256)%N) s.
Proof.
  induction s as [|c s IH]; intros H; [constructor|].
  cbn [forallb] in H. apply andb_true_iff in H as [Hc Hs].
  constructor; [|exact (IH Hs)].
  unfold is_ascii in Hc. apply N.ltb_lt in Hc. lia.
Qed.

(** URL-safe base64 decoding undoes encoding. *)
Lemma urlsafe_b64_roundtrip data :
  Forall (fun b => (b < 256)%N) data ->
  urlsafe_b64decode (urlsafe_b64encode data) = Ok data.
Proof.
  intros H. unfold urlsafe_b64decode, bytes_from_decode_data.
  rewrite (b64encode_ascii data H). cbn [bind].
  unfold urlsafe_b64encode, a2b_base64. rewrite map_map.
  change (fun x => urlsafe_decode_translation (urlsafe_encode_translation x)) with tr.
  rewrite (b64_roundtrip data H). reflexivity.
Qed.

(** ** UTF-8 on ASCII text *)

Lemma utf8_encode_ascii s : forallb is_ascii s = true -> utf8_encode s = Ok s.
Proof.
  induction s as [|c s IH]; intros H; [reflexivity|].
  cbn [forallb] in H. apply andb_true_iff in H as [Hc Hs].
  cbn [utf8_encode]. unfold utf8_encode_char.
  unfold is_ascii in Hc. change 128%N with 0x80%N in Hc. rewrite Hc.
  rewrite (IH Hs). reflexivity.
Qed.

Lemma utf8_decode_ascii s : forallb is_ascii s = true -> utf8_decode s = Ok s.
Proof.
  induction s as [|c s IH]; intros H; [reflexivity|].
  cbn [forallb] in H. apply andb_true_iff in H as [Hc Hs].
  cbn [utf8_decode].
  unfold is_ascii in Hc. change 128%N with 0x80%N in Hc. rewrite Hc.
  rewrite (IH Hs). reflexivity.
Qed.

(** ** JSON strings: scanning undoes escaping *)

Lemma u_escape_table : N_all_below 0x10000 u_escape_ok = true.
Proof. vm_compute. reflexivity. Qed.

Lemma u_escape_hex c :
  (c < 0x10000)%N ->
  hex4 (hex_digit (N.shiftr c 12)) (hex_digit (N.land (N.shiftr c 8) 15))
       (hex_digit (N.land (N.shiftr c 4) 15)) (hex_digit (N.land c 15)) = Some c.
Proof.
  intros Hc. pose proof (N_all_below_spec _ _ u_escape_table c Hc) as H.
  unfold u_escape_ok in H. apply andb_true_iff in H as [_ H].
  destruct (hex4 _ _ _ _) as [v|]; [|discriminate].
  apply N.eqb_eq in H. now subst.
Qed.

Lemma u_escape_ascii c : (c < 0x10000)%N -> forallb is_ascii (u_escape c) = true.
Proof.
  intros Hc. pose proof (N_all_below_spec _ _ u_escape_table c Hc) as H.
  unfold u_escape_ok in H. now apply andb_true_iff in H as [H _].
Qed.

Lemma surrogate_table : N_all_below 1024 surrogate_ok = true.
Proof. vm_compute. reflexivity. Qed.

Lemma split10 n :
  (n < 0x100000)%N ->
  N.lor (N.shiftl (N.land (N.shiftr n 10) 0x3FF) 10) (N.land n 0x3FF) = n.
Proof.
  intros Hn. change 0x3FF%N with (N.ones 10).
  rewrite (N.land_ones (N.shiftr n 10)), N.shiftr_div_pow2.
  rewrite N.mod_small.
  - rewrite <- N.shiftr_div_pow2, <- N.ldiff_ones_r. apply N.lor_ldiff_and.
  - apply N.Div0.div_lt_upper_bound. change (2 ^ 10 * 2 ^ 10)%N with 0x100000%N. exact Hn.
Qed.

Lemma land_3FF_bound x : (N.land x 0x3FF < 1024)%N.
Proof.
  change 0x3FF%N with (N.ones 10). rewrite N.land_ones.
  apply N.mod_lt. discriminate.
Qed.

Lemma pair_facts n :
  (n < 0x100000)%N ->
  (hi_of n < 0x10000)%N /\ (lo_of n < 0x10000)%N
  /\ is_high_surrogate (hi_of n) = true /\ is_low_surrogate (lo_of n) = true
  /\ join_surrogates (hi_of n) (lo_of n) = (n + 0x10000)%N.
Proof.
  intros Hn. unfold hi_of, lo_of, join_surrogates.
  pose proof (N_all_below_spec _ _ surrogate_table _ (land_3FF_bound (N.shiftr n 10))) as Hh.
  pose proof (N_all_below_spec _ _ surrogate_table _ (land_3FF_bound n)) as Hl.
  unfold surrogate_ok in Hh, Hl.
  repeat (apply andb_true_iff in Hh as [Hh ?]).
  repeat (apply andb_true_iff in Hl as [Hl ?]).
  repeat match goal with
         | h : (_ <? _)%N = true |- _ => apply N.ltb_lt in h
         | h : (_ =? _)%N = true |- _ => apply N.eqb_eq in h
         end.
  repeat split; try assumption.
  match goal with
  | h1 : N.land (N.lor 0xD800 _) 0x3FF = _, h2 : N.land (N.lor 0xDC00 (N.land n _)) 0x3FF = _ |- _ =>
      rewrite h1, h2
  end.
  rewrite (split10 n Hn). lia.
Qed.

Lemma scanstring_plain c T :
  (c =? 34)%N = false -> (c =? 92)%N = false -> (c <=? 0x1F)%N = false ->
  scanstring (c :: T) = cons_fst c <$> scanstring T.
Proof. intros H1 H2 H3. cbn [scanstring]. rewrite H1, H2, H3. reflexivity. Qed.

Lemma scanstring_simple e ch T :
  simple_escape e = Some ch -> (e =? 117)%N = false ->
  scanstring (92%N :: e :: T) = cons_fst ch <$> scanstring T.
Proof.
  intros H1 H2. cbn [scanstring N.eqb Pos.eqb]. rewrite H2, H1. reflexivity.
Qed.

Lemma scanstring_u h1 h2 h3 h4 u r5 :
  r5 <> [] ->
  hex4 h1 h2 h3 h4 = Some u -> is_high_surrogate u = false ->
  scanstring (92%N :: 117%N :: h1 :: h2 :: h3 :: h4 :: r5) = cons_fst u <$> scanstring r5.
Proof.
  intros Hne Hhex Hhi.
  destruct r5 as [|x0 [|x1 [|x2 [|x3 [|x4 [|x5 [|x6 T]]]]]]]; [congruence|..];
    cbn [scanstring N.eqb Pos.eqb]; rewrite Hhex; rewrite ?Hhi; reflexivity.
Qed.

Lemma scanstring_pair a1 a2 a3 a4 b1 b2 b3 b4 hi lo r11 :
  r11 <> [] ->
  hex4 a1 a2 a3 a4 = Some hi -> is_high_surrogate hi = true ->
  hex4 b1 b2 b3 b4 = Some lo -> is_low_surrogate lo = true ->
  scanstring (92%N :: 117%N :: a1 :: a2 :: a3 :: a4
              :: 92%N :: 117%N :: b1 :: b2 :: b3 :: b4 :: r11)
  = cons_fst (join_surrogates hi lo) <$> scanstring r11.
Proof.
  intros Hne Ha Hhi Hb Hlo.
  destruct r11 as [|x T]; [congruence|].
  cbn [scanstring N.eqb Pos.eqb]. rewrite Ha, Hhi. cbn [andb]. rewrite Hb, Hlo. reflexivity.
Qed.

Lemma scalar_not_high c : is_scalar c = true -> is_high_surrogate c = false.
Proof.
  unfold is_scalar, is_high_surrogate. intros H.
  apply andb_false_iff. nbool.
  - left. apply N.leb_gt. lia.
  - right. apply N.leb_gt. lia.
Qed.

(** Scanning reads back one escaped code point. *)
Lemma scanstring_escape_char c r :
  r <> [] -> is_scalar c = true ->
  scanstring (escape_char c ++ r) = cons_fst c <$> scanstring r.
Proof.
  intros Hr Hc. unfold escape_char.
  destruct (c =? 34)%N eqn:E34.
  { apply N.eqb_eq in E34. subst c. now apply scanstring_simple. }
  destruct (c =? 92)%N eqn:E92.
  { apply N.eqb_eq in E92. subst c. now apply scanstring_simple. }
  destruct ((32 <=? c) && (c <=? 126))%N eqn:Eprint.
  { cbn [app]. apply scanstring_plain; try assumption.
    nbool. apply N.leb_gt. lia. }
  destruct (c =? 8)%N eqn:E8.
  { apply N.eqb_eq in E8. subst c. now apply scanstring_simple. }
  destruct (c =? 12)%N eqn:E12.
  { apply N.eqb_eq in E12. subst c. now apply scanstring_simple. }
  destruct (c =? 10)%N eqn:E10.
  { apply N.eqb_eq in E10. subst c. now apply scanstring_simple. }
  destruct (c =? 13)%N eqn:E13.
  { apply N.eqb_eq in E13. subst c. now apply scanstring_simple. }
  destruct (c =? 9)%N eqn:E9.
  { apply N.eqb_eq in E9. subst c. now apply scanstring_simple. }
  destruct (c <? 0x10000)%N eqn:Ebmp.
  { apply N.ltb_lt in Ebmp. unfold u_escape. cbn [app].
    apply scanstring_u; [assumption | now apply u_escape_hex | now apply scalar_not_high]. }
  apply N.ltb_ge in Ebmp.
  assert (Hn : (c - 0x10000 < 0x100000)%N).
  { unfold is_scalar in Hc. nbool; lia. }
  destruct (pair_facts _ Hn) as (Hhi & Hlo & Hh & Hl & Hj).
  fold (hi_of (c - 0x10000)) (lo_of (c - 0x10000)).
  unfold u_escape. cbn [app].
  rewrite (scanstring_pair _ _ _ _ _ _ _ _ (hi_of (c - 0x10000)) (lo_of (c - 0x10000)));
    try assumption; try (now apply u_escape_hex).
  rewrite Hj. replace (c - 0x10000 + 0x10000)%N with c by lia. reflexivity.
Qed.

Lemma scanstring_escape s rest :
  valid_text s ->
  scanstring (escape_body s ++ 34%N :: rest) = Some (s, rest).
Proof.
  intros Hs. induction Hs as [|c s Hc Hs IH]; [reflexivity|].
  unfold escape_body in *. cbn [flat_map]. rewrite <- app_assoc.
  rewrite scanstring_escape_char; [|now destruct (flat_map escape_char s) | exact Hc].
  rewrite IH. reflexivity.
Qed.

Lemma escape_char_ascii c :
  is_scalar c = true -> forallb is_ascii (escape_char c) = true.
Proof.
  intros Hc. unfold escape_char.
  repeat match goal with
         | |- forallb _ (if ?b then _ else _) = true => destruct b eqn:?; [try reflexivity|]
         end.
  - cbn [forallb]. unfold is_ascii. rewrite andb_true_r. nbool. apply N.ltb_lt. lia.
  - apply u_escape_ascii. now apply N.ltb_lt.
  - assert (Hn : (c - 0x10000 < 0x100000)%N).
    { unfold is_scalar in Hc. nbool; lia. }
    destruct (pair_facts _ Hn) as (Hhi & Hlo & _).
    rewrite forallb_app. apply andb_true_iff. split; now apply u_escape_ascii.
Qed.

Lemma escape_body_ascii s : valid_text s -> forallb is_ascii (escape_body s) = true.
Proof.
  intros Hs. induction Hs as [|c s Hc Hs IH]; [reflexivity|].
  unfold escape_body in *. cbn [flat_map]. rewrite forallb_app, IH, escape_char_ascii by exact Hc.
  reflexivity.
Qed.

(** ** The JSON scanner does not depend on its fuel *)

Lemma skip_ws_le s : length (skip_ws s) <= length s.
Proof.
  induction s as [|c s IH]; cbn [skip_ws length]; [lia|].
  destruct (json_ws c); cbn [length]; lia.
Qed.

Lemma cons_fst_some {A} c (o : option (pystr * A)) k r :
  cons_fst c <$> o = Some (k, r) -> exists k', o = Some (k', r).
Proof.
  destruct o as [[k' r']|]; [|discriminate]. cbn. intros H. injection H as _ <-. eauto.
Qed.

Lemma scanstring_shorter_aux n :
  forall s k r, length s <= n -> scanstring s = Some (k, r) -> length r < length s.
Proof.
  induction n as [|n IH]; intros s k r Hn H.
  - destruct s; [discriminate H | cbn in Hn; lia].
  - destruct s as [|c s]; [discriminate H|].
    cbn [scanstring] in H. cbn [length] in *.
    repeat match type of H with
           | context [if ?b then _ else _] => destruct b
           | context [match ?x with _ => _ end] =>
               lazymatch x with
               | context [scanstring _] => fail
               | _ => destruct x eqn:?
               end
           | None = Some _ => discriminate H
           | Some _ = Some _ => injection H as <- <-; lia
           | cons_fst _ <$> scanstring ?t = Some _ =>
               apply cons_fst_some in H as [k' H]; apply IH in H; cbn [length] in *; lia
           end.
Qed.

Lemma scanstring_shorter s k r : scanstring s = Some (k, r) -> length r < length s.
Proof. apply (scanstring_shorter_aux (length s)). lia. Qed.

Lemma span_digits_le s : length (snd (span_digits s)) <= length s.
Proof.
  induction s as [|c s IH]; cbn [span_digits]; [cbn; lia|].
  destruct (is_digit c); cbn [cons_fst snd length] in *; lia.
Qed.

Lemma strip_prefix_le p : forall s r, strip_prefix p s = Some r -> length r + length p = length s.
Proof.
  induction p as [|x p IH]; intros s r H; cbn [strip_prefix] in H.
  - injection H as <-. cbn. lia.
  - destruct s as [|y s]; [discriminate|].
    destruct (x =? y)%N; [|discriminate]. apply IH in H. cbn [length]. lia.
Qed.

Lemma match_constant_shorter s v r : match_constant s = Some (v, r) -> length r < length s.
Proof.
  unfold match_constant. intros H.
  repeat match type of H with
         | context [match strip_prefix ?p s with _ => _ end] =>
             let E := fresh "E" in
             destruct (strip_prefix p s) eqn:E;
             [apply strip_prefix_le in E; injection H as _ <-;
              revert E; vm_compute (length p); lia|]
         end.
  discriminate H.
Qed.

Lemma number_sign_le s neg s1 : number_sign s = (neg, s1) -> length s1 <= length s.
Proof.
  unfold number_sign. intros H. split_cases H; simplify_eq; cbn [length]; lia.
Qed.

Lemma number_int_shorter s1 ds s2 : number_int s1 = Some (ds, s2) -> length s2 < length s1.
Proof.
  unfold number_int. intros H. destruct s1 as [|c r]; [discriminate|].
  pose proof (span_digits_le r).
  unfold cons_fst in H. split_cases H; simplify_eq; cbn [length snd] in *; lia.
Qed.

Lemma number_frac_le s2 frac s3 : number_frac s2 = (frac, s3) -> length s3 <= length s2.
Proof.
  unfold number_frac. intros H.
  destruct s2 as [|c [|d r]]; try (split_cases H; simplify_eq; cbn [length]; lia).
  pose proof (span_digits_le r).
  split_cases H; simplify_eq; cbn [length] in *; lia.
Qed.

Lemma number_exp_le s3 expo s4 : number_exp s3 = (expo, s4) -> length s4 <= length s3.
Proof.
  unfold number_exp. intros H.
  destruct s3 as [|e [|x r]]; try (simplify_eq; cbn [length]; lia).
  destruct ((e =? 101) || (e =? 69))%N; [|simplify_eq; lia].
  destruct (match x :: r with
            | sg :: (_ :: _) as r' =>
                if (sg =? 45)%N then (true, r')
                else if (sg =? 43)%N then (false, r') else (false, x :: r)
            | _ => (false, x :: r)
            end) as [eneg r1] eqn:E.
  assert (Hr1 : length r1 <= length (x :: r)).
  { destruct r as [|y r']; [simplify_eq; lia|].
    split_cases E; simplify_eq; cbn [length]; lia. }
  pose proof (span_digits_le r1).
  destruct (span_digits r1) as [[|d eds] rest]; simplify_eq; cbn [length snd] in *; lia.
Qed.

Lemma match_number_shorter s v r : match_number s = Some (v, r) -> length r < length s.
Proof.
  unfold match_number. intros H.
  destruct (number_sign s) as [neg s1] eqn:E0. apply number_sign_le in E0.
  destruct (number_int s1) as [[ds s2]|] eqn:E1; [|discriminate]. apply number_int_shorter in E1.
  destruct (number_frac s2) as [frac s3] eqn:E2. apply number_frac_le in E2.
  destruct (number_exp s3) as [expo s4] eqn:E3. apply number_exp_le in E3.
  destruct frac, expo; simplify_eq; lia.
Qed.

Lemma expect_length c s r : expect c s = Some r -> length s = S (length r).
Proof.
  destruct s as [|x s]; cbn [expect]; [discriminate|].
  destruct (x =? c)%N; [|discriminate]. intros H. injection H as <-. reflexivity.
Qed.

Lemma fuel_stable f :
  stable (fun f (_ : unit) s => scan_once f s) f
  /\ stable parse_object f /\ stable parse_array f.
Proof.
  induction f as [|g (IHs & IHo & IHa)]; [repeat split; discriminate|].
  unfold stable in *. split; [|split].
  - intros _ s v r H. cbn [scan_once] in H.
    destruct s as [|c r0]; [discriminate|].
    pose proof (skip_ws_le r0) as Hws.
    destruct (c =? 34)%N eqn:E34.
    { destruct (scanstring r0) as [[k rest]|] eqn:Es; [|discriminate]. injection H as <- <-.
      pose proof (scanstring_shorter _ _ _ Es). cbn [length]. split; [lia|].
      intros [|g'] Hf; [lia|]. cbn [scan_once]. now rewrite E34, Es. }
    destruct (c =? 123)%N eqn:E123.
    { destruct (expect 125 (skip_ws r0)) as [rest|] eqn:Ee.
      - injection H as <- <-. apply expect_length in Ee as Hl. cbn [length].
        split; [lia|]. intros [|g'] Hf; [lia|]. cbn [scan_once].
        now rewrite E34, E123, Ee.
      - destruct (IHo _ _ _ _ H) as [Hlt Hst]. cbn [length]. split; [lia|].
        intros [|g'] Hf; [cbn [length] in Hf; lia|]. cbn [scan_once].
        rewrite E34, E123, Ee. apply Hst. cbn [length] in Hf. lia. }
    destruct (c =? 91)%N eqn:E91.
    { destruct (expect 93 (skip_ws r0)) as [rest|] eqn:Ee.
      - injection H as <- <-. apply expect_length in Ee as Hl. cbn [length].
        split; [lia|]. intros [|g'] Hf; [lia|]. cbn [scan_once].
        now rewrite E34, E123, E91, Ee.
      - destruct (IHa _ _ _ _ H) as [Hlt Hst]. cbn [length]. split; [lia|].
        intros [|g'] Hf; [cbn [length] in Hf; lia|]. cbn [scan_once].
        rewrite E34, E123, E91, Ee. apply Hst. cbn [length] in Hf. lia. }
    assert (Hlt : length r < length (c :: r0)).
    { destruct (match_constant (c :: r0)) as [x|] eqn:Ec.
      - injection H as ->. now apply match_constant_shorter in Ec.
      - now apply match_number_shorter in H. }
    split; [exact Hlt|]. intros [|g'] Hf; [lia|]. cbn [scan_once].
    now rewrite E34, E123, E91.
  - intros acc s v r H. cbn [parse_object] in H.
    destruct (expect 34 s) as [r0|] eqn:E0; [|discriminate].
    destruct (scanstring r0) as [[key s1]|] eqn:E1; [|discriminate].
    destruct (expect 58 (skip_ws s1)) as [s2|] eqn:E2; [|discriminate].
    destruct (scan_once g (skip_ws s2)) as [[val s3]|] eqn:E3; [|discriminate].
    apply expect_length in E0 as L0. apply scanstring_shorter in E1 as L1.
    apply expect_length in E2 as L2.
    pose proof (skip_ws_le s1) as W1. pose proof (skip_ws_le s2) as W2.
    pose proof (skip_ws_le s3) as W3.
    destruct (IHs tt _ _ _ E3) as [L3 St3].
    destruct (expect 125 (skip_ws s3)) as [s4|] eqn:E4.
    { injection H as <- <-. apply expect_length in E4 as L4. split; [lia|].
      intros [|g'] Hf; [lia|]. cbn [parse_object].
      rewrite E0, E1, E2, (St3 g') by lia. now rewrite E4. }
    destruct (expect 44 (skip_ws s3)) as [s4|] eqn:E5; [|discriminate].
    apply expect_length in E5 as L5. pose proof (skip_ws_le s4) as W4.
    destruct (IHo _ _ _ _ H) as [L6 St6]. split; [lia|].
    intros [|g'] Hf; [lia|]. cbn [parse_object].
    rewrite E0, E1, E2, (St3 g') by lia. rewrite E4, E5. apply St6. lia.
  - intros acc s v r H. cbn [parse_array] in H.
    destruct (scan_once g s) as [[val s1]|] eqn:E1; [|discriminate].
    destruct (IHs tt _ _ _ E1) as [L1 St1].
    pose proof (skip_ws_le s1) as W1.
    destruct (expect 93 (skip_ws s1)) as [s2|] eqn:E2.
    { injection H as <- <-. apply expect_length in E2 as L2. split; [lia|].
      intros [|g'] Hf; [lia|]. cbn [parse_array].
      rewrite (St1 g') by lia. now rewrite E2. }
    destruct (expect 44 (skip_ws s1)) as [s2|] eqn:E3; [|discriminate].
    apply expect_length in E3 as L3. pose proof (skip_ws_le s2) as W2.
    destruct (IHa _ _ _ _ H) as [L4 St4]. split; [lia|].
    intros [|g'] Hf; [lia|]. cbn [parse_array].
    rewrite (St1 g') by lia. rewrite E2, E3. apply St4. lia.
Qed.

(** A document that scans with some fuel scans, to the same value, with
    the fuel [json_loads] gives the scanner. *)
Lemma scan_once_fuel f s v r :
  scan_once f (skip_ws s) = Some (v, r) ->
  scan_once (S (length s)) (skip_ws s) = Some (v, r).
Proof.
  intros H. destruct (fuel_stable f) as [Hs _].
  destruct (Hs tt _ _ _ H) as [_ St]. apply St.
  pose proof (skip_ws_le s). lia.
Qed.

(** ** json.loads on the output of json.dumps for a state dictionary *)

Lemma scan_once_string f s rest :
  valid_text s ->
  scan_once (S f) (encode_basestring_ascii s ++ rest) = Some (VStr s, rest).
Proof.
  intros Hs. unfold encode_basestring_ascii.
  cbn [app scan_once N.eqb Pos.eqb]. rewrite <- app_assoc. cbn [app].
  rewrite (scanstring_escape s rest Hs). reflexivity.
Qed.

Lemma skip_ws_encode s rest :
  skip_ws (encode_basestring_ascii s ++ rest) = encode_basestring_ascii s ++ rest.
Proof. reflexivity. Qed.

Lemma parse_object_pair f acc k v rest :
  valid_text k -> valid_text v ->
  parse_object (S (S f)) acc
    (encode_basestring_ascii k ++ lit ": " ++ encode_basestring_ascii v ++ rest)
  = match expect 125 (skip_ws rest) with
    | Some s4 => Some (VDict (dict_set k (VStr v) acc), s4)
    | None =>
        match expect 44 (skip_ws rest) with
        | Some s4 => parse_object (S f) (dict_set k (VStr v) acc) (skip_ws s4)
        | None => None
        end
    end.
Proof.
  intros Hk Hv.
  change (parse_object (S (S f)) acc ?s)
    with (match expect 34 s with
          | None => None
          | Some r =>
              match scanstring r with
              | None => None
              | Some (key, s1) =>
                  match expect 58 (skip_ws s1) with
                  | None => None
                  | Some s2 =>
                      match scan_once (S f) (skip_ws s2) with
                      | None => None
                      | Some (val, s3) =>
                          match expect 125 (skip_ws s3) with
                          | Some s4 => Some (VDict (dict_set key val acc), s4)
                          | None =>
                              match expect 44 (skip_ws s3) with
                              | Some s4 =>
                                  parse_object (S f) (dict_set key val acc) (skip_ws s4)
                              | None => None
                              end
                          end
                      end
                  end
              end
          end).
  unfold encode_basestring_ascii at 1.
  cbn [app]. rewrite <- app_assoc. cbn [app expect N.eqb Pos.eqb].
  rewrite (scanstring_escape k _ Hk).
  change (lit ": ") with [58%N; 32%N].
  change (skip_ws ([58%N; 32%N] ++ encode_basestring_ascii v ++ rest))
    with (58%N :: 32%N :: encode_basestring_ascii v ++ rest).
  cbn [expect N.eqb Pos.eqb].
  change (skip_ws (32%N :: encode_basestring_ascii v ++ rest))
    with (skip_ws (encode_basestring_ascii v ++ rest)).
  rewrite skip_ws_encode, (scan_once_string f v rest Hv). reflexivity.
Qed.

Lemma scan_once_object f t :
  scan_once (S f) (123%N :: 34%N :: t) = parse_object f [] (34%N :: t).
Proof. reflexivity. Qed.

Lemma json_loads_object body :
  json_loads (123%N :: body) =
  match scan_once (S (S (length body))) (123%N :: body) with
  | Some (v, rest) =>
      match skip_ws rest with
      | [] => Ok v
      | _ => Raise JSONDecodeError
      end
  | None => Raise JSONDecodeError
  end.
Proof. reflexivity. Qed.

Lemma json_dumps_state rt token user_id org_id :
  json_dumps rt (state_data token user_id org_id)
  = 123%N :: (encode_basestring_ascii (lit "state") ++ lit ": "
              ++ encode_basestring_ascii token
              ++ lit ", " ++ (encode_basestring_ascii (lit "user_id") ++ lit ": "
              ++ encode_basestring_ascii user_id
              ++ lit ", " ++ (encode_basestring_ascii (lit "org_id") ++ lit ": "
              ++ encode_basestring_ascii org_id ++ [125%N]))).
Proof.
  unfold state_data. cbn [json_dumps map join fst snd].
  change (lit "{") with [123%N]. change (lit "}") with [125%N].
  cbn [app]. rewrite <- !app_assoc. reflexivity.
Qed.

Lemma valid_text_lit_state : valid_text (lit "state").
Proof. repeat constructor. Qed.

Lemma valid_text_lit_user_id : valid_text (lit "user_id").
Proof. repeat constructor. Qed.

Lemma valid_text_lit_org_id : valid_text (lit "org_id").
Proof. repeat constructor. Qed.

Lemma encode_basestring_head s rest :
  exists t, encode_basestring_ascii s ++ rest = 34%N :: t.
Proof. unfold encode_basestring_ascii. cbn [app]. eauto. Qed.

(** [json.loads(json.dumps(state_data))] gives the dictionary back. *)
Lemma json_loads_dumps_state rt token user_id org_id :
  valid_text token -> valid_text user_id -> valid_text org_id ->
  json_loads (json_dumps rt (state_data token user_id org_id))
  = Ok (state_data token user_id org_id).
Proof.
  intros Ht Hu Ho. rewrite json_dumps_state.
  set (body := encode_basestring_ascii (lit "state") ++ _).
  assert (Hlen : exists f, length body = S (S (S f))).
  { subst body. unfold encode_basestring_ascii.
    cbn [app length]. rewrite !length_app. cbn [length]. eexists.
    repeat (rewrite <- ?Nat.add_succ_comm; cbn [Nat.add]). reflexivity. }
  destruct Hlen as [f Hlen].
  rewrite json_loads_object, Hlen.
  destruct (encode_basestring_head (lit "state")
              (lit ": " ++ encode_basestring_ascii token
               ++ lit ", " ++ (encode_basestring_ascii (lit "user_id") ++ lit ": "
               ++ encode_basestring_ascii user_id
               ++ lit ", " ++ (encode_basestring_ascii (lit "org_id") ++ lit ": "
               ++ encode_basestring_ascii org_id ++ [125%N])))) as [t0 Hhead].
  fold body in Hhead. rewrite Hhead, scan_once_object, <- Hhead. subst body.
  rewrite (parse_object_pair _ [] _ _ _ valid_text_lit_state Ht).
  change (lit ", ") with [44%N; 32%N].
  change (skip_ws ([44%N; 32%N] ++ ?x)) with (44%N :: 32%N :: x).
  cbn [expect N.eqb Pos.eqb].
  match goal with
  | |- context [skip_ws (32%N :: ?x)] => change (skip_ws (32%N :: x)) with (skip_ws x)
  end.
  rewrite skip_ws_encode.
  rewrite (parse_object_pair _ _ _ _ _ valid_text_lit_user_id Hu).
  change (skip_ws ([44%N; 32%N] ++ ?x)) with (44%N :: 32%N :: x).
  cbn [expect N.eqb Pos.eqb].
  match goal with
  | |- context [skip_ws (32%N :: ?x)] => change (skip_ws (32%N :: x)) with (skip_ws x)
  end.
  rewrite skip_ws_encode.
  rewrite (parse_object_pair _ _ _ _ _ valid_text_lit_org_id Ho).
  reflexivity.
Qed.

(** The restriction to scalar values matters: a string made of the two
    surrogates U+D83D U+DE00 is escaped as two [\u] escapes, which
    [json.loads] reads back as the single code point U+1F600. *)
Lemma surrogate_pair_joined_by_loads :
  json_loads (json_dumps utc_runtime (VStr [0xD83D; 0xDE00]%N)) = Ok (VStr [0x1F600%N]).
Proof. vm_compute. reflexivity. Qed.

Lemma encode_basestring_ascii_ascii s :
  valid_text s -> forallb is_ascii (encode_basestring_ascii s) = true.
Proof.
  intros Hs. unfold encode_basestring_ascii. cbn [forallb].
  rewrite forallb_app, (escape_body_ascii s Hs). reflexivity.
Qed.

Lemma json_dumps_state_ascii rt token user_id org_id :
  valid_text token -> valid_text user_id -> valid_text org_id ->
  forallb is_ascii (json_dumps rt (state_data token user_id org_id)) = true.
Proof.
  intros Ht Hu Ho. rewrite json_dumps_state.
  cbn [forallb]. rewrite !forallb_app.
  rewrite !encode_basestring_ascii_ascii
    by first [assumption | apply valid_text_lit_state
              | apply valid_text_lit_user_id | apply valid_text_lit_org_id].
  reflexivity.
Qed.

(** Encoding a state dictionary never fails and gives the URL-safe
    base64 text of its JSON form. *)
Lemma encode_state_value_ok rt token user_id org_id :
  valid_text token -> valid_text user_id -> valid_text org_id ->
  encode_state_value rt (state_data token user_id org_id)
  = Ok (urlsafe_b64encode (json_dumps rt (state_data token user_id org_id))).
Proof.
  intros Ht Hu Ho. unfold encode_state_value.
  pose proof (json_dumps_state_ascii rt _ _ _ Ht Hu Ho) as Hascii.
  rewrite (utf8_encode_ascii _ Hascii). cbn [bind].
  apply utf8_decode_ascii, b64encode_ascii, ascii_octets, Hascii.
Qed.

Lemma decode_encoded_state rt token user_id org_id :
  valid_text token -> valid_text user_id -> valid_text org_id ->
  decode_state (urlsafe_b64encode (json_dumps rt (state_data token user_id org_id)))
  = Ok (state_data token user_id org_id).
Proof.
  intros Ht Hu Ho. unfold decode_state.
  pose proof (json_dumps_state_ascii rt _ _ _ Ht Hu Ho) as Hascii.
  rewrite (urlsafe_b64_roundtrip _ (ascii_octets _ Hascii)). cbn [bind].
  rewrite (utf8_decode_ascii _ Hascii). cbn [bind].
  now apply json_loads_dumps_state.
Qed.

(** ** The state token (C3) *)

(** C3.  For all strings [user_id] and [org_id] (and every draw of the
    random token), the state that [authorize_hubspot] and
    [authorize_notion] store and append to the authorization URL -- the
    value [encode_state] returns -- decodes through URL-safe base64, UTF-8
    and [json.loads] to a dictionary whose [user_id] and [org_id] entries
    are exactly the strings supplied.  Strings are sequences of Unicode
    scalar values. *)
Theorem state_token_round_trip rt env token user_id org_id store :
  valid_text token -> valid_text user_id -> valid_text org_id ->
  exists encoded_state,
    Notion.encode_state rt token user_id org_id
      = Ok (encoded_state, state_data token user_id org_id)
    /\ (exists prefix,
          Hubspot.authorize_hubspot rt env token user_id org_id store
          = (Ok (prefix ++ lit "&state=" ++ encoded_state),
             <[Hubspot.state_key org_id user_id := encoded_state]> store))
    /\ (exists prefix,
          Notion.authorize_notion rt env token user_id org_id store
          = (Ok (prefix ++ lit "&state=" ++ encoded_state),
             <[Notion.state_key org_id user_id := encoded_state]> store))
    /\ exists d,
         decode_state encoded_state = Ok (VDict d)
         /\ dict_lookup (lit "user_id") d = Some (VStr user_id)
         /\ dict_lookup (lit "org_id") d = Some (VStr org_id).
Proof.
  intros Ht Hu Ho.
  exists (urlsafe_b64encode (json_dumps rt (state_data token user_id org_id))).
  repeat split.
  - unfold Notion.encode_state. rewrite encode_state_value_ok by assumption. reflexivity.
  - unfold Hubspot.authorize_hubspot, mbind, lift, ret, MockRedisClient.add_key_value_redis.
    rewrite encode_state_value_ok by assumption.
    exists (lit "https://app.hubspot.com/oauth/authorize"
            ++ lit "?client_id=" ++ py_str rt (CLIENT_ID env)
            ++ lit "&redirect_uri=" ++ py_str rt (REDIRECT_URI env)
            ++ lit "&scope=" ++ Hubspot.SCOPE).
    rewrite <- !app_assoc. reflexivity.
  - unfold Notion.authorize_notion, Notion.encode_state, mbind, lift, ret,
      MockRedisClient.add_key_value_redis.
    rewrite encode_state_value_ok by assumption. cbn [bind fst].
    exists (lit "https://api.notion.com/v1/oauth/authorize"
            ++ lit "?client_id=" ++ py_str rt (CLIENT_ID env)
            ++ lit "&response_type=code" ++ lit "&owner=user"
            ++ lit "&redirect_uri=" ++ py_str rt (REDIRECT_URI env)).
    rewrite <- !app_assoc. reflexivity.
  - eexists. split; [now apply (decode_encoded_state rt)|]. split; reflexivity.
Qed.

Lemma state_token_round_trip_witness :
  valid_text (lit "q1w2e3") /\ valid_text (lit "user-1") /\ valid_text (lit "org-1")
  /\ exists encoded_state,
       Notion.encode_state utc_runtime (lit "q1w2e3") (lit "user-1") (lit "org-1")
         = Ok (encoded_state, state_data (lit "q1w2e3") (lit "user-1") (lit "org-1"))
       /\ exists d,
            decode_state encoded_state = Ok (VDict d)
            /\ dict_lookup (lit "user_id") d = Some (VStr (lit "user-1"))
            /\ dict_lookup (lit "org_id") d = Some (VStr (lit "org-1")).
Proof.
  assert (H1 : valid_text (lit "q1w2e3")) by (repeat constructor).
  assert (H2 : valid_text (lit "user-1")) by (repeat constructor).
  assert (H3 : valid_text (lit "org-1")) by (repeat constructor).
  repeat split; try assumption.
  destruct (state_token_round_trip utc_runtime
              {| CLIENT_ID := VNone; CLIENT_SECRET := VNone; REDIRECT_URI := VNone |}
              (lit "q1w2e3") (lit "user-1") (lit "org-1") ∅ H1 H2 H3)
    as (e & He & _ & _ & Hd).
  exists e. split; assumption.
Defined.

(** ** The callback handlers and the store (C1, C2, C10) *)

(** C1, at a request whose state was never persisted.  The store is
    empty, so no flow was started for ("acme", "victim"); the HubSpot
    handler nevertheless answers with the success page and writes the token
    record under [hubspot_tokens:acme:victim], while the Notion handler
    rejects the same request with "State does not match" and writes
    nothing. *)
Theorem hubspot_callback_accepts_unpersisted_state :
  Hubspot.oauth2callback_hubspot utc_runtime example_settings accepting_client
    (callback_request (lit "code-1") example_state) ∅
  = (Ok (HTMLResponse_ Hubspot.success_page),
     {[ Hubspot.tokens_key (lit "acme") (lit "victim") := example_token_record ]})
  /\ Notion.oauth2callback_notion utc_runtime example_settings accepting_client
       (callback_request (lit "code-1") example_state) ∅
     = (Raise state_does_not_match, ∅).
Proof. split; vm_compute; reflexivity. Qed.

(** C2, at a complete HubSpot flow.  After [authorize_hubspot] has
    stored the state and the callback has succeeded, the token key is
    present and the state key is still there with the state in it. *)
Theorem hubspot_callback_keeps_state_key :
  let started :=
    snd (Hubspot.authorize_hubspot utc_runtime example_settings
           (lit "n0nce") (lit "victim") (lit "acme") ∅) in
  let finished :=
    Hubspot.oauth2callback_hubspot utc_runtime example_settings accepting_client
      (callback_request (lit "code-1") example_state) started in
  started !! Hubspot.state_key (lit "acme") (lit "victim") = Some example_state
  /\ fst finished = Ok (HTMLResponse_ Hubspot.success_page)
  /\ snd finished !! Hubspot.tokens_key (lit "acme") (lit "victim") = Some example_token_record
  /\ snd finished !! Hubspot.state_key (lit "acme") (lit "victim") = Some example_state.
Proof. repeat split; vm_compute; reflexivity. Qed.

Lemma notion_keys_differ org_id user_id :
  Notion.tokens_key org_id user_id <> Notion.state_key org_id user_id.
Proof.
  unfold Notion.tokens_key, Notion.state_key.
  let a := eval vm_compute in (lit "notion_tokens:") in
  change (lit "notion_tokens:") with a.
  let b := eval vm_compute in (lit "notion_state:") in
  change (lit "notion_state:") with b.
  cbn [app]. intros H. inversion H.
Qed.

(** The Notion handler does what C2 asks: whenever it succeeds, the state
    key it validated is gone and the token key holds the JSON text of the
    token payload. *)
Lemma notion_callback_success rt env client request store response store' :
  Notion.oauth2callback_notion rt env client request store = (Ok response, store') ->
  exists org_id user_id token_info encoded_state,
    query_params request !! lit "state" = Some encoded_state
    /\ store !! Notion.state_key org_id user_id = Some encoded_state
    /\ store' !! Notion.state_key org_id user_id = None
    /\ store' !! Notion.tokens_key org_id user_id = Some (json_dumps rt token_info).
Proof.
  unfold Notion.oauth2callback_notion, mbind, try_except, lift, raise, ret,
    MockRedisClient.add_key_value_redis, MockRedisClient.get_value_redis,
    MockRedisClient.delete_key_redis.
  intros H. run_cases H. injection H as <- <-.
  match goal with
  | Hor : negb (str_truthy (store !! _)) || _ = false |- _ =>
      apply orb_false_iff in Hor as [Hs He]
  end.
  match goal with
  | Hor : _ || negb (str_truthy (query_params request !! lit "state")) = false |- _ =>
      apply orb_false_iff in Hor as [_ Hq]
  end.
  apply negb_false_iff in Hs, He, Hq. apply str_eqb_eq in He.
  destruct (query_params request !! lit "state") as [qs|] eqn:Eq; [|discriminate Hq].
  match goal with
  | Hx : exchange _ _ = Ok ?ti, Hu : py_get _ (lit "user_id") _ = Ok ?u,
    Ho : py_get _ (lit "org_id") _ = Ok ?o |- _ =>
      exists (py_str rt o), (py_str rt u), ti, qs
  end.
  split; [reflexivity|]. split; [|split].
  - destruct (store !! Notion.state_key _ _) as [st|] eqn:Est; [|discriminate Hs].
    simpl in He. congruence.
  - apply lookup_delete_eq.
  - rewrite lookup_delete_ne by (intros E; symmetry in E; now apply notion_keys_differ in E).
    apply lookup_insert_eq.
Qed.

(** The Notion handler also does what C1 asks: a request whose state is
    absent, or is not what any state key holds, is answered with an
    exception and leaves the store as it was. *)
Lemma notion_callback_rejects_unknown_state rt env client request store :
  (forall org_id user_id encoded_state,
      query_params request !! lit "state" = Some encoded_state ->
      store !! Notion.state_key org_id user_id <> Some encoded_state) ->
  exists e, Notion.oauth2callback_notion rt env client request store = (Raise e, store).
Proof.
  intros Hunknown.
  destruct (Notion.oauth2callback_notion rt env client request store) as [[response|e] store']
    eqn:Hrun.
  - destruct (notion_callback_success _ _ _ _ _ _ _ Hrun)
      as (org_id & user_id & _ & encoded_state & Hq & Hs & _).
    now destruct (Hunknown org_id user_id encoded_state Hq).
  - exists e. f_equal.
    revert Hrun.
    unfold Notion.oauth2callback_notion, mbind, try_except, lift, raise, ret,
      MockRedisClient.add_key_value_redis, MockRedisClient.get_value_redis,
      MockRedisClient.delete_key_redis.
    intros H. run_cases H. all: now injection H as _ <-.
Qed.

Lemma hubspot_keys_differ org_id user_id org_id' user_id' :
  Hubspot.tokens_key org_id user_id <> Hubspot.state_key org_id' user_id'.
Proof.
  unfold Hubspot.tokens_key, Hubspot.state_key.
  let a := eval vm_compute in (lit "hubspot_tokens:") in
  change (lit "hubspot_tokens:") with a.
  let b := eval vm_compute in (lit "hubspot_state:") in
  change (lit "hubspot_state:") with b.
  cbn [app]. intros H. inversion H.
Qed.

(** A successful HubSpot callback writes one token key and nothing else:
    every state key is left as it was, whatever state the request
    carried. *)
Lemma hubspot_callback_success rt env client request store response store' :
  Hubspot.oauth2callback_hubspot rt env client request store = (Ok response, store') ->
  (exists org_id user_id token_info,
      store' = <[Hubspot.tokens_key org_id user_id := json_dumps rt token_info]> store)
  /\ forall org_id user_id,
       store' !! Hubspot.state_key org_id user_id = store !! Hubspot.state_key org_id user_id.
Proof.
  unfold Hubspot.oauth2callback_hubspot, mbind, try_except, lift, raise, ret,
    MockRedisClient.add_key_value_redis.
  intros H. run_cases H. injection H as <- <-.
  split; [eauto|]. intros org_id user_id.
  apply lookup_insert_ne, hubspot_keys_differ.
Qed.

(** C10.  Whenever a callback handler raises -- an [error] parameter, a
    missing code or state, an undecodable state, a state mismatch, a failed
    token exchange or any other exception -- the store is exactly what it
    was before the call: no key is written or deleted, so no token key
    appears and a persisted Notion state key is still there. *)
Theorem callback_failure_leaves_store rt env client request store e store' :
  Hubspot.oauth2callback_hubspot rt env client request store = (Raise e, store')
  \/ Notion.oauth2callback_notion rt env client request store = (Raise e, store') ->
  store' = store.
Proof.
  unfold Hubspot.oauth2callback_hubspot, Notion.oauth2callback_notion,
    mbind, try_except, lift, raise, ret,
    MockRedisClient.add_key_value_redis, MockRedisClient.get_value_redis,
    MockRedisClient.delete_key_redis.
  intros [H|H]; run_cases H; injection H as _ <-; reflexivity.
Qed.

Lemma callback_failure_leaves_store_witness :
  Notion.oauth2callback_notion utc_runtime example_settings rejecting_client
      (callback_request (lit "code-1") example_state) example_notion_store
    = (Raise token_exchange_failed, example_notion_store)
  /\ snd (Notion.oauth2callback_notion utc_runtime example_settings rejecting_client
            (callback_request (lit "code-1") example_state) example_notion_store)
     = example_notion_store.
Proof.
  split; [vm_compute; reflexivity|].
  apply (callback_failure_leaves_store utc_runtime example_settings rejecting_client
           (callback_request (lit "code-1") example_state) example_notion_store
           token_exchange_failed).
  right. vm_compute. reflexivity.
Defined.

(** ** Credential retrieval (C9) *)

(** C9.  With nothing stored under the token key, [get_hubspot_credentials]
    raises the HTTP 401 error "No credentials found" and
    [get_notion_credentials] returns [None]; with a token record stored
    there, both return what [json.loads] makes of it.  Neither touches the
    store. *)
Theorem credentials_lookup (user_id org_id : pystr)
    (hubspot_store notion_store : gmap pystr pystr) :
  (hubspot_store !! Hubspot.tokens_key org_id user_id = None ->
   Hubspot.get_hubspot_credentials user_id org_id hubspot_store
   = (Raise (HTTPException 401 (lit "No credentials found")), hubspot_store))
  /\ (notion_store !! Notion.tokens_key org_id user_id = None ->
      Notion.get_notion_credentials user_id org_id notion_store = (Ok VNone, notion_store))
  /\ (forall record token_info,
        record <> [] -> json_loads record = Ok token_info ->
        (hubspot_store !! Hubspot.tokens_key org_id user_id = Some record ->
         Hubspot.get_hubspot_credentials user_id org_id hubspot_store
         = (Ok token_info, hubspot_store))
        /\ (notion_store !! Notion.tokens_key org_id user_id = Some record ->
            Notion.get_notion_credentials user_id org_id notion_store
            = (Ok token_info, notion_store))).
Proof.
  unfold Hubspot.get_hubspot_credentials, Notion.get_notion_credentials,
    mbind, lift, raise, ret, MockRedisClient.get_value_redis.
  repeat split.
  - intros ->. reflexivity.
  - intros ->. reflexivity.
  - intros ->. change (default [] (Some record)) with record.
    replace (str_truthy (Some record)) with true by (destruct record; [congruence | reflexivity]).
    cbn [negb]. congruence.
  - intros ->. change (default [] (Some record)) with record.
    replace (str_truthy (Some record)) with true by (destruct record; [congruence | reflexivity]).
    cbn [negb]. congruence.
Qed.

Lemma credentials_lookup_witness :
  let stored : gmap pystr pystr :=
    {[ Hubspot.tokens_key (lit "acme") (lit "victim") := example_token_record ]} in
  (∅ : gmap pystr pystr) !! Hubspot.tokens_key (lit "acme") (lit "victim") = None
  /\ Hubspot.get_hubspot_credentials (lit "victim") (lit "acme") ∅
     = (Raise (HTTPException 401 (lit "No credentials found")), ∅)
  /\ example_token_record <> []
  /\ json_loads example_token_record = Ok (VDict [(lit "access_token", VStr (lit "tok-1"))])
  /\ Hubspot.get_hubspot_credentials (lit "victim") (lit "acme") stored
     = (Ok (VDict [(lit "access_token", VStr (lit "tok-1"))]), stored).
Proof.
  intros stored.
  assert (H0 : (∅ : gmap pystr pystr) !! Hubspot.tokens_key (lit "acme") (lit "victim") = None)
    by reflexivity.
  assert (H1 : example_token_record <> []) by (vm_compute; discriminate).
  assert (H2 : json_loads example_token_record
               = Ok (VDict [(lit "access_token", VStr (lit "tok-1"))]))
    by (vm_compute; reflexivity).
  assert (H3 : stored !! Hubspot.tokens_key (lit "acme") (lit "victim")
               = Some example_token_record) by (vm_compute; reflexivity).
  destruct (credentials_lookup (lit "victim") (lit "acme") ∅ ∅) as (Hnone & _ & _).
  destruct (credentials_lookup (lit "victim") (lit "acme") stored ∅) as (_ & _ & Hsome).
  destruct (Hsome _ _ H1 H2) as (Hhub & _).
  split; [exact H0|]. split; [exact (Hnone H0)|]. split; [exact H1|].
  split; [exact H2 | exact (Hhub H3)].
Defined.

(** ** Aggregation without an access token (C4) *)



(** ** Name fallback (C8) *)

Lemma find_title_none props :
  forallb not_title props = true -> Notion.find_title props = Ok VNone.
Proof.
  induction props as [|prop rest IH]; intros H; [reflexivity|].
  cbn [forallb] in H. apply andb_true_iff in H as [Hp Hr].
  destruct prop as [| | | | | |pd]; try discriminate Hp.
  cbn [Notion.find_title py_get bind]. cbn [not_title] in Hp.
  apply negb_true_iff in Hp. rewrite Hp. exact (IH Hr).
Qed.

(** The item the HubSpot normaliser builds for a contact without name
    properties, given what the two timestamp blocks return. *)
Lemma contact_without_names (rt : runtime) d props creation_time last_modified_time :
  dict_lookup (lit "properties") d = Some (VDict props)
  \/ (dict_lookup (lit "properties") d = None /\ props = []) ->
  dict_lookup (lit "firstname") props = None ->
  dict_lookup (lit "lastname") props = None ->
  dict_lookup (lit "email") props = None ->
  Hubspot.parse_timestamp rt (VDict props) (lit "createdate") = Ok creation_time ->
  Hubspot.parse_timestamp rt (VDict props) (lit "hs_lastmodifieddate")
    = Ok last_modified_time ->
  Hubspot.create_integration_item_metadata_object rt (VDict d) (lit "contact")
  = Ok {| IntegrationItem.id :=
            py_str rt (match dict_lookup (lit "id") d with Some i => i | None => VNone end);
          IntegrationItem.type := VStr (lit "contact");
          IntegrationItem.name := VStr (lit "Unknown Contact");
          IntegrationItem.creation_time := creation_time;
          IntegrationItem.last_modified_time := last_modified_time;
          IntegrationItem.url :=
            Some (lit "https://app.hubspot.com/contacts/"
                  ++ py_str rt (match dict_lookup (lit "id") d with
                                | Some i => i | None => VNone end));
          IntegrationItem.visibility := true |}.
Proof.
  intros Hprops Hf Hl He Hct Hlm.
  unfold Hubspot.create_integration_item_metadata_object.
  cbn [py_get bind].
  assert (Hp : match dict_lookup (lit "properties") d with
               | Some x => x | None => VDict [] end = VDict props).
  { destruct Hprops as [->|[-> ->]]; reflexivity. }
  rewrite Hp. change (str_eqb (lit "contact") (lit "contact")) with true.
  cbn [py_get bind]. rewrite Hf, Hl, He.
  change (strip (py_str rt (VStr []) ++ lit " " ++ py_str rt (VStr []))) with (@nil N).
  cbv beta iota. rewrite Hct. cbn [bind]. rewrite Hlm. reflexivity.
Qed.



(** ** The normalisers do raise, and when they do not (C7) *)


(** The timestamp blocks of the HubSpot normaliser catch ValueError and
    TypeError only: a [createdate] of 401 digits overflows the division and
    the OverflowError leaves the normaliser. *)
Lemma hubspot_timestamp_overflow_propagates :
  Hubspot.create_integration_item_metadata_object utc_runtime
    (VDict [(lit "id", VStr (lit "101"));
            (lit "properties", VDict [(lit "createdate", VStr (49%N :: repeat 48%N 400))])])
    (lit "contact")
  = Raise OverflowError.
Proof. vm_compute. reflexivity. Qed.

Lemma parse_timestamp_total rt props key :
  (forall v, dict_lookup key props = Some v -> in_platform_range rt v) ->
  exists o,
    Hubspot.parse_timestamp rt (VDict props) key = Ok o
    /\ (forall v e, dict_lookup key props = Some v ->
                    Hubspot.epoch_millis_to_datetime rt v = Raise e -> o = None).
Proof.
  intros Hrange. unfold Hubspot.parse_timestamp. cbn [py_get py_getitem bind].
  destruct (dict_lookup key props) as [v|] eqn:Ev.
  - cbn [of_option bind].
    destruct (py_truthy v).
    + destruct (Hubspot.epoch_millis_to_datetime rt v) as [dt|e] eqn:Ec.
      * eexists. split; [reflexivity|]. intros v' e' Hv' He'.
        injection Hv' as <-. congruence.
      * rewrite (Hrange v eq_refl e Ec). eexists. split; [reflexivity|]. reflexivity.
    + eexists. split; [reflexivity|]. reflexivity.
  - eexists. split; [reflexivity|]. reflexivity.
Qed.

Lemma find_title_total props :
  forallb inspectable props = true -> exists v, Notion.find_title props = Ok v.
Proof.
  induction props as [|prop rest IH]; intros H; [eexists; reflexivity|].
  cbn [forallb] in H. apply andb_true_iff in H as [Hp Hr].
  destruct prop as [| | | | | |pd]; try discriminate Hp.
  cbn [Notion.find_title py_get bind]. cbn [inspectable] in Hp.
  destruct (value_eq_str _ (lit "title")); [|exact (IH Hr)].
  destruct (dict_lookup (lit "title") pd) as [[| | | | |[|first l]|]|];
    try exact (IH Hr).
  destruct first; try discriminate Hp. eexists. reflexivity.
Qed.



(** ** Partial failure in the HubSpot aggregator (C5) *)

Lemma append_each_acc f acc xs :
  fst (append_each f acc xs) = acc ++ fst (append_each f [] xs).
Proof.
  revert acc. induction xs as [|x xs IH]; intros acc; cbn [append_each].
  - cbn [fst]. now rewrite app_nil_r.
  - destruct (f x) as [item|e]; cbn [fst].
    + rewrite (IH (acc ++ [item])), (IH ([] ++ [item])). cbn [app].
      now rewrite <- app_assoc.
    + now rewrite app_nil_r.
Qed.

Lemma append_each_all f xs items :
  Forall2 (fun x item => f x = Ok item) xs items ->
  append_each f [] xs = (items, None).
Proof.
  intros H. enough (G : forall acc, append_each f acc xs = (acc ++ items, None)) by apply (G []).
  induction H as [|x item xs items Hx _ IH]; intros acc; cbn [append_each].
  - now rewrite app_nil_r.
  - rewrite Hx, IH, <- app_assoc. reflexivity.
Qed.

(** What one fetch block contributes does not depend on what the earlier
    blocks found. *)
Lemma fetch_block_acc rt client access_token url limit item_type acc :
  Hubspot.fetch_block rt client access_token url limit item_type acc
  = acc ++ Hubspot.fetch_block rt client access_token url limit item_type [].
Proof.
  unfold Hubspot.fetch_block.
  destruct (client _) as [|status json]; [now rewrite app_nil_r|].
  destruct (status =? 200)%Z; [|now rewrite app_nil_r].
  destruct (data <- json ;; results <- py_get data (lit "results") (VList []) ;; py_iter results)
    as [results|e]; [|now rewrite app_nil_r].
  apply append_each_acc.
Qed.




(** ** Known timestamps (C6) *)

Lemma gmtime_day D y m d x :
  (x / 86400 = D)%Z -> civil_from_days D = (y, m, d) -> days_from_civil y m d = D ->
  ((y <? MINYEAR) || (MAXYEAR <? y))%Z = false ->
  tm_year (gmtime x) = y /\ utc_to_seconds (gmtime x) = Ok x.
Proof.
  intros HD Hc Hd Hy. unfold gmtime. rewrite HD, Hc.
  split; [reflexivity|].
  unfold utc_to_seconds. cbn [tm_year tm_mon tm_mday tm_hour tm_min tm_sec].
  rewrite Hy, Hd. f_equal. subst D.
  Z.div_mod_to_equations. lia.
Qed.

(** The five days around 2023-11-14. *)
Lemma gmtime_window x :
  (19672 * 86400 <= x < 19677 * 86400)%Z ->
  tm_year (gmtime x) = 2023%Z /\ utc_to_seconds (gmtime x) = Ok x.
Proof.
  intros Hx.
  assert (HD : (x / 86400 = 19672 \/ x / 86400 = 19673 \/ x / 86400 = 19674
                \/ x / 86400 = 19675 \/ x / 86400 = 19676)%Z)
    by (Z.div_mod_to_equations; lia).
  destruct HD as [HD|[HD|[HD|[HD|HD]]]].
  - exact (gmtime_day _ 2023 11 11 x HD eq_refl eq_refl eq_refl).
  - exact (gmtime_day _ 2023 11 12 x HD eq_refl eq_refl eq_refl).
  - exact (gmtime_day _ 2023 11 13 x HD eq_refl eq_refl eq_refl).
  - exact (gmtime_day _ 2023 11 14 x HD eq_refl eq_refl eq_refl).
  - exact (gmtime_day _ 2023 11 15 x HD eq_refl eq_refl eq_refl).
Qed.

Lemma local_window rt u :
  sane_zone rt -> (19673 * 86400 <= u < 19676 * 86400)%Z ->
  localtime rt u = Ok (gmtime (u + local_utcoffset rt u))
  /\ local rt u = Ok (u + local_utcoffset rt u)%Z.
Proof.
  intros Hz Hu. pose proof (Hz u) as Ho.
  destruct (gmtime_window (u + local_utcoffset rt u)) as [Hy Hs]; [lia|].
  assert (Hl : localtime rt u = Ok (gmtime (u + local_utcoffset rt u))).
  { unfold localtime. rewrite Hy. reflexivity. }
  split; [exact Hl|]. unfold local. rewrite Hl. exact Hs.
Qed.

(** [datetime.fromtimestamp(1700000000.0)]: the local wall clock of that
    second. *)
Lemma fromtimestamp_known rt :
  sane_zone rt ->
  exists fold_,
    fromtimestamp rt (S754_finite false 7130316800000000 (-22))
    = Ok (naive_local (gmtime (1700000000 + local_utcoffset rt 1700000000)) 0 fold_).
Proof.
  intros Hz. unfold fromtimestamp.
  change (double_to_timeval (S754_finite false 7130316800000000 (-22)))
    with (@Ok (Z * Z) (1700000000, 0)%Z).
  cbn [bind].
  pose proof (Hz 1700000000%Z) as Ho.
  pose proof (Hz (1700000000 - max_fold_seconds)%Z) as Ho1.
  destruct (local_window rt 1700000000 Hz) as [Hl Hs]; [lia|].
  destruct (local_window rt (1700000000 - max_fold_seconds) Hz) as [_ Hp];
    [unfold max_fold_seconds; lia|].
  rewrite Hl. cbn [bind].
  unfold local in Hs. rewrite Hl in Hs. cbn [bind] in Hs. rewrite Hs. cbn [bind].
  rewrite Hp. cbn [bind].
  destruct (_ <? 0)%Z eqn:Et.
  - apply Z.ltb_lt in Et.
    destruct (local_window rt (1700000000
                               + (1700000000 + local_utcoffset rt 1700000000
                                  - (1700000000 - max_fold_seconds
                                     + local_utcoffset rt (1700000000 - max_fold_seconds))
                                  - max_fold_seconds)) Hz) as [_ Hq];
      [unfold max_fold_seconds in *; lia|].
    rewrite Hq. cbn [bind]. eexists. reflexivity.
  - cbn [bind]. eexists. reflexivity.
Qed.



(** ** json.loads inverts json.dumps *)

Lemma value_nested_ind (P : value -> Prop) :
  P VNone -> (forall b, P (VBool b)) -> (forall z, P (VInt z)) -> (forall f, P (VFloat f)) ->
  (forall s, P (VStr s)) ->
  (forall l, Forall P l -> P (VList l)) ->
  (forall d, Forall (fun kv => P (snd kv)) d -> P (VDict d)) ->
  forall v, P v.
Proof.
  intros HN HB HI HF HS HL HD.
  fix IH 1. intros [| b | z | f | s | l | d].
  - exact HN.
  - apply HB.
  - apply HI.
  - apply HF.
  - apply HS.
  - apply HL. induction l as [|x l IHl]; constructor; [apply IH | exact IHl].
  - apply HD. induction d as [|[k x] d IHd]; constructor; [apply IH | exact IHd].
Qed.

Lemma valid_text_forallb s : forallb is_scalar s = true -> valid_text s.
Proof.
  induction s as [|c s IH]; cbn [forallb]; intros H; [constructor|].
  apply andb_true_iff in H as [H1 H2]. constructor; [exact H1 | exact (IH H2)].
Qed.

(** *** Integers *)

Lemma uint_chars_digits d : forallb is_digit (uint_chars d) = true.
Proof. induction d; cbn [uint_chars forallb]; rewrite ?IHd; reflexivity. Qed.

Lemma horner_uint d a :
  horner (Z.of_N (Unsigned.of_lu a)) (uint_chars d)
  = Z.of_N (Unsigned.of_lu (Decimal.revapp d a)).
Proof.
  revert a. induction d; intros a; cbn [uint_chars Decimal.revapp]; [reflexivity|..];
    unfold horner in *; cbn [fold_left];
    rewrite <- IHd; f_equal; cbn [Unsigned.of_lu]; lia.
Qed.

Lemma digits_value_uint d : digits_value (uint_chars d) = Z.of_N (N.of_uint d).
Proof.
  unfold N.of_uint. rewrite Unsigned.of_uint_alt. unfold Decimal.rev.
  apply (horner_uint d Decimal.Nil).
Qed.

Lemma digits_value_N n : digits_value (uint_chars (N.to_uint n)) = Z.of_N n.
Proof. rewrite digits_value_uint, DecimalN.Unsigned.of_to. reflexivity. Qed.

Lemma nzhead_not_D0 d d' : Decimal.nzhead d <> Decimal.D0 d'.
Proof. induction d; cbn [Decimal.nzhead]; try discriminate. exact IHd. Qed.

Lemma to_uint_unorm p : Decimal.unorm (Pos.to_uint p) = Pos.to_uint p.
Proof.
  rewrite <- DecimalPos.Unsigned.to_of, DecimalPos.Unsigned.of_to. reflexivity.
Qed.

Lemma to_uint_head p :
  exists c r, uint_chars (Pos.to_uint p) = c :: r /\ (49 <= c <= 57)%N.
Proof.
  pose proof (to_uint_unorm p) as Hu.
  pose proof (DecimalPos.Unsigned.to_uint_nonzero p) as Hz.
  pose proof (DecimalPos.Unsigned.to_uint_nonnil p) as Hn.
  destruct (Pos.to_uint p) as [|d|d|d|d|d|d|d|d|d|d] eqn:E;
    [congruence | | cbn [uint_chars]; eexists _, _; split; [reflexivity | lia] ..].
  exfalso. unfold Decimal.unorm in Hu. cbn [Decimal.nzhead] in Hu.
  destruct (Decimal.nzhead d) eqn:En; try discriminate Hu.
  - congruence.
  - now apply nzhead_not_D0 in En.
Qed.

Lemma digit_cases c :
  is_digit c = true ->
  (c = 48 \/ c = 49 \/ c = 50 \/ c = 51 \/ c = 52 \/ c = 53 \/ c = 54 \/ c = 55
   \/ c = 56 \/ c = 57)%N.
Proof. unfold is_digit. intros H. nbool. lia. Qed.

Lemma closes_cases rest :
  closes rest ->
  rest = [] \/ exists t, rest = 44%N :: t \/ rest = 93%N :: t \/ rest = 125%N :: t.
Proof.
  intros [->|(c & t & -> & [->| [->| ->]])]; [now left|right; exists t; auto..].
Qed.

Lemma span_digits_app ds rest :
  forallb is_digit ds = true -> closes rest ->
  span_digits (ds ++ rest) = (ds, rest).
Proof.
  intros Hd Hc. induction ds as [|c ds IH].
  - cbn [app]. apply closes_cases in Hc as [->|(t & [->| [->| ->]])]; reflexivity.
  - cbn [forallb] in Hd. apply andb_true_iff in Hd as [H1 H2].
    cbn [app span_digits]. rewrite H1, (IH H2). reflexivity.
Qed.

Lemma number_frac_closes rest : closes rest -> number_frac rest = (None, rest).
Proof.
  intros Hc. apply closes_cases in Hc as [->|(t & [->| [->| ->]])]; reflexivity.
Qed.

Lemma number_exp_closes rest : closes rest -> number_exp rest = (None, rest).
Proof.
  intros Hc. apply closes_cases in Hc as [->|(t & [->| [->| ->]])];
    [reflexivity | destruct t; reflexivity ..].
Qed.

Lemma number_sign_digit c r : is_digit c = true -> number_sign (c :: r) = (false, c :: r).
Proof.
  intros H. apply digit_cases in H.
  repeat (destruct H as [-> | H]; [reflexivity|]). subst. reflexivity.
Qed.

Lemma match_constant_digit c r : is_digit c = true -> match_constant (c :: r) = None.
Proof.
  intros H. apply digit_cases in H.
  repeat (destruct H as [-> | H]; [reflexivity|]). subst. reflexivity.
Qed.

Lemma match_constant_minus c r : is_digit c = true -> match_constant (45%N :: c :: r) = None.
Proof.
  intros H. apply digit_cases in H.
  repeat (destruct H as [-> | H]; [reflexivity|]). subst. reflexivity.
Qed.

Lemma match_number_nat n rest :
  closes rest ->
  match_number (uint_chars (N.to_uint n) ++ rest) = Some (VInt (Z.of_N n), rest).
Proof.
  intros Hc. pose proof (digits_value_N n) as Hv.
  destruct n as [|p].
  - cbn [N.to_uint uint_chars app]. unfold match_number.
    change (number_sign (48%N :: rest)) with (false, 48%N :: rest).
    cbn [number_int N.leb N.compare Pos.compare Pos.compare_cont andb N.eqb Pos.eqb].
    rewrite (number_frac_closes _ Hc), (number_exp_closes _ Hc). reflexivity.
  - cbn [N.to_uint] in *.
    destruct (to_uint_head p) as (c & r & E & Hr).
    pose proof (uint_chars_digits (Pos.to_uint p)) as Hd.
    rewrite E in *. cbn [forallb] in Hd. apply andb_true_iff in Hd as [Hd1 Hd2].
    cbn [app]. unfold match_number. rewrite (number_sign_digit _ _ Hd1).
    unfold number_int.
    replace ((49 <=? c) && (c <=? 57))%N with true
      by (symmetry; apply andb_true_iff; split; apply N.leb_le; lia).
    rewrite (span_digits_app _ _ Hd2 Hc). cbn [cons_fst fst snd].
    rewrite (number_frac_closes _ Hc), (number_exp_closes _ Hc).
    rewrite Hv. reflexivity.
Qed.

Lemma match_number_int z rest :
  closes rest -> match_number (int_repr z ++ rest) = Some (VInt z, rest).
Proof.
  intros Hc. destruct z as [|p|p].
  - apply (match_number_nat 0 rest Hc).
  - apply (match_number_nat (Npos p) rest Hc).
  - unfold int_repr. pose proof (match_number_nat (Npos p) rest Hc) as H.
    pose proof (digits_value_N (Npos p)) as Hv.
    cbn [N.to_uint] in *.
    destruct (to_uint_head p) as (c & r & E & Hr).
    pose proof (uint_chars_digits (Pos.to_uint p)) as Hd.
    rewrite E in *. cbn [forallb] in Hd. apply andb_true_iff in Hd as [Hd1 Hd2].
    cbn [app] in *. unfold match_number in *.
    change (number_sign (45%N :: c :: r ++ rest)) with (true, c :: r ++ rest).
    rewrite (number_sign_digit _ _ Hd1) in H. cbv beta iota zeta in H |- *.
    destruct (number_int (c :: r ++ rest)) as [[ds s2]|]; [|discriminate].
    destruct (number_frac s2) as [frac s3]. destruct (number_exp s3) as [expo s4].
    destruct frac, expo; try discriminate.
    injection H as H1 H2. subst s4. f_equal. f_equal. f_equal. lia.
Qed.

Lemma int_repr_head z :
  exists c r, int_repr z = c :: r
              /\ ((is_digit c = true)
                  \/ (c = 45%N /\ exists c' r', r = c' :: r' /\ is_digit c' = true)).
Proof.
  assert (Hpos : forall p, exists c r, uint_chars (Pos.to_uint p) = c :: r /\ is_digit c = true).
  { intros p. destruct (to_uint_head p) as (c & r & E & Hr). exists c, r. split; [exact E|].
    unfold is_digit. apply andb_true_iff. split; apply N.leb_le; lia. }
  destruct z as [|p|p]; cbn [int_repr Z.to_N N.to_uint].
  - exists 48%N, []. split; [reflexivity | now left].
  - destruct (Hpos p) as (c & r & E & Hd). exists c, r. split; [exact E | now left].
  - destruct (Hpos p) as (c & r & E & Hd). exists 45%N, (uint_chars (Pos.to_uint p)).
    split; [reflexivity|]. right. split; [reflexivity|]. eauto.
Qed.

Lemma scan_once_int f z rest :
  closes rest -> scan_once (S f) (int_repr z ++ rest) = Some (VInt z, rest).
Proof.
  intros Hc. pose proof (match_number_int z rest Hc) as Hm.
  destruct (int_repr_head z) as (c & r & E & [Hd | (-> & c' & r' & -> & Hd)]);
    rewrite E in *; cbn [app] in *; cbn [scan_once].
  - apply digit_cases in Hd as Hcs.
    assert (Hne : (c =? 34)%N = false /\ (c =? 123)%N = false /\ (c =? 91)%N = false).
    { repeat split; apply N.eqb_neq; lia. }
    destruct Hne as (-> & -> & ->).
    rewrite (match_constant_digit _ _ Hd). exact Hm.
  - cbn [N.eqb Pos.eqb]. rewrite (match_constant_minus _ _ Hd). exact Hm.
Qed.

Lemma value_start_cases c :
  value_start c = true ->
  (c = 34 \/ c = 123 \/ c = 91 \/ c = 110 \/ c = 116 \/ c = 102 \/ c = 45
   \/ c = 48 \/ c = 49 \/ c = 50 \/ c = 51 \/ c = 52 \/ c = 53 \/ c = 54 \/ c = 55
   \/ c = 56 \/ c = 57)%N.
Proof. unfold value_start, is_digit. intros H. nbool; lia. Qed.

Lemma skip_ws_start c t : value_start c = true -> skip_ws (c :: t) = c :: t.
Proof. intros H. apply value_start_cases in H.
  repeat (destruct H as [-> | H]; [reflexivity|]); subst; reflexivity. Qed.

Lemma expect_start_93 c t : value_start c = true -> expect 93 (c :: t) = None.
Proof. intros H. apply value_start_cases in H.
  repeat (destruct H as [-> | H]; [reflexivity|]); subst; reflexivity. Qed.

Lemma json_loads_start c t :
  value_start c = true ->
  json_loads (c :: t)
  = match scan_once (S (length (c :: t))) (c :: t) with
    | Some (v, rest) =>
        match skip_ws rest with
        | [] => Ok v
        | _ => Raise JSONDecodeError
        end
    | None => Raise JSONDecodeError
    end.
Proof. intros H. apply value_start_cases in H.
  repeat (destruct H as [-> | H]; [reflexivity|]); subst; reflexivity. Qed.

Lemma json_dumps_start rt v :
  json_safe v = true -> exists c t, json_dumps rt v = c :: t /\ value_start c = true.
Proof.
  destruct v as [| [|] | z | f | s | l | d]; cbn [json_safe json_dumps]; intros H;
    try discriminate H; try (eexists _, _; split; reflexivity).
  destruct (int_repr_head z) as (c & r & E & [Hd | (Hc & _)]); exists c, r;
    (split; [exact E|]).
  - unfold value_start. rewrite Hd. now rewrite !orb_true_r.
  - subst c. reflexivity.
Qed.

(** *** Arrays and objects *)

Lemma parse_array_eq f acc s :
  parse_array (S f) acc s
  = match scan_once f s with
    | None => None
    | Some (val, s1) =>
        match expect 93 (skip_ws s1) with
        | Some s2 => Some (VList (acc ++ [val]), s2)
        | None =>
            match expect 44 (skip_ws s1) with
            | Some s2 => parse_array f (acc ++ [val]) (skip_ws s2)
            | None => None
            end
        end
    end.
Proof. reflexivity. Qed.

Lemma parse_object_eq f acc s :
  parse_object (S f) acc s
  = match expect 34 s with
    | None => None
    | Some r =>
        match scanstring r with
        | None => None
        | Some (key, s1) =>
            match expect 58 (skip_ws s1) with
            | None => None
            | Some s2 =>
                match scan_once f (skip_ws s2) with
                | None => None
                | Some (val, s3) =>
                    match expect 125 (skip_ws s3) with
                    | Some s4 => Some (VDict (dict_set key val acc), s4)
                    | None =>
                        match expect 44 (skip_ws s3) with
                        | Some s4 => parse_object f (dict_set key val acc) (skip_ws s4)
                        | None => None
                        end
                    end
                end
            end
        end
    end.
Proof. reflexivity. Qed.

Lemma join_cons sep p q r : join sep (p :: q :: r) = p ++ sep ++ join sep (q :: r).
Proof. reflexivity. Qed.

Lemma parse_array_elems rt l :
  Forall (fun v => json_safe v = true /\ scans rt v) l -> l <> [] ->
  forall acc rest,
  exists f0, forall f, f0 <= f ->
    parse_array f acc (join (lit ", ") (map (json_dumps rt) l) ++ 93%N :: rest)
    = Some (VList (acc ++ l), rest).
Proof.
  induction 1 as [|v l [Hsafe Hv] Hl IH]; [congruence|]. intros _ acc rest.
  destruct l as [|w l'].
  - destruct (Hv (93%N :: rest)) as [f1 H1].
    { right. exists 93%N, rest. auto. }
    exists (S f1). intros [|g] Hg; [lia|]. cbn [map join].
    rewrite parse_array_eq, H1 by lia. reflexivity.
  - destruct (IH ltac:(discriminate) (acc ++ [v]) rest) as [f2 H2].
    set (tail := join (lit ", ") (map (json_dumps rt) (w :: l')) ++ 93%N :: rest) in *.
    destruct (Hv (44%N :: 32%N :: tail)) as [f1 H1].
    { right. exists 44%N, (32%N :: tail). auto. }
    exists (S (Nat.max f1 f2)). intros [|g] Hg; [lia|].
    cbn [map]. rewrite join_cons, <- !app_assoc.
    change (lit ", " ++ ?x) with (44%N :: 32%N :: x). fold tail.
    rewrite parse_array_eq, H1 by lia.
    change (skip_ws (44%N :: 32%N :: tail)) with (44%N :: 32%N :: tail).
    cbn [expect N.eqb Pos.eqb].
    change (skip_ws (32%N :: tail)) with (skip_ws tail).
    assert (Hs : skip_ws tail = tail).
    { subst tail. cbn [map]. inversion Hl as [|? ? [Hw _] _]; subst.
      destruct (json_dumps_start rt w Hw) as (c & t & E & Hc).
      destruct l'; cbn [join map]; rewrite ?E; cbn [app]; now apply skip_ws_start. }
    rewrite Hs, H2 by lia. now rewrite <- app_assoc.
Qed.

Lemma dict_set_fresh k v acc : dict_lookup k acc = None -> dict_set k v acc = acc ++ [(k, v)].
Proof.
  induction acc as [|[k' v'] acc IH]; cbn [dict_lookup dict_set app]; [reflexivity|].
  destruct (str_eqb k' k); [discriminate|]. intros H. now rewrite IH.
Qed.

Lemma dict_lookup_app_none k acc k' v :
  dict_lookup k acc = None -> k' <> k -> dict_lookup k (acc ++ [(k', v)]) = None.
Proof.
  induction acc as [|[k0 v0] acc IH]; cbn [dict_lookup app].
  - intros _ Hne. destruct (str_eqb k' k) eqn:E; [|reflexivity].
    apply str_eqb_eq in E. congruence.
  - destruct (str_eqb k0 k); [discriminate|]. exact IH.
Qed.

Lemma dict_lookup_none_in k d :
  dict_lookup k d = None -> forall kv, In kv d -> fst kv <> k.
Proof.
  induction d as [|[k0 v0] d IH]; cbn [dict_lookup]; [intros _ kv []|].
  destruct (str_eqb k0 k) eqn:E; [discriminate|]. intros H kv [<-|Hin].
  - cbn [fst]. intros ->. now rewrite str_eqb_refl in E.
  - now apply IH.
Qed.

Lemma parse_object_members rt d :
  Forall (fun kv => forallb is_scalar (fst kv) = true
                    /\ json_safe (snd kv) = true /\ scans rt (snd kv)) d ->
  d <> [] -> distinct_keys d = true ->
  forall acc rest,
  (forall kv, In kv d -> dict_lookup (fst kv) acc = None) ->
  exists f0, forall f, f0 <= f ->
    parse_object f acc (join (lit ", ") (map (member rt) d) ++ 125%N :: rest)
    = Some (VDict (acc ++ d), rest).
Proof.
  induction 1 as [|[k v] d (Hk & Hsafe & Hv) Hd IH]; [congruence|].
  intros _ Hdist acc rest Hacc. cbn [fst snd] in *.
  cbn [distinct_keys fst] in Hdist. apply andb_true_iff in Hdist as [Hfresh Hdist].
  destruct (dict_lookup k d) eqn:Hkd; [discriminate|]. clear Hfresh.
  apply valid_text_forallb in Hk.
  assert (Hset : dict_set k v acc = acc ++ [(k, v)]).
  { apply dict_set_fresh. apply (Hacc (k, v)). now left. }
  destruct (json_dumps_start rt v Hsafe) as (c & t & E & Hc).
  destruct d as [|kv' d'].
  - destruct (Hv (125%N :: rest)) as [f1 H1].
    { right. exists 125%N, rest. auto. }
    exists (S f1). intros [|g] Hg; [lia|]. cbn [map join]. unfold member. cbn [fst snd].
    rewrite parse_object_eq. unfold encode_basestring_ascii at 1.
    cbn [app expect N.eqb Pos.eqb]. rewrite <- !app_assoc. cbn [app].
    rewrite (scanstring_escape k _ Hk).
    change (lit ": " ++ ?x) with (58%N :: 32%N :: x).
    change (skip_ws (58%N :: ?x)) with (58%N :: x). cbn [expect N.eqb Pos.eqb].
    change (skip_ws (32%N :: ?x)) with (skip_ws x).
    assert (Hs : forall x, skip_ws (json_dumps rt v ++ x) = json_dumps rt v ++ x).
    { intros x. rewrite E. cbn [app]. now apply skip_ws_start. }
    rewrite Hs, H1 by lia. rewrite Hset. reflexivity.
  - destruct (IH ltac:(discriminate) Hdist (acc ++ [(k, v)]) rest) as [f2 H2].
    { intros kv Hin. apply dict_lookup_app_none; [apply Hacc; now right|].
      intros ->. now apply (dict_lookup_none_in _ _ Hkd kv Hin). }
    set (tail := join (lit ", ") (map (member rt) (kv' :: d')) ++ 125%N :: rest) in *.
    destruct (Hv (44%N :: 32%N :: tail)) as [f1 H1].
    { right. exists 44%N, (32%N :: tail). auto. }
    exists (S (Nat.max f1 f2)). intros [|g] Hg; [lia|].
    cbn [map]. rewrite join_cons, <- !app_assoc.
    change (lit ", " ++ ?x) with (44%N :: 32%N :: x). fold tail.
    unfold member at 1. cbn [fst snd].
    rewrite parse_object_eq. unfold encode_basestring_ascii at 1.
    cbn [app expect N.eqb Pos.eqb]. rewrite <- !app_assoc. cbn [app].
    rewrite (scanstring_escape k _ Hk).
    change (lit ": " ++ ?x) with (58%N :: 32%N :: x).
    change (skip_ws (58%N :: ?x)) with (58%N :: x). cbn [expect N.eqb Pos.eqb].
    change (skip_ws (32%N :: ?x)) with (skip_ws x).
    assert (Hs : forall x, skip_ws (json_dumps rt v ++ x) = json_dumps rt v ++ x).
    { intros x. rewrite E. cbn [app]. now apply skip_ws_start. }
    rewrite Hs, H1 by lia.
    change (skip_ws (44%N :: 32%N :: tail)) with (44%N :: 32%N :: tail).
    cbn [expect N.eqb Pos.eqb].
    change (skip_ws (32%N :: tail)) with (skip_ws tail).
    assert (Ht : skip_ws tail = tail).
    { subst tail. cbn [map]. unfold member at 1, encode_basestring_ascii at 1.
      destruct d'; cbn [join map app]; reflexivity. }
    rewrite Ht, Hset, H2 by lia. now rewrite <- app_assoc.
Qed.

Lemma scan_dumps rt v : json_safe v = true -> scans rt v.
Proof.
  induction v as [| b | z | f | s | l IH | d IH] using value_nested_ind;
    cbn [json_safe]; intros Hsafe rest Hrest; try discriminate Hsafe.
  - exists 1. intros [|g] Hg; [lia|]. reflexivity.
  - exists 1. intros [|g] Hg; [lia|]. destruct b; reflexivity.
  - exists 1. intros [|g] Hg; [lia|]. now apply scan_once_int.
  - exists 1. intros [|g] Hg; [lia|]. cbn [json_dumps].
    now apply scan_once_string, valid_text_forallb.
  - destruct l as [|v l'].
    { exists 1. intros [|g] Hg; [lia|]. reflexivity. }
    assert (Hall : Forall (fun v => json_safe v = true /\ scans rt v) (v :: l')).
    { apply List.Forall_forall. intros x Hx. rewrite forallb_forall in Hsafe.
      rewrite List.Forall_forall in IH. split; [now apply Hsafe|]. apply IH; [exact Hx | now apply Hsafe]. }
    destruct (parse_array_elems rt (v :: l') Hall ltac:(discriminate) [] rest) as [f0 H0].
    exists (S f0). intros [|g] Hg; [lia|].
    cbn [json_dumps]. change (lit "[") with [91%N]. change (lit "]") with [93%N].
    rewrite <- !app_assoc. cbn [app]. cbn [scan_once N.eqb Pos.eqb].
    inversion Hall as [|? ? [Hv _] _]; subst.
    destruct (json_dumps_start rt v Hv) as (c & t & E & Hc).
    assert (Hhead : exists t', join (lit ", ") (map (json_dumps rt) (v :: l')) ++ 93%N :: rest
                               = c :: t').
    { destruct l'; cbn [map join]; rewrite E; cbn [app]; eauto. }
    destruct Hhead as [t' Et']. rewrite Et' in *.
    rewrite (skip_ws_start _ _ Hc), (expect_start_93 _ _ Hc). now apply H0; lia.
  - destruct d as [|kv d'].
    { exists 1. intros [|g] Hg; [lia|]. reflexivity. }
    apply andb_true_iff in Hsafe as [Hmem Hdist].
    assert (Hall : Forall (fun kv => forallb is_scalar (fst kv) = true
                                     /\ json_safe (snd kv) = true /\ scans rt (snd kv))
                     (kv :: d')).
    { apply List.Forall_forall. intros x Hx. rewrite forallb_forall in Hmem.
      rewrite List.Forall_forall in IH. specialize (Hmem x Hx).
      apply andb_true_iff in Hmem as [H1 H2]. repeat split; auto. }
    destruct (parse_object_members rt (kv :: d') Hall ltac:(discriminate) Hdist [] rest)
      as [f0 H0]; [reflexivity|].
    exists (S f0). intros [|g] Hg; [lia|].
    cbn [json_dumps]. change (lit "{") with [123%N]. change (lit "}") with [125%N].
    rewrite <- !app_assoc. cbn [app]. cbn [scan_once N.eqb Pos.eqb].
    fold (member rt).
    assert (Hhead : exists t', join (lit ", ") (map (member rt) (kv :: d')) ++ 125%N :: rest
                               = 34%N :: t').
    { destruct d'; cbn [map join]; unfold member at 1, encode_basestring_ascii at 1;
        cbn [app]; eauto. }
    destruct Hhead as [t' Et']. rewrite Et' in *.
    change (skip_ws (34%N :: t')) with (34%N :: t'). cbn [expect N.eqb Pos.eqb].
    now apply H0; lia.
Qed.

(** [json.loads(json.dumps(v))] is [v] for every value made of null,
    booleans, integers, strings of scalar values, lists and dictionaries
    with distinct keys. *)
Lemma json_loads_dumps rt v : json_safe v = true -> json_loads (json_dumps rt v) = Ok v.
Proof.
  intros Hsafe. destruct (scan_dumps rt v Hsafe [] (or_introl eq_refl)) as [f0 H0].
  rewrite app_nil_r in H0.
  destruct (json_dumps_start rt v Hsafe) as (c & t & E & Hc).
  rewrite E in *. rewrite (json_loads_start _ _ Hc).
  pose proof (H0 f0 (le_n _)) as H.
  pose proof (scan_once_fuel f0 (c :: t) v []) as Hf.
  rewrite (skip_ws_start _ _ Hc) in Hf. rewrite (Hf H). reflexivity.
Qed.

(** ** The in-memory store *)

(** X12.  A value written under a key is what the next read of that key gives,
    whatever expiry was asked for; a deleted key reads as [None]; reads of
    other keys are not affected by either; deleting an absent key changes
    nothing. *)
Theorem store_read_your_writes (store : gmap pystr pystr) (key value : pystr)
    (expire : option Z) :
  (_ <~ MockRedisClient.add_key_value_redis key value expire ;;
   MockRedisClient.get_value_redis key) store
  = (Ok (Some value), <[key := value]> store)
  /\ (_ <~ MockRedisClient.delete_key_redis key ;;
      MockRedisClient.get_value_redis key) store
     = (Ok None, delete key store)
  /\ (_ <~ MockRedisClient.add_key_value_redis key value expire ;;
      _ <~ MockRedisClient.delete_key_redis key ;;
      MockRedisClient.get_value_redis key) store
     = (Ok None, delete key store)
  /\ (forall other, other <> key ->
        (_ <~ MockRedisClient.add_key_value_redis key value expire ;;
         MockRedisClient.get_value_redis other) store
        = (Ok (store !! other), <[key := value]> store)
        /\ (_ <~ MockRedisClient.delete_key_redis key ;;
            MockRedisClient.get_value_redis other) store
           = (Ok (store !! other), delete key store))
  /\ (store !! key = None -> MockRedisClient.delete_key_redis key store = (Ok tt, store)).
Proof.
  unfold mbind, MockRedisClient.add_key_value_redis, MockRedisClient.get_value_redis,
    MockRedisClient.delete_key_redis.
  split; [|split; [|split; [|split]]].
  - now rewrite lookup_insert_eq.
  - now rewrite lookup_delete_eq.
  - rewrite lookup_delete_eq. f_equal. apply map_eq. intros k.
    destruct (decide (k = key)) as [->|Hne].
    + now rewrite !lookup_delete_eq.
    + now rewrite !lookup_delete_ne, lookup_insert_ne by congruence.
  - intros other Hne. split.
    + now rewrite lookup_insert_ne by congruence.
    + now rewrite lookup_delete_ne by congruence.
  - intros Habsent. f_equal. apply map_eq. intros k.
    destruct (decide (k = key)) as [->|Hne].
    + now rewrite lookup_delete_eq.
    + now rewrite lookup_delete_ne by congruence.
Qed.

Lemma store_read_your_writes_witness :
  (∅ : gmap pystr pystr) !! lit "k" = None
  /\ MockRedisClient.delete_key_redis (lit "k") ∅ = (Ok tt, ∅)
  /\ (_ <~ MockRedisClient.add_key_value_redis (lit "k") (lit "v") (Some 600%Z) ;;
      MockRedisClient.get_value_redis (lit "other")) ∅
     = (Ok None, <[lit "k" := lit "v"]> ∅).
Proof.
  destruct (store_read_your_writes ∅ (lit "k") (lit "v") (Some 600%Z))
    as (_ & _ & _ & Hother & Habsent).
  split; [reflexivity|]. split.
  - apply Habsent. reflexivity.
  - apply (Hother (lit "other")). vm_compute. discriminate.
Defined.

(** ** The namespaced keys *)

Lemma split_at_colon a : forall a' b b',
  no_colon a -> no_colon a' -> a ++ 58%N :: b = a' ++ 58%N :: b' -> a = a' /\ b = b'.
Proof.
  unfold no_colon.
  induction a as [|x a IH]; intros [|x' a'] b b' Ha Ha' H; cbn [app] in H.
  - injection H as ->. auto.
  - injection H as <- _. destruct Ha'. now left.
  - injection H as -> _. destruct Ha. now left.
  - injection H as -> H. apply IH in H as [-> ->]; auto.
    + intros Hin. apply Ha. now right.
    + intros Hin. apply Ha'. now right.
Qed.

(** X13.  For organisation ids without a colon a key names one (organisation,
    user) pair: equal keys come from equal pairs.  With a colon in the
    organisation id two different pairs share their keys. *)
Theorem keys_identify_tenant (org_id user_id org_id' user_id' : pystr) :
  no_colon org_id -> no_colon org_id' ->
  (Hubspot.state_key org_id user_id = Hubspot.state_key org_id' user_id' ->
   org_id = org_id' /\ user_id = user_id')
  /\ (Hubspot.tokens_key org_id user_id = Hubspot.tokens_key org_id' user_id' ->
      org_id = org_id' /\ user_id = user_id')
  /\ (Notion.state_key org_id user_id = Notion.state_key org_id' user_id' ->
      org_id = org_id' /\ user_id = user_id')
  /\ (Notion.tokens_key org_id user_id = Notion.tokens_key org_id' user_id' ->
      org_id = org_id' /\ user_id = user_id')
  /\ (forall a b c : pystr,
        Hubspot.state_key (a ++ lit ":" ++ b) c = Hubspot.state_key a (b ++ lit ":" ++ c)
        /\ Hubspot.tokens_key (a ++ lit ":" ++ b) c = Hubspot.tokens_key a (b ++ lit ":" ++ c)
        /\ Notion.state_key (a ++ lit ":" ++ b) c = Notion.state_key a (b ++ lit ":" ++ c)
        /\ Notion.tokens_key (a ++ lit ":" ++ b) c = Notion.tokens_key a (b ++ lit ":" ++ c)).
Proof.
  intros Ho Ho'.
  unfold Hubspot.state_key, Hubspot.tokens_key, Notion.state_key, Notion.tokens_key.
  change (lit ":") with [58%N].
  split; [|split; [|split; [|split]]];
    try (intros H; apply app_inv_head in H; cbn [app] in H;
         exact (split_at_colon _ _ _ _ Ho Ho' H)).
  intros a b c. rewrite <- !app_assoc. auto.
Qed.

Lemma keys_identify_tenant_witness :
  no_colon (lit "acme") /\ no_colon (lit "acme")
  /\ (Notion.tokens_key (lit "acme") (lit "u:1") = Notion.tokens_key (lit "acme") (lit "u:1") ->
      lit "acme" = lit "acme" /\ lit "u:1" = lit "u:1")
  /\ Hubspot.tokens_key (lit "a:b") (lit "c") = Hubspot.tokens_key (lit "a") (lit "b:c").
Proof.
  assert (H : no_colon (lit "acme")).
  { unfold no_colon. vm_compute. intros H. repeat (destruct H as [H|H]; [discriminate H|]). exact H. }
  destruct (keys_identify_tenant (lit "acme") (lit "u:1") (lit "acme") (lit "u:1") H H)
    as (_ & _ & _ & Hn & Hc).
  split; [exact H|]. split; [exact H|]. split; [exact Hn|].
  exact (proj1 (proj2 (Hc (lit "a") (lit "b") (lit "c")))).
Defined.

(** ** The base64 alphabet *)

Lemma plain_sextet_table : N_all_below 64 plain_sextet_ok = true.
Proof. vm_compute. reflexivity. Qed.

Lemma b64encode_alphabet data :
  Forall (fun b => (b < 256)%N) data ->
  Forall (fun c => c = BASE64_PAD \/ exists s, (s < 64)%N /\ c = b2a s) (b64encode data).
Proof.
  induction data as [|a|a b|a b c rest IH] using list_ind3; intros H.
  - constructor.
  - apply Forall_cons_1 in H as [Ha _].
    destruct (quad_facts a a Ha Ha) as ((A1 & _ & _ & _ & A5 & _) & _).
    unfold s1 in *. cbn [b64encode].
    repeat (constructor; [first [now left | right; eexists; (split; [|reflexivity]); assumption]|]).
    constructor.
  - apply Forall_cons_1 in H as [Ha H]. apply Forall_cons_1 in H as [Hb _].
    destruct (quad_facts a b Ha Hb) as ((A1 & A2 & _) & _).
    destruct (quad_facts b b Hb Hb) as ((_ & _ & _ & _ & _ & B6) & _).
    unfold s1, s2 in *. cbn [b64encode].
    repeat (constructor; [first [now left | right; eexists; (split; [|reflexivity]); assumption]|]).
    constructor.
  - apply Forall_cons_1 in H as [Ha H]. apply Forall_cons_1 in H as [Hb H].
    apply Forall_cons_1 in H as [Hc H].
    destruct (quad_facts a b Ha Hb) as ((A1 & A2 & _) & _).
    destruct (quad_facts b c Hb Hc) as ((_ & _ & B3 & _) & _).
    destruct (quad_facts c c Hc Hc) as ((_ & _ & _ & C4 & _) & _).
    unfold s1, s2, s3, s4 in *. cbn [b64encode].
    repeat (constructor; [right; eexists; (split; [|reflexivity]); assumption|]).
    exact (IH H).
Qed.

Lemma b64encode_plain_ascii data :
  Forall (fun b => (b < 256)%N) data -> forallb is_ascii (b64encode data) = true.
Proof.
  intros H. apply forallb_forall. intros c Hc.
  pose proof (b64encode_alphabet data H) as Ha. rewrite List.Forall_forall in Ha.
  destruct (Ha c Hc) as [->|(s & Hs & ->)]; [reflexivity|].
  pose proof (N_all_below_spec _ _ plain_sextet_table s Hs) as Ht.
  unfold plain_sextet_ok in Ht. now apply andb_true_iff in Ht as [Ht _].
Qed.

Lemma b64encode_tr data :
  Forall (fun b => (b < 256)%N) data -> map tr (b64encode data) = b64encode data.
Proof.
  intros H. pose proof (b64encode_alphabet data H) as Ha.
  induction Ha as [|c l Hc Hl IH]; [reflexivity|]. cbn [map]. rewrite IH. f_equal.
  destruct Hc as [->|(s & Hs & ->)]; [reflexivity|].
  pose proof (N_all_below_spec _ _ plain_sextet_table s Hs) as Ht.
  unfold plain_sextet_ok in Ht. apply andb_true_iff in Ht as [_ Ht]. now apply N.eqb_eq in Ht.
Qed.

(** binascii.a2b_base64 undoes base64.b64encode. *)
Lemma a2b_b64encode data :
  Forall (fun b => (b < 256)%N) data -> a2b_base64 (b64encode data) = Some data.
Proof.
  intros H. unfold a2b_base64. rewrite <- (b64encode_tr data H). now apply b64_roundtrip.
Qed.

Lemma basic_auth_header_ok rt env :
  forallb is_ascii (basic_credentials rt env) = true ->
  (b <- utf8_encode (py_str rt (CLIENT_ID env) ++ lit ":" ++ py_str rt (CLIENT_SECRET env)) ;;
   utf8_decode (b64encode b))
  = Ok (basic_auth_header rt env).
Proof.
  intros H. fold (basic_credentials rt env).
  rewrite (utf8_encode_ascii _ H). cbn [bind].
  apply utf8_decode_ascii, b64encode_plain_ascii, ascii_octets, H.
Qed.

(** ** What a successful callback has checked and done *)

Lemma exchange_ok client req token_info :
  exchange client req = Ok token_info <-> client req = Response 200 (Ok token_info).
Proof.
  unfold exchange. split.
  - destruct (client req) as [|status_code json]; [discriminate|].
    destruct (status_code =? 200)%Z eqn:E; cbn [negb]; [|discriminate].
    apply Z.eqb_eq in E. now intros ->; subst.
  - now intros ->.
Qed.

Lemma str_truthy_some o : str_truthy o = true -> exists s, o = Some s /\ s <> [].
Proof. destruct o as [[|c s]|]; try discriminate. intros _. eexists. split; [reflexivity|discriminate]. Qed.

Lemma notion_callback_inv rt env client request store response store' :
  Notion.oauth2callback_notion rt env client request store = (Ok response, store') ->
  exists code encoded_state d auth_header token_info,
    str_truthy (query_params request !! lit "error") = false
    /\ query_params request !! lit "code" = Some code /\ code <> []
    /\ query_params request !! lit "state" = Some encoded_state /\ encoded_state <> []
    /\ decode_state encoded_state = Ok (VDict d)
    /\ store !! Notion.state_key
                  (py_str rt (default VNone (dict_lookup (lit "org_id") d)))
                  (py_str rt (default VNone (dict_lookup (lit "user_id") d)))
       = Some encoded_state
    /\ (b <- utf8_encode (basic_credentials rt env) ;; utf8_decode (b64encode b))
       = Ok auth_header
    /\ client (Notion.token_request env code auth_header) = Response 200 (Ok token_info)
    /\ response = HTMLResponse_ Notion.close_window_script
    /\ store' = delete (Notion.state_key
                          (py_str rt (default VNone (dict_lookup (lit "org_id") d)))
                          (py_str rt (default VNone (dict_lookup (lit "user_id") d))))
                  (<[Notion.tokens_key
                       (py_str rt (default VNone (dict_lookup (lit "org_id") d)))
                       (py_str rt (default VNone (dict_lookup (lit "user_id") d)))
                     := json_dumps rt token_info]> store).
Proof.
  unfold Notion.oauth2callback_notion, mbind, try_except, lift, raise, ret,
    MockRedisClient.add_key_value_redis, MockRedisClient.get_value_redis,
    MockRedisClient.delete_key_redis.
  intros H. run_cases H. injection H as <- <-.
  repeat match goal with
         | Hor : _ || _ = false |- _ => apply orb_false_iff in Hor as [? ?]
         | Hn : negb _ = false |- _ => apply negb_false_iff in Hn
         end.
  repeat match goal with
         | Ht : str_truthy ?o = true |- _ =>
             let s := fresh "s" in let Es := fresh "Es" in let Hne := fresh "Hne" in
             apply str_truthy_some in Ht as (s & Es & Hne); rewrite Es in *
         end.
  cbn [default from_option id] in *.
  match goal with
  | Hg : py_get ?a (lit "user_id") VNone = Ok _ |- _ =>
      destruct a; try discriminate Hg
  end.
  cbn [py_get] in *. simplify_eq.
  match goal with
  | Heq : str_eqb _ _ = true |- _ => apply str_eqb_eq in Heq; subst
  end.
  match goal with
  | Hx : exchange _ _ = Ok _ |- _ => apply exchange_ok in Hx
  end.
  do 5 eexists. repeat split; try eassumption; try reflexivity.
Qed.

(** X4.  Whenever the Notion callback succeeds, the request carried a code and
    a state, the state decodes to an object, and the store held exactly
    that state under the state key of the organisation and user the object
    names; the token endpoint answered 200 to the request made of the code
    and the Basic credential; the page that closes the window is returned;
    and the store has changed in two places only: the token record is
    under the token key of that pair and its state key is gone. *)
Theorem notion_callback_sound rt env client request store response store' :
  Notion.oauth2callback_notion rt env client request store = (Ok response, store') ->
  exists code encoded_state d auth_header token_info,
    let org_id := py_str rt (default VNone (dict_lookup (lit "org_id") d)) in
    let user_id := py_str rt (default VNone (dict_lookup (lit "user_id") d)) in
    query_params request !! lit "code" = Some code
    /\ query_params request !! lit "state" = Some encoded_state
    /\ decode_state encoded_state = Ok (VDict d)
    /\ store !! Notion.state_key org_id user_id = Some encoded_state
    /\ (b <- utf8_encode (basic_credentials rt env) ;; utf8_decode (b64encode b))
       = Ok auth_header
    /\ client (Notion.token_request env code auth_header) = Response 200 (Ok token_info)
    /\ response = HTMLResponse_ Notion.close_window_script
    /\ store' = delete (Notion.state_key org_id user_id)
                  (<[Notion.tokens_key org_id user_id := json_dumps rt token_info]> store).
Proof.
  intros H.
  destruct (notion_callback_inv _ _ _ _ _ _ _ H)
    as (code & es & d & ah & ti & _ & Hc & _ & Hs & _ & Hd & Hst & Hah & Hx & Hr & Hs').
  exists code, es, d, ah, ti. cbv zeta. repeat split; assumption.
Qed.

(** X6.  A state is good for one callback: after a successful Notion callback
    the same request, against whatever the token endpoint would answer, is
    refused with "State does not match" and changes nothing. *)
Theorem notion_state_is_single_use rt env client client' request store response store' :
  Notion.oauth2callback_notion rt env client request store = (Ok response, store') ->
  Notion.oauth2callback_notion rt env client' request store'
  = (Raise state_does_not_match, store').
Proof.
  intros H.
  destruct (notion_callback_inv _ _ _ _ _ _ _ H)
    as (code & es & d & ah & ti & He & Hc & Hcne & Hs & Hsne & Hd & Hst & Hah & Hx & Hr & ->).
  unfold Notion.oauth2callback_notion, mbind, try_except, lift, raise, ret,
    MockRedisClient.add_key_value_redis, MockRedisClient.get_value_redis,
    MockRedisClient.delete_key_redis.
  rewrite He, Hc, Hs.
  destruct code as [|c0 code]; [congruence|]. destruct es as [|e0 es]; [congruence|].
  cbn [str_truthy negb orb default from_option id].
  rewrite Hd. cbn [py_get].
  rewrite lookup_delete_eq. reflexivity.
Qed.

Lemma hubspot_callback_inv rt env client request store response store' :
  Hubspot.oauth2callback_hubspot rt env client request store = (Ok response, store') ->
  exists code encoded_state d org_id user_id token_info,
    str_truthy (query_params request !! lit "error") = false
    /\ query_params request !! lit "code" = Some code /\ code <> []
    /\ query_params request !! lit "state" = Some encoded_state /\ encoded_state <> []
    /\ decode_state encoded_state = Ok (VDict d)
    /\ dict_lookup (lit "org_id") d = Some org_id
    /\ dict_lookup (lit "user_id") d = Some user_id
    /\ client (Hubspot.token_request env code) = Response 200 (Ok token_info)
    /\ response = HTMLResponse_ Hubspot.success_page
    /\ store' = <[Hubspot.tokens_key (py_str rt org_id) (py_str rt user_id)
                  := json_dumps rt token_info]> store.
Proof.
  unfold Hubspot.oauth2callback_hubspot, mbind, try_except, lift, raise, ret,
    MockRedisClient.add_key_value_redis.
  intros H. run_cases H. injection H as <- <-.
  repeat match goal with
         | Hor : _ || _ = false |- _ => apply orb_false_iff in Hor as [? ?]
         | Hn : negb _ = false |- _ => apply negb_false_iff in Hn
         end.
  repeat match goal with
         | Ht : str_truthy ?o = true |- _ =>
             let s := fresh "s" in let Es := fresh "Es" in let Hne := fresh "Hne" in
             apply str_truthy_some in Ht as (s & Es & Hne); rewrite Es in *
         end.
  cbn [default from_option id] in *.
  match goal with
  | Hg : py_getitem ?a (lit "org_id") = Ok _ |- _ =>
      destruct a; try discriminate Hg
  end.
  cbn [py_getitem] in *.
  repeat match goal with
         | Hl : of_option KeyError (dict_lookup ?k ?d) = Ok _ |- _ =>
             destruct (dict_lookup k d) eqn:?; [|discriminate Hl]; cbn [of_option] in Hl
         end.
  simplify_eq.
  match goal with
  | Hx : exchange _ _ = Ok _ |- _ => apply exchange_ok in Hx
  end.
  do 6 eexists. repeat split; try eassumption; try reflexivity.
Qed.

(** X5.  Whenever the HubSpot callback succeeds, the request carried a code
    and a state that decodes to an object with an [org_id] and a [user_id];
    the token endpoint answered 200 to the request made of the code and the
    client credentials; the success page is returned; and the one change to
    the store is the token record under the token key of that
    organisation and user. *)
Theorem hubspot_callback_sound rt env client request store response store' :
  Hubspot.oauth2callback_hubspot rt env client request store = (Ok response, store') ->
  exists code encoded_state d org_id user_id token_info,
    query_params request !! lit "code" = Some code
    /\ query_params request !! lit "state" = Some encoded_state
    /\ decode_state encoded_state = Ok (VDict d)
    /\ dict_lookup (lit "org_id") d = Some org_id
    /\ dict_lookup (lit "user_id") d = Some user_id
    /\ client (Hubspot.token_request env code) = Response 200 (Ok token_info)
    /\ response = HTMLResponse_ Hubspot.success_page
    /\ store' = <[Hubspot.tokens_key (py_str rt org_id) (py_str rt user_id)
                  := json_dumps rt token_info]> store.
Proof.
  intros H.
  destruct (hubspot_callback_inv _ _ _ _ _ _ _ H)
    as (code & es & d & o & u & ti & _ & Hc & _ & Hs & _ & Hd & Ho & Hu & Hx & Hr & Hs').
  exists code, es, d, o, u, ti. repeat split; assumption.
Qed.

(** ** A complete connection: authorize, callback, credentials *)

Lemma urlsafe_b64encode_nonempty a data : exists c t, urlsafe_b64encode (a :: data) = c :: t.
Proof.
  unfold urlsafe_b64encode. destruct data as [|b [|c data]]; cbn [b64encode map]; eauto.
Qed.

Lemma encoded_state_nonempty rt token user_id org_id :
  exists c t,
    urlsafe_b64encode (json_dumps rt (state_data token user_id org_id)) = c :: t.
Proof. rewrite json_dumps_state. apply urlsafe_b64encode_nonempty. Qed.

Lemma notion_keys_apart org_id user_id org_id' user_id' :
  Notion.tokens_key org_id user_id <> Notion.state_key org_id' user_id'.
Proof.
  unfold Notion.tokens_key, Notion.state_key.
  let a := eval vm_compute in (lit "notion_tokens:") in
  change (lit "notion_tokens:") with a.
  let b := eval vm_compute in (lit "notion_state:") in
  change (lit "notion_state:") with b.
  cbn [app]. intros H. inversion H.
Qed.

(** X2.  The Notion flow end to end.  [authorize_notion] stores the state it
    puts at the end of the module's [authorization_url]; a callback that
    brings back this state with a code the token endpoint accepts returns
    the closing page, removes the state and stores the token payload; and
    [get_notion_credentials] then returns that payload. *)
Theorem notion_connect_flow rt env client token user_id org_id code token_info store :
  valid_text token -> valid_text user_id -> valid_text org_id ->
  forallb is_ascii (basic_credentials rt env) = true ->
  code <> [] ->
  client (Notion.token_request env code (basic_auth_header rt env))
    = Response 200 (Ok token_info) ->
  json_safe token_info = true ->
  exists encoded_state started finished,
    Notion.authorize_notion rt env token user_id org_id store
    = (Ok (Notion.authorization_url rt env ++ lit "&state=" ++ encoded_state), started)
    /\ started = <[Notion.state_key org_id user_id := encoded_state]> store
    /\ finished = delete (Notion.state_key org_id user_id)
                    (<[Notion.tokens_key org_id user_id := json_dumps rt token_info]> started)
    /\ (forall request,
          str_truthy (query_params request !! lit "error") = false ->
          query_params request !! lit "code" = Some code ->
          query_params request !! lit "state" = Some encoded_state ->
          Notion.oauth2callback_notion rt env client request started
          = (Ok (HTMLResponse_ Notion.close_window_script), finished))
    /\ finished !! Notion.state_key org_id user_id = None
    /\ Notion.get_notion_credentials user_id org_id finished = (Ok token_info, finished).
Proof.
  intros Ht Hu Ho Hascii Hcode Hclient Hsafe.
  set (encoded_state := urlsafe_b64encode (json_dumps rt (state_data token user_id org_id))).
  exists encoded_state. do 2 eexists.
  split; [|split; [reflexivity|split; [reflexivity|split; [|split]]]].
  - unfold Notion.authorize_notion, Notion.encode_state, mbind, lift, ret,
      MockRedisClient.add_key_value_redis, Notion.authorization_url.
    rewrite encode_state_value_ok by assumption. cbn [bind fst].
    fold encoded_state. rewrite <- !app_assoc. reflexivity.
  - intros request He Hc Hs.
    unfold Notion.oauth2callback_notion, mbind, try_except, lift, raise, ret,
      MockRedisClient.add_key_value_redis, MockRedisClient.get_value_redis,
      MockRedisClient.delete_key_redis.
    rewrite He, Hc, Hs.
    destruct (encoded_state_nonempty rt token user_id org_id) as (c & t & Ee).
    fold encoded_state in Ee.
    destruct code as [|c0 code']; [congruence|].
    cbn [default from_option id].
    replace (str_truthy (Some encoded_state)) with true by now rewrite Ee.
    cbn [str_truthy negb orb].
    unfold encoded_state at 1. rewrite decode_encoded_state by assumption.
    unfold state_data. cbn [py_get].
    change (dict_lookup (lit "user_id") _) with (Some (VStr user_id)).
    change (dict_lookup (lit "org_id") _) with (Some (VStr org_id)).
    cbn [py_str]. rewrite lookup_insert_eq.
    replace (str_truthy (Some encoded_state)) with true by now rewrite Ee.
    cbn [default from_option id negb orb]. rewrite str_eqb_refl. cbn [negb].
    rewrite (basic_auth_header_ok rt env Hascii).
    rewrite (proj2 (exchange_ok _ _ _) Hclient). reflexivity.
  - apply lookup_delete_eq.
  - unfold Notion.get_notion_credentials, mbind, lift, ret, MockRedisClient.get_value_redis.
    rewrite lookup_delete_ne by apply not_eq_sym, notion_keys_apart.
    rewrite lookup_insert_eq.
    destruct (json_dumps_start rt token_info Hsafe) as (c & t & E & _).
    replace (str_truthy (Some (json_dumps rt token_info))) with true by now rewrite E.
    cbn [negb default from_option id]. now rewrite json_loads_dumps.
Qed.

(** X3.  The HubSpot flow end to end.  [authorize_hubspot] stores the state
    it puts at the end of the authorization URL; a callback that brings
    back this state with a code the token endpoint accepts returns the
    success page and stores the token payload; and
    [get_hubspot_credentials] then returns that payload. *)
Theorem hubspot_connect_flow rt env client token user_id org_id code token_info store :
  valid_text token -> valid_text user_id -> valid_text org_id ->
  code <> [] ->
  client (Hubspot.token_request env code) = Response 200 (Ok token_info) ->
  json_safe token_info = true ->
  exists encoded_state started finished,
    Hubspot.authorize_hubspot rt env token user_id org_id store
    = (Ok (lit "https://app.hubspot.com/oauth/authorize?client_id="
           ++ py_str rt (CLIENT_ID env)
           ++ lit "&redirect_uri=" ++ py_str rt (REDIRECT_URI env)
           ++ lit "&scope=" ++ Hubspot.SCOPE
           ++ lit "&state=" ++ encoded_state), started)
    /\ started = <[Hubspot.state_key org_id user_id := encoded_state]> store
    /\ finished = <[Hubspot.tokens_key org_id user_id := json_dumps rt token_info]> started
    /\ (forall request,
          str_truthy (query_params request !! lit "error") = false ->
          query_params request !! lit "code" = Some code ->
          query_params request !! lit "state" = Some encoded_state ->
          Hubspot.oauth2callback_hubspot rt env client request started
          = (Ok (HTMLResponse_ Hubspot.success_page), finished))
    /\ Hubspot.get_hubspot_credentials user_id org_id finished = (Ok token_info, finished).
Proof.
  intros Ht Hu Ho Hcode Hclient Hsafe.
  set (encoded_state := urlsafe_b64encode (json_dumps rt (state_data token user_id org_id))).
  exists encoded_state. do 2 eexists.
  split; [|split; [reflexivity|split; [reflexivity|split]]].
  - unfold Hubspot.authorize_hubspot, mbind, lift, ret, MockRedisClient.add_key_value_redis.
    rewrite encode_state_value_ok by assumption. reflexivity.
  - intros request He Hc Hs.
    unfold Hubspot.oauth2callback_hubspot, mbind, try_except, lift, raise, ret,
      MockRedisClient.add_key_value_redis.
    rewrite He, Hc, Hs.
    destruct (encoded_state_nonempty rt token user_id org_id) as (c & t & Ee).
    fold encoded_state in Ee.
    destruct code as [|c0 code']; [congruence|].
    cbn [default from_option id].
    replace (str_truthy (Some encoded_state)) with true by now rewrite Ee.
    cbn [str_truthy negb orb].
    unfold encoded_state at 1. rewrite decode_encoded_state by assumption.
    rewrite (proj2 (exchange_ok _ _ _) Hclient).
    unfold state_data. cbn [py_getitem].
    change (dict_lookup (lit "user_id") _) with (Some (VStr user_id)).
    change (dict_lookup (lit "org_id") _) with (Some (VStr org_id)).
    reflexivity.
  - unfold Hubspot.get_hubspot_credentials, mbind, lift, raise, ret,
      MockRedisClient.get_value_redis.
    rewrite lookup_insert_eq.
    destruct (json_dumps_start rt token_info Hsafe) as (c & t & E & _).
    replace (str_truthy (Some (json_dumps rt token_info))) with true by now rewrite E.
    cbn [negb default from_option id]. now rewrite json_loads_dumps.
Qed.

Lemma state_data_token_inj token token' user_id org_id :
  state_data token user_id org_id = state_data token' user_id org_id -> token = token'.
Proof. unfold state_data. intros H. now injection H. Qed.

(** X7.  Starting the Notion flow again for the same user replaces the state:
    the two states differ when the random tokens do, and a callback that
    brings the first one is refused with "State does not match". *)
Theorem notion_reauthorization_supersedes rt env token token' user_id org_id store :
  valid_text token -> valid_text token' -> valid_text user_id -> valid_text org_id ->
  token <> token' ->
  let first := Notion.authorize_notion rt env token user_id org_id store in
  let second := Notion.authorize_notion rt env token' user_id org_id (snd first) in
  exists state1 state2,
    snd first !! Notion.state_key org_id user_id = Some state1
    /\ snd second !! Notion.state_key org_id user_id = Some state2
    /\ state1 <> state2
    /\ forall client request,
         str_truthy (query_params request !! lit "error") = false ->
         str_truthy (query_params request !! lit "code") = true ->
         query_params request !! lit "state" = Some state1 ->
         Notion.oauth2callback_notion rt env client request (snd second)
         = (Raise state_does_not_match, snd second).
Proof.
  intros Ht Ht' Hu Ho Hne first second.
  set (state1 := urlsafe_b64encode (json_dumps rt (state_data token user_id org_id))).
  set (state2 := urlsafe_b64encode (json_dumps rt (state_data token' user_id org_id))).
  assert (Hfirst : snd first = <[Notion.state_key org_id user_id := state1]> store).
  { subst first. unfold Notion.authorize_notion, Notion.encode_state, mbind, lift, ret,
      MockRedisClient.add_key_value_redis.
    now rewrite encode_state_value_ok by assumption. }
  assert (Hsecond : snd second = <[Notion.state_key org_id user_id := state2]> (snd first)).
  { subst second. unfold Notion.authorize_notion, Notion.encode_state, mbind, lift, ret,
      MockRedisClient.add_key_value_redis.
    now rewrite encode_state_value_ok by assumption. }
  assert (Hdiff : state1 <> state2).
  { intros E. apply Hne, (state_data_token_inj _ _ user_id org_id).
    pose proof (decode_encoded_state rt token user_id org_id Ht Hu Ho) as D1.
    pose proof (decode_encoded_state rt token' user_id org_id Ht' Hu Ho) as D2.
    fold state1 in D1. fold state2 in D2. rewrite E in D1. congruence. }
  exists state1, state2. rewrite Hsecond, Hfirst.
  split; [apply lookup_insert_eq|]. split; [apply lookup_insert_eq|]. split; [exact Hdiff|].
  intros client request He Hc Hs.
  unfold Notion.oauth2callback_notion, mbind, try_except, lift, raise, ret,
    MockRedisClient.add_key_value_redis, MockRedisClient.get_value_redis,
    MockRedisClient.delete_key_redis.
  rewrite He, Hc, Hs.
  destruct (encoded_state_nonempty rt token user_id org_id) as (c & t & Ee).
  fold state1 in Ee.
  replace (str_truthy (Some state1)) with true by now rewrite Ee.
  cbn [negb orb default from_option id].
  unfold state1 at 1. rewrite decode_encoded_state by assumption.
  unfold state_data. cbn [py_get].
  change (dict_lookup (lit "user_id") _) with (Some (VStr user_id)).
  change (dict_lookup (lit "org_id") _) with (Some (VStr org_id)).
  cbn [py_str]. rewrite lookup_insert_eq.
  destruct (encoded_state_nonempty rt token' user_id org_id) as (c' & t' & Ee').
  fold state2 in Ee'.
  replace (str_truthy (Some state2)) with true by now rewrite Ee'.
  cbn [negb orb default from_option id].
  destruct (str_eqb state2 state1) eqn:E; [|reflexivity].
  apply str_eqb_eq in E. congruence.
Qed.

Lemma notion_callback_sound_witness :
  Notion.oauth2callback_notion utc_runtime example_settings issuing_client
    (callback_request (lit "code-1") example_state) example_notion_store
  = (Ok (HTMLResponse_ Notion.close_window_script),
     {[ Notion.tokens_key (lit "acme") (lit "victim") := json_dumps utc_runtime example_payload ]})
  /\ exists code encoded_state d auth_header token_info,
       query_params (callback_request (lit "code-1") example_state) !! lit "code" = Some code
       /\ query_params (callback_request (lit "code-1") example_state) !! lit "state"
          = Some encoded_state
       /\ decode_state encoded_state = Ok (VDict d)
       /\ example_notion_store
            !! Notion.state_key
                 (py_str utc_runtime (default VNone (dict_lookup (lit "org_id") d)))
                 (py_str utc_runtime (default VNone (dict_lookup (lit "user_id") d)))
          = Some encoded_state
       /\ (b <- utf8_encode (basic_credentials utc_runtime example_settings) ;;
           utf8_decode (b64encode b)) = Ok auth_header
       /\ issuing_client (Notion.token_request example_settings code auth_header)
          = Response 200 (Ok token_info).
Proof.
  assert (H : Notion.oauth2callback_notion utc_runtime example_settings issuing_client
                (callback_request (lit "code-1") example_state) example_notion_store
              = (Ok (HTMLResponse_ Notion.close_window_script),
                 {[ Notion.tokens_key (lit "acme") (lit "victim")
                    := json_dumps utc_runtime example_payload ]}))
    by (vm_compute; reflexivity).
  split; [exact H|].
  destruct (notion_callback_sound _ _ _ _ _ _ _ H)
    as (code & es & d & ah & ti & H1 & H2 & H3 & H4 & H5 & H6 & _).
  exists code, es, d, ah, ti. repeat split; assumption.
Defined.

Lemma notion_state_is_single_use_witness :
  Notion.oauth2callback_notion utc_runtime example_settings issuing_client
    (callback_request (lit "code-1") example_state) example_notion_store
  = (Ok (HTMLResponse_ Notion.close_window_script),
     {[ Notion.tokens_key (lit "acme") (lit "victim") := json_dumps utc_runtime example_payload ]})
  /\ Notion.oauth2callback_notion utc_runtime example_settings issuing_client
       (callback_request (lit "code-1") example_state)
       {[ Notion.tokens_key (lit "acme") (lit "victim") := json_dumps utc_runtime example_payload ]}
     = (Raise state_does_not_match,
        {[ Notion.tokens_key (lit "acme") (lit "victim")
           := json_dumps utc_runtime example_payload ]}).
Proof.
  assert (H : Notion.oauth2callback_notion utc_runtime example_settings issuing_client
                (callback_request (lit "code-1") example_state) example_notion_store
              = (Ok (HTMLResponse_ Notion.close_window_script),
                 {[ Notion.tokens_key (lit "acme") (lit "victim")
                    := json_dumps utc_runtime example_payload ]}))
    by (vm_compute; reflexivity).
  split; [exact H|].
  exact (notion_state_is_single_use _ _ _ issuing_client _ _ _ _ H).
Defined.

Lemma hubspot_callback_sound_witness :
  Hubspot.oauth2callback_hubspot utc_runtime example_settings issuing_client
    (callback_request (lit "code-1") example_state) ∅
  = (Ok (HTMLResponse_ Hubspot.success_page),
     {[ Hubspot.tokens_key (lit "acme") (lit "victim") := json_dumps utc_runtime example_payload ]})
  /\ exists code encoded_state d org_id user_id token_info,
       query_params (callback_request (lit "code-1") example_state) !! lit "code" = Some code
       /\ query_params (callback_request (lit "code-1") example_state) !! lit "state"
          = Some encoded_state
       /\ decode_state encoded_state = Ok (VDict d)
       /\ dict_lookup (lit "org_id") d = Some org_id
       /\ dict_lookup (lit "user_id") d = Some user_id
       /\ issuing_client (Hubspot.token_request example_settings code)
          = Response 200 (Ok token_info).
Proof.
  assert (H : Hubspot.oauth2callback_hubspot utc_runtime example_settings issuing_client
                (callback_request (lit "code-1") example_state) ∅
              = (Ok (HTMLResponse_ Hubspot.success_page),
                 {[ Hubspot.tokens_key (lit "acme") (lit "victim")
                    := json_dumps utc_runtime example_payload ]}))
    by (vm_compute; reflexivity).
  split; [exact H|].
  destruct (hubspot_callback_sound _ _ _ _ _ _ _ H)
    as (code & es & d & o & u & ti & H1 & H2 & H3 & H4 & H5 & H6 & _).
  exists code, es, d, o, u, ti. repeat split; assumption.
Defined.

Lemma notion_connect_flow_witness :
  json_safe example_payload = true
  /\ forallb is_ascii (basic_credentials utc_runtime example_settings) = true
  /\ exists encoded_state started finished,
       Notion.authorize_notion utc_runtime example_settings (lit "n0nce") (lit "victim")
         (lit "acme") ∅
       = (Ok (Notion.authorization_url utc_runtime example_settings
              ++ lit "&state=" ++ encoded_state), started)
       /\ Notion.oauth2callback_notion utc_runtime example_settings issuing_client
            (callback_request (lit "code-1") encoded_state) started
          = (Ok (HTMLResponse_ Notion.close_window_script), finished)
       /\ Notion.get_notion_credentials (lit "victim") (lit "acme") finished
          = (Ok example_payload, finished).
Proof.
  split; [reflexivity|]. split; [reflexivity|].
  destruct (notion_connect_flow utc_runtime example_settings issuing_client
              (lit "n0nce") (lit "victim") (lit "acme") (lit "code-1") example_payload ∅)
    as (es & started & finished & H1 & _ & _ & H4 & _ & H6);
    try (repeat constructor); try reflexivity; try discriminate.
  exists es, started, finished. split; [exact H1|]. split; [|exact H6].
  apply H4; reflexivity.
Defined.

Lemma hubspot_connect_flow_witness :
  json_safe example_payload = true
  /\ exists encoded_state started finished,
       fst (Hubspot.authorize_hubspot utc_runtime example_settings (lit "n0nce")
              (lit "victim") (lit "acme") ∅)
       = Ok (lit "https://app.hubspot.com/oauth/authorize?client_id=client"
             ++ lit "&redirect_uri=http://localhost:8000/callback"
             ++ lit "&scope=" ++ Hubspot.SCOPE ++ lit "&state=" ++ encoded_state)
       /\ Hubspot.oauth2callback_hubspot utc_runtime example_settings issuing_client
            (callback_request (lit "code-1") encoded_state) started
          = (Ok (HTMLResponse_ Hubspot.success_page), finished)
       /\ Hubspot.get_hubspot_credentials (lit "victim") (lit "acme") finished
          = (Ok example_payload, finished).
Proof.
  split; [reflexivity|].
  destruct (hubspot_connect_flow utc_runtime example_settings issuing_client
              (lit "n0nce") (lit "victim") (lit "acme") (lit "code-1") example_payload ∅)
    as (es & started & finished & H1 & _ & _ & H4 & H5);
    try (repeat constructor); try reflexivity; try discriminate.
  exists es, started, finished. split; [now rewrite H1|]. split; [|exact H5].
  apply H4; reflexivity.
Defined.

Lemma notion_reauthorization_supersedes_witness :
  lit "n0nce" <> lit "n1nce"
  /\ exists state1 state2,
       state1 <> state2
       /\ forall client,
            Notion.oauth2callback_notion utc_runtime example_settings client
              (callback_request (lit "code-1") state1)
              (snd (Notion.authorize_notion utc_runtime example_settings (lit "n1nce")
                      (lit "victim") (lit "acme")
                      (snd (Notion.authorize_notion utc_runtime example_settings
                              (lit "n0nce") (lit "victim") (lit "acme") ∅))))
            = (Raise state_does_not_match,
               snd (Notion.authorize_notion utc_runtime example_settings (lit "n1nce")
                      (lit "victim") (lit "acme")
                      (snd (Notion.authorize_notion utc_runtime example_settings
                              (lit "n0nce") (lit "victim") (lit "acme") ∅)))).
Proof.
  assert (Hne : lit "n0nce" <> lit "n1nce") by (vm_compute; discriminate).
  split; [exact Hne|].
  destruct (notion_reauthorization_supersedes utc_runtime example_settings
              (lit "n0nce") (lit "n1nce") (lit "victim") (lit "acme") ∅)
    as (s1 & s2 & _ & _ & Hd & Hc);
    try (repeat constructor); try exact Hne.
  exists s1, s2. split; [exact Hd|]. intros client. apply Hc; reflexivity.
Defined.

(** ** What the aggregators return *)

Lemma hubspot_normalised_item rt x item_type item :
  Hubspot.create_integration_item_metadata_object rt x item_type = Ok item ->
  hubspot_item_of item_type item.
Proof.
  unfold Hubspot.create_integration_item_metadata_object. intros H.
  repeat match type of H with
         | bind ?r _ = Ok _ => destruct r eqn:?; cbn [bind] in H; [|discriminate H]
         end.
  injection H as <-. unfold hubspot_item_of. cbn. auto.
Qed.

Lemma append_each_invariant (P : IntegrationItem.t -> Prop) f xs :
  (forall x item, f x = Ok item -> P item) ->
  forall acc, Forall P acc -> Forall P (fst (append_each f acc xs)).
Proof.
  intros Hf. induction xs as [|x xs IH]; intros acc Hacc; cbn [append_each]; [exact Hacc|].
  destruct (f x) as [item|e] eqn:E; [|exact Hacc].
  apply IH. apply Forall_app. split; [exact Hacc|]. constructor; [|constructor].
  exact (Hf x item E).
Qed.

Lemma fetch_block_invariant rt client access_token url limit item_type :
  Forall (hubspot_item_of item_type)
    (Hubspot.fetch_block rt client access_token url limit item_type []).
Proof.
  unfold Hubspot.fetch_block.
  destruct (client _) as [|status json]; [constructor|].
  destruct (status =? 200)%Z; [|constructor].
  destruct (data <- json ;; results <- py_get data (lit "results") (VList []) ;; py_iter results)
    as [results|e]; [|constructor].
  apply append_each_invariant; [|constructor].
  intros x item. apply hubspot_normalised_item.
Qed.

(** With an access token, the result of [get_items_hubspot] is what the
    contacts block, the companies block and the deals block contribute, in
    that order. *)
Lemma get_items_hubspot_blocks rt client credentials access_token :
  dict_lookup (lit "access_token") credentials = Some access_token ->
  py_truthy access_token = true ->
  Hubspot.get_items_hubspot rt client (VDict credentials)
  = Ok (Hubspot.fetch_block rt client access_token Hubspot.contacts_url 100 (lit "contact") []
        ++ Hubspot.fetch_block rt client access_token Hubspot.companies_url 50 (lit "company") []
        ++ Hubspot.fetch_block rt client access_token Hubspot.deals_url 50 (lit "deal") []).
Proof.
  intros Ha Ht. unfold Hubspot.get_items_hubspot. cbn [bind py_get]. rewrite Ha, Ht.
  cbn [negb]. f_equal.
  rewrite (fetch_block_acc rt client access_token Hubspot.deals_url).
  rewrite (fetch_block_acc rt client access_token Hubspot.companies_url).
  now rewrite <- app_assoc.
Qed.

(** X16.  Whatever the credentials and the answers of the API, a list that
    [get_items_hubspot] returns is made of contacts, then companies, then
    deals; every item is visible and carries the type of its category, and
    the contacts, and only they, link to their contact page. *)
Theorem hubspot_items_shape rt client credentials items :
  Hubspot.get_items_hubspot rt client credentials = Ok items ->
  exists contacts companies deals,
    items = contacts ++ companies ++ deals
    /\ Forall (hubspot_item_of (lit "contact")) contacts
    /\ Forall (hubspot_item_of (lit "company")) companies
    /\ Forall (hubspot_item_of (lit "deal")) deals.
Proof.
  unfold Hubspot.get_items_hubspot. intros H.
  destruct (match credentials with VStr s => json_loads s | _ => Ok credentials end)
    as [c|e]; cbn [bind] in H; [|discriminate].
  destruct (py_get c (lit "access_token") VNone) as [access_token|e]; cbn [bind] in H;
    [|discriminate].
  destruct (py_truthy access_token); cbn [negb] in H.
  - injection H as <-.
    rewrite (fetch_block_acc rt client access_token Hubspot.deals_url).
    rewrite (fetch_block_acc rt client access_token Hubspot.companies_url).
    rewrite <- app_assoc.
    eexists _, _, _. split; [reflexivity|]. repeat split; apply fetch_block_invariant.
  - injection H as <-. exists [], [], []. repeat split; constructor.
Qed.

Lemma hubspot_items_shape_witness :
  Hubspot.get_items_hubspot utc_runtime contacts_down_client example_credentials
  = Ok [example_company_item; example_deal_item]
  /\ exists contacts companies deals,
       [example_company_item; example_deal_item] = contacts ++ companies ++ deals
       /\ Forall (hubspot_item_of (lit "contact")) contacts
       /\ Forall (hubspot_item_of (lit "company")) companies
       /\ Forall (hubspot_item_of (lit "deal")) deals.
Proof.
  assert (H : Hubspot.get_items_hubspot utc_runtime contacts_down_client example_credentials
              = Ok [example_company_item; example_deal_item]) by (vm_compute; reflexivity).
  split; [exact H|].
  exact (hubspot_items_shape utc_runtime contacts_down_client example_credentials _ H).
Defined.

Lemma append_each_stops f good bad rest items e :
  Forall2 (fun x item => f x = Ok item) good items ->
  f bad = Raise e ->
  append_each f [] (good ++ bad :: rest) = (items, Some e).
Proof.
  intros Hgood Hbad.
  enough (G : forall acc, append_each f acc (good ++ bad :: rest) = (acc ++ items, Some e))
    by apply (G []).
  induction Hgood as [|x item xs its Hx _ IH]; intros acc; cbn [app append_each].
  - now rewrite Hbad, app_nil_r.
  - rewrite Hx, IH, <- app_assoc. reflexivity.
Qed.



(** ** The Notion aggregator *)

Lemma notion_normalised_item rt x item :
  Notion.create_integration_item_metadata_object rt x = Ok item -> notion_item item.
Proof.
  unfold Notion.create_integration_item_metadata_object. intros H.
  repeat match type of H with
         | bind ?r _ = Ok _ => destruct r eqn:?; cbn [bind] in H; [|discriminate H]
         end.
  injection H as <-. unfold notion_item. cbn [IntegrationItem.name IntegrationItem.url
    IntegrationItem.visibility]. repeat split.
  match goal with
  | Hn : (if negb (py_truthy ?n) then _ else _) = Ok ?a |- py_truthy ?a = true =>
      destruct (py_truthy n) eqn:Et; cbn [negb] in Hn
  end.
  - congruence.
  - match goal with
    | Hn : Notion.default_name _ ?o = Ok _ |- _ =>
        destruct o; try discriminate Hn; cbn [Notion.default_name] in Hn; injection Hn as <-
    end.
    cbn [py_truthy]. now destruct (capitalize rt s).
Qed.



(** ** Names of HubSpot items *)

Lemma lstrip_head c r : Py_UNICODE_ISSPACE c = false -> lstrip (c :: r) = c :: r.
Proof. intros H. cbn [lstrip]. now rewrite H. Qed.

Lemma trimmed_ends s :
  trimmed s = true ->
  exists c r d q, s = c :: r /\ rev s = d :: q
                  /\ Py_UNICODE_ISSPACE c = false /\ Py_UNICODE_ISSPACE d = false.
Proof.
  unfold trimmed. destruct s as [|c r]; [discriminate|].
  destruct (rev (c :: r)) as [|d q]; [discriminate|].
  intros H. apply andb_true_iff in H as [H1 H2].
  apply negb_true_iff in H1, H2. eauto 10.
Qed.

Lemma strip_trimmed s : trimmed s = true -> strip s = s.
Proof.
  intros Hs. destruct (trimmed_ends s Hs) as (c & r & d & q & -> & Hr & Hc & Hd).
  unfold strip. rewrite (lstrip_head _ _ Hc), Hr, (lstrip_head _ _ Hd), <- Hr.
  apply rev_involutive.
Qed.

Lemma trimmed_app f m l : trimmed f = true -> trimmed l = true -> trimmed (f ++ m ++ l) = true.
Proof.
  intros Hf Hl.
  destruct (trimmed_ends f Hf) as (c & r & _ & _ & -> & _ & Hc & _).
  destruct (trimmed_ends l Hl) as (_ & _ & d & q & _ & Hr & _ & Hd).
  unfold trimmed. cbn [app].
  change (c :: r ++ m ++ l) with ((c :: r) ++ m ++ l).
  rewrite !rev_app_distr, Hr. cbn [app]. now rewrite Hc, Hd.
Qed.

Lemma strip_join f l :
  trimmed f = true -> trimmed l = true -> strip (f ++ lit " " ++ l) = f ++ lit " " ++ l.
Proof. intros Hf Hl. now apply strip_trimmed, trimmed_app. Qed.

Lemma strip_first_only f : trimmed f = true -> strip (f ++ lit " " ++ []) = f.
Proof.
  intros Hf. destruct (trimmed_ends f Hf) as (c & r & d & q & E & Hr & Hc & Hd).
  unfold strip. change (lit " " ++ []) with [32%N].
  assert (H1 : lstrip (f ++ [32%N]) = f ++ [32%N]).
  { rewrite E. exact (lstrip_head c (r ++ [32%N]) Hc). }
  rewrite H1, rev_app_distr. change (rev [32%N] ++ rev f) with (32%N :: rev f).
  change (lstrip (32%N :: rev f)) with (lstrip (rev f)).
  rewrite Hr, (lstrip_head _ _ Hd), <- Hr. apply rev_involutive.
Qed.

Lemma strip_last_only l : trimmed l = true -> strip ([] ++ lit " " ++ l) = l.
Proof.
  intros Hl. change ([] ++ lit " " ++ l) with (32%N :: l).
  unfold strip. change (lstrip (32%N :: l)) with (lstrip l).
  fold (strip l). now apply strip_trimmed.
Qed.

Lemma trimmed_nonempty s : trimmed s = true -> s <> [].
Proof. destruct s; [discriminate|discriminate]. Qed.

(** X20.  The name of a HubSpot item.  A contact whose first and last name are
    texts without white space at the ends is named "first last"; with one
    of the two absent it is named by the other; with neither it is named
    by its [email] entry, whatever that is.  A company is named by its
    [name] entry and a deal by its [dealname] entry, whatever that is --
    "Unknown Company" and "Unknown Deal" stand in for an absent entry
    only -- and an item of any other type is named "Unknown Item". *)
Theorem hubspot_item_names rt d props item_type item :
  dict_lookup (lit "properties") d = Some (VDict props) ->
  Hubspot.create_integration_item_metadata_object rt (VDict d) item_type = Ok item ->
  (item_type = lit "contact" ->
     (forall f l,
         dict_lookup (lit "firstname") props = Some (VStr f) ->
         dict_lookup (lit "lastname") props = Some (VStr l) ->
         trimmed f = true -> trimmed l = true ->
         IntegrationItem.name item = VStr (f ++ lit " " ++ l))
     /\ (forall f,
           dict_lookup (lit "firstname") props = Some (VStr f) ->
           dict_lookup (lit "lastname") props = None ->
           trimmed f = true ->
           IntegrationItem.name item = VStr f)
     /\ (forall l,
           dict_lookup (lit "firstname") props = None ->
           dict_lookup (lit "lastname") props = Some (VStr l) ->
           trimmed l = true ->
           IntegrationItem.name item = VStr l)
     /\ (forall v,
           dict_lookup (lit "firstname") props = None ->
           dict_lookup (lit "lastname") props = None ->
           dict_lookup (lit "email") props = Some v ->
           IntegrationItem.name item = v))
  /\ (item_type = lit "company" ->
      IntegrationItem.name item
      = match dict_lookup (lit "name") props with
        | Some v => v
        | None => VStr (lit "Unknown Company")
        end)
  /\ (item_type = lit "deal" ->
      IntegrationItem.name item
      = match dict_lookup (lit "dealname") props with
        | Some v => v
        | None => VStr (lit "Unknown Deal")
        end)
  /\ (item_type <> lit "contact" -> item_type <> lit "company" -> item_type <> lit "deal" ->
      IntegrationItem.name item = VStr (lit "Unknown Item")
      /\ IntegrationItem.url item = None).
Proof.
  intros Hp H. unfold Hubspot.create_integration_item_metadata_object in H.
  cbn [py_get bind] in H. rewrite Hp in H.
  split; [|split; [|split]].
  - intros ->. change (str_eqb (lit "contact") (lit "contact")) with true in H.
    cbv iota in H. cbn [py_get bind] in H.
    assert (Hname : forall full,
               strip (py_str rt match dict_lookup (lit "firstname") props with
                                | Some x => x
                                | None => VStr []
                                end
                      ++ lit " "
                      ++ py_str rt match dict_lookup (lit "lastname") props with
                                   | Some x => x
                                   | None => VStr []
                                   end)
               = full ->
               full <> [] -> IntegrationItem.name item = VStr full).
    { intros full E Hne. rewrite E in H.
      destruct full as [|c full]; [congruence|]. cbn [bind] in H.
      repeat match type of H with
             | bind ?r _ = Ok _ => destruct r eqn:?; cbn [bind] in H; [|discriminate H]
             end.
      now injection H as <-. }
    split; [|split; [|split]].
    + intros f l Hf Hl Tf Tl. apply Hname.
      * rewrite Hf, Hl. cbn [py_str]. now apply strip_join.
      * apply trimmed_nonempty in Tf. now destruct f.
    + intros f Hf Hl Tf. apply Hname; [|now apply trimmed_nonempty].
      rewrite Hf, Hl. cbn [py_str]. now apply strip_first_only.
    + intros l Hf Hl Tl. apply Hname; [|now apply trimmed_nonempty].
      rewrite Hf, Hl. cbn [py_str]. now apply strip_last_only.
    + intros v Hf Hl He. rewrite Hf, Hl, He in H.
      change (strip (py_str rt (VStr []) ++ lit " " ++ py_str rt (VStr []))) with (@nil N) in H.
      cbv iota in H. cbn [bind] in H.
      repeat match type of H with
             | bind ?r _ = Ok _ => destruct r eqn:?; cbn [bind] in H; [|discriminate H]
             end.
      now injection H as <-.
  - intros ->. change (str_eqb (lit "company") (lit "contact")) with false in H.
    change (str_eqb (lit "company") (lit "company")) with true in H.
    cbv iota in H. cbn [py_get bind] in H.
    repeat match type of H with
           | bind ?r _ = Ok _ => destruct r eqn:?; cbn [bind] in H; [|discriminate H]
           end.
    now injection H as <-.
  - intros ->. change (str_eqb (lit "deal") (lit "contact")) with false in H.
    change (str_eqb (lit "deal") (lit "company")) with false in H.
    change (str_eqb (lit "deal") (lit "deal")) with true in H.
    cbv iota in H. cbn [py_get bind] in H.
    repeat match type of H with
           | bind ?r _ = Ok _ => destruct r eqn:?; cbn [bind] in H; [|discriminate H]
           end.
    now injection H as <-.
  - intros H1 H2 H3.
    assert (E1 : str_eqb item_type (lit "contact") = false).
    { destruct (str_eqb item_type (lit "contact")) eqn:E; [|reflexivity].
      apply str_eqb_eq in E. congruence. }
    assert (E2 : str_eqb item_type (lit "company") = false).
    { destruct (str_eqb item_type (lit "company")) eqn:E; [|reflexivity].
      apply str_eqb_eq in E. congruence. }
    assert (E3 : str_eqb item_type (lit "deal") = false).
    { destruct (str_eqb item_type (lit "deal")) eqn:E; [|reflexivity].
      apply str_eqb_eq in E. congruence. }
    rewrite E1, E2, E3 in H. cbn [bind] in H.
    repeat match type of H with
           | bind ?r _ = Ok _ => destruct r eqn:?; cbn [bind] in H; [|discriminate H]
           end.
    injection H as <-. split; reflexivity.
Qed.

Lemma hubspot_item_names_witness :
  Hubspot.create_integration_item_metadata_object utc_runtime (VDict named_contact)
    (lit "contact") = Ok named_contact_item
  /\ trimmed (lit "Ada") = true /\ trimmed (lit "Lovelace") = true
  /\ IntegrationItem.name named_contact_item = VStr (lit "Ada" ++ lit " " ++ lit "Lovelace").
Proof.
  assert (H : Hubspot.create_integration_item_metadata_object utc_runtime (VDict named_contact)
                (lit "contact") = Ok named_contact_item) by (vm_compute; reflexivity).
  split; [exact H|]. split; [reflexivity|]. split; [reflexivity|].
  destruct (hubspot_item_names utc_runtime named_contact named_contact_properties
              (lit "contact") named_contact_item eq_refl H) as [Hcontact _].
  destruct (Hcontact eq_refl) as [Hboth _].
  apply (Hboth (lit "Ada") (lit "Lovelace")); reflexivity.
Defined.

(** ** Names of Notion items *)

Lemma find_title_first before pd first more after :
  forallb passed_over before = true ->
  dict_lookup (lit "type") pd = Some (VStr (lit "title")) ->
  dict_lookup (lit "title") pd = Some (VList (VDict first :: more)) ->
  Notion.find_title (before ++ VDict pd :: after)
  = Ok match dict_lookup (lit "plain_text") first with Some v => v | None => VNone end.
Proof.
  intros Hb Hty Hti. induction before as [|prop before IH]; cbn [app Notion.find_title].
  - cbn [py_get bind]. rewrite Hty. change (value_eq_str (VStr (lit "title")) (lit "title")) with true.
    cbv iota. cbn [py_get bind]. rewrite Hti. reflexivity.
  - cbn [forallb] in Hb. apply andb_true_iff in Hb as [Hp Hb].
    destruct prop as [| | | | | |qd]; try discriminate Hp.
    cbn [py_get bind]. cbn [passed_over] in Hp.
    destruct (value_eq_str _ (lit "title")); [|exact (IH Hb)].
    cbn [py_get bind].
    destruct (dict_lookup (lit "title") qd) as [[| | | | |[|x l]|]|];
      try discriminate Hp; exact (IH Hb).
Qed.

(** X21.  The name of a Notion item comes from the first property of type
    "title" whose [title] list is not empty: it is the [plain_text] of the
    first entry of that list.  When that text is missing, null or empty
    the name is the capitalised object type followed by " Item"; the
    properties after it are not consulted in either case. *)
Theorem notion_name_from_first_title rt d props before pd first more after item :
  dict_lookup (lit "properties") d = Some (VDict props) ->
  map snd props = before ++ VDict pd :: after ->
  forallb passed_over before = true ->
  dict_lookup (lit "type") pd = Some (VStr (lit "title")) ->
  dict_lookup (lit "title") pd = Some (VList (VDict first :: more)) ->
  Notion.create_integration_item_metadata_object rt (VDict d) = Ok item ->
  (forall v, dict_lookup (lit "plain_text") first = Some v -> py_truthy v = true ->
             IntegrationItem.name item = v)
  /\ (dict_lookup (lit "plain_text") first = None
      \/ (exists v, dict_lookup (lit "plain_text") first = Some v /\ py_truthy v = false) ->
      exists obj_type,
        (dict_lookup (lit "object") d = Some (VStr obj_type)
         \/ (dict_lookup (lit "object") d = None /\ obj_type = lit "unknown"))
        /\ IntegrationItem.name item = VStr (capitalize rt obj_type ++ lit " Item")).
Proof.
  intros Hp Hm Hb Hty Hti H.
  unfold Notion.create_integration_item_metadata_object in H.
  cbn [py_get bind py_values] in H. rewrite Hp in H. cbn [py_values bind] in H.
  rewrite Hm, (find_title_first before pd first more after Hb Hty Hti) in H.
  cbn [bind] in H. split.
  - intros v Hv Ht. rewrite Hv, Ht in H. cbn [negb bind] in H. now injection H as <-.
  - intros Hnone.
    assert (Hfalsy : py_truthy match dict_lookup (lit "plain_text") first with
                               | Some v => v | None => VNone end = false).
    { destruct Hnone as [->|(v & -> & Hv)]; [reflexivity | exact Hv]. }
    rewrite Hfalsy in H. cbn [negb] in H.
    destruct (dict_lookup (lit "object") d) as [[| | | |s| |]|] eqn:Eo;
      cbn [Notion.default_name bind] in H; try discriminate H.
    + injection H as <-. exists s. split; [now left | reflexivity].
    + injection H as <-. exists (lit "unknown"). split; [now right | reflexivity].
Qed.

Lemma notion_name_from_first_title_witness :
  Notion.create_integration_item_metadata_object utc_runtime (VDict titled_page)
  = Ok titled_page_item
  /\ IntegrationItem.name titled_page_item = VStr (lit "Roadmap").
Proof.
  assert (H : Notion.create_integration_item_metadata_object utc_runtime (VDict titled_page)
              = Ok titled_page_item) by (vm_compute; reflexivity).
  split; [exact H|].
  destruct (notion_name_from_first_title utc_runtime titled_page titled_page_properties
              [VDict [(lit "type", VStr (lit "multi_select"))]]
              [(lit "type", VStr (lit "title"));
               (lit "title", VList [VDict [(lit "plain_text", VStr (lit "Roadmap"))]])]
              [(lit "plain_text", VStr (lit "Roadmap"))] []
              [VDict [(lit "type", VStr (lit "title"));
                      (lit "title", VList [VDict [(lit "plain_text", VStr (lit "Plan"))]])]]
              titled_page_item eq_refl eq_refl eq_refl eq_refl eq_refl H) as [Hname _].
  apply (Hname (VStr (lit "Roadmap"))); reflexivity.
Defined.

(** ** Notion timestamps *)

Lemma parse_digits_add n m acc s :
  parse_digits (n + m) acc s
  = match parse_digits n acc s with
    | Some (a, r) => parse_digits m a r
    | None => None
    end.
Proof.
  revert acc s. induction n as [|n IH]; intros acc s; cbn [Nat.add parse_digits]; [reflexivity|].
  destruct s as [|c r]; [reflexivity|]. destruct (digit_val c); [apply IH | reflexivity].
Qed.

Lemma digit_val_decimal z : (0 <= z < 10)%Z -> digit_val (Z.to_N (48 + z)) = Some z.
Proof.
  intros Hz. unfold digit_val, is_digit.
  replace ((48 <=? Z.to_N (48 + z)) && (Z.to_N (48 + z) <=? 57))%N with true
    by (symmetry; apply andb_true_iff; split; apply N.leb_le; lia).
  f_equal. lia.
Qed.

Lemma parse_digits_decimal n : forall z acc rest,
  (0 <= z < 10 ^ Z.of_nat n)%Z ->
  parse_digits n acc (decimal_digits n z ++ rest) = Some ((acc * 10 ^ Z.of_nat n + z)%Z, rest).
Proof.
  induction n as [|n IH]; intros z acc rest Hz.
  - cbn [decimal_digits app parse_digits]. f_equal. f_equal. cbn in Hz. lia.
  - cbn [decimal_digits]. rewrite <- app_assoc.
    assert (Hpow : (10 ^ Z.of_nat (S n) = 10 * 10 ^ Z.of_nat n)%Z).
    { rewrite Nat2Z.inj_succ, Z.pow_succ_r by lia. reflexivity. }
    rewrite Hpow in *.
    replace (parse_digits (S n)) with (parse_digits (n + 1)) by (f_equal; lia).
    rewrite parse_digits_add.
    rewrite IH by (split; [apply Z.div_pos; lia | apply Z.div_lt_upper_bound; lia]).
    cbn [app parse_digits].
    rewrite digit_val_decimal by (apply Z.mod_pos_bound; lia).
    f_equal. f_equal. pose proof (Z.div_mod z 10). lia.
Qed.

Lemma decimal_digits_length n z : length (decimal_digits n z) = n.
Proof.
  revert z. induction n as [|n IH]; intros z; cbn [decimal_digits]; [reflexivity|].
  rewrite length_app, IH. cbn. lia.
Qed.

Lemma decimal_digits_are_digits n z : forallb is_digit (decimal_digits n z) = true.
Proof.
  revert z. induction n as [|n IH]; intros z; cbn [decimal_digits]; [reflexivity|].
  assert (Hd : is_digit (Z.to_N (48 + z mod 10)) = true).
  { unfold is_digit. pose proof (Z.mod_pos_bound z 10 ltac:(lia)).
    apply andb_true_iff; split; apply N.leb_le; lia. }
  rewrite forallb_app, IH. cbn [forallb]. now rewrite Hd.
Qed.

Lemma digits_no_sign s : forallb is_digit s = true -> forallb no_sign s = true.
Proof.
  induction s as [|c s IH]; [reflexivity|]. cbn [forallb]. intros H.
  apply andb_true_iff in H as [Hc Hs]. rewrite (IH Hs), andb_true_r.
  unfold is_digit, no_sign in *. nbool.
  apply andb_true_iff; split; apply negb_true_iff, N.eqb_neq; lia.
Qed.

Lemma digits_keep_Z s : forallb is_digit s = true -> forallb keeps_Z s = true.
Proof.
  induction s as [|c s IH]; [reflexivity|]. cbn [forallb]. intros H.
  apply andb_true_iff in H as [Hc Hs]. rewrite (IH Hs), andb_true_r.
  unfold is_digit, keeps_Z in *. nbool. apply negb_true_iff, N.eqb_neq; lia.
Qed.

Lemma replace_Z_keeps s : forallb keeps_Z s = true -> replace_Z s = s.
Proof.
  unfold replace_Z. induction s as [|c s IH]; [reflexivity|]. cbn [forallb flat_map]. intros H.
  apply andb_true_iff in H as [Hc Hs]. rewrite (IH Hs).
  unfold keeps_Z in Hc. apply negb_true_iff in Hc. now rewrite Hc.
Qed.

Lemma replace_Z_app a b : replace_Z (a ++ b) = replace_Z a ++ replace_Z b.
Proof. unfold replace_Z. apply flat_map_app. Qed.

Lemma split_tz_plus a r :
  forallb no_sign a = true -> split_tz (a ++ 43%N :: r) = (a, Some (false, r)).
Proof.
  induction a as [|c a IH]; cbn [forallb app split_tz]; [reflexivity|]. intros H.
  apply andb_true_iff in H as [Hc Ha]. unfold no_sign in Hc.
  apply andb_true_iff in Hc as [H1 H2]. apply negb_true_iff in H1, H2.
  rewrite H1, H2, (IH Ha). reflexivity.
Qed.

Lemma parse_digits_decimal0 n z rest :
  (0 <= z < 10 ^ Z.of_nat n)%Z ->
  parse_digits n 0 (decimal_digits n z ++ rest) = Some (z, rest).
Proof. intros Hz. rewrite parse_digits_decimal by exact Hz. f_equal. Qed.

Lemma parse_time_of_day h mi s ms :
  (0 <= h < 100)%Z -> (0 <= mi < 100)%Z -> (0 <= s < 100)%Z -> (0 <= ms < 1000)%Z ->
  parse_hh_mm_ss_ff
    (decimal_digits 2 h ++ lit ":" ++ decimal_digits 2 mi ++ lit ":"
     ++ decimal_digits 2 s ++ lit "." ++ decimal_digits 3 ms)
  = Some (h, mi, s, ms * 1000)%Z.
Proof.
  intros Hh Hmi Hs Hms. unfold parse_hh_mm_ss_ff.
  rewrite (parse_digits_decimal0 2 h) by exact Hh.
  change (lit ":" ++ ?x) with (58%N :: x). cbv iota.
  rewrite (parse_digits_decimal0 2 mi) by exact Hmi.
  change (lit ":" ++ ?x) with (58%N :: x). cbv iota.
  rewrite (parse_digits_decimal0 2 s) by exact Hs.
  change (lit "." ++ ?x) with (46%N :: x). cbv iota.
  rewrite decimal_digits_length.
  rewrite <- (app_nil_r (decimal_digits 3 ms)).
  rewrite (parse_digits_decimal0 3 ms) by exact Hms. reflexivity.
Qed.

Lemma replace_Z_timestamp y mo d h mi s ms :
  replace_Z (notion_timestamp y mo d h mi s ms)
  = decimal_digits 4 y ++ lit "-" ++ decimal_digits 2 mo ++ lit "-" ++ decimal_digits 2 d
    ++ lit "T"
    ++ (decimal_digits 2 h ++ lit ":" ++ decimal_digits 2 mi ++ lit ":"
        ++ decimal_digits 2 s ++ lit "." ++ decimal_digits 3 ms)
    ++ lit "+00:00".
Proof.
  unfold notion_timestamp. rewrite !replace_Z_app.
  rewrite !(replace_Z_keeps (decimal_digits _ _))
    by apply digits_keep_Z, decimal_digits_are_digits.
  change (replace_Z (lit "-")) with (lit "-"). change (replace_Z (lit "T")) with (lit "T").
  change (replace_Z (lit ":")) with (lit ":"). change (replace_Z (lit ".")) with (lit ".").
  change (replace_Z (lit "Z")) with (lit "+00:00").
  now rewrite <- !app_assoc.
Qed.

Lemma time_of_day_no_sign h mi s ms :
  forallb no_sign
    (decimal_digits 2 h ++ lit ":" ++ decimal_digits 2 mi ++ lit ":"
     ++ decimal_digits 2 s ++ lit "." ++ decimal_digits 3 ms) = true.
Proof.
  rewrite !forallb_app.
  rewrite !(digits_no_sign (decimal_digits _ _)) by apply decimal_digits_are_digits.
  reflexivity.
Qed.

Lemma between_true lo hi x : (lo <= x <= hi)%Z -> between lo hi x = true.
Proof. intros H. unfold between. apply andb_true_iff. split; apply Z.leb_le; lia. Qed.

(** [datetime.fromisoformat] on a Notion timestamp with its Z replaced. *)
Lemma fromisoformat_notion_timestamp y mo d h mi s ms :
  calendar_fields y mo d h mi s ms ->
  fromisoformat (replace_Z (notion_timestamp y mo d h mi s ms))
  = Some (utc_datetime y mo d h mi s ms).
Proof.
  intros (Hy & Hmo & Hd & Hh & Hmi & Hs & Hms).
  assert (Hdim : (28 <= days_in_month y mo <= 31)%Z).
  { unfold days_in_month.
    repeat match goal with |- context [if ?b then _ else _] => destruct b end; lia. }
  rewrite replace_Z_timestamp. unfold fromisoformat.
  rewrite (parse_digits_decimal0 4 y) by (cbn; lia).
  change (lit "-" ++ ?x) with (45%N :: x). cbv iota.
  rewrite (parse_digits_decimal0 2 mo) by (cbn; lia).
  change (lit "-" ++ ?x) with (45%N :: x). cbv iota.
  rewrite (parse_digits_decimal0 2 d) by (cbn; lia).
  change (lit "T" ++ ?x) with (84%N :: x). cbv iota.
  change (lit "+00:00") with (43%N :: lit "00:00").
  rewrite (split_tz_plus _ _ (time_of_day_no_sign h mi s ms)).
  rewrite parse_time_of_day by lia.
  change (length (lit "00:00")) with 5.
  change (parse_hh_mm_ss_ff (lit "00:00")) with (Some (0, 0, 0, 0)%Z).
  cbv beta iota zeta.
  change ((0 * 3600 + 0 * 60 + 0) * 1000000 + 0 <? 86400 * 1000000)%Z with true.
  cbv iota.
  rewrite !between_true by (unfold MINYEAR, MAXYEAR; lia).
  reflexivity.
Qed.

Lemma parse_time_notion_timestamp y mo d h mi s ms :
  calendar_fields y mo d h mi s ms ->
  Notion.parse_time (VStr (notion_timestamp y mo d h mi s ms))
  = Some (utc_datetime y mo d h mi s ms).
Proof.
  intros H. unfold Notion.parse_time.
  assert (Ht : py_truthy (VStr (notion_timestamp y mo d h mi s ms)) = true).
  { unfold notion_timestamp. cbn [decimal_digits py_truthy].
    now destruct (decimal_digits 3 (y / 10)). }
  rewrite Ht. now apply fromisoformat_notion_timestamp.
Qed.

(** X22.  Notion's timestamps are read for every date and time of day: an
    item whose [created_time] (or [last_edited_time]) is the text
    YYYY-MM-DDTHH:MM:SS.mmmZ of a calendar date gets, as creation (or
    modification) time, the aware datetime at offset zero with exactly
    these fields, the milliseconds as microseconds.  An absent timestamp
    gives [None]. *)
Theorem notion_timestamps_parsed rt d item :
  Notion.create_integration_item_metadata_object rt (VDict d) = Ok item ->
  (forall y mo dd h mi s ms,
      calendar_fields y mo dd h mi s ms ->
      (dict_lookup (lit "created_time") d = Some (VStr (notion_timestamp y mo dd h mi s ms)) ->
       IntegrationItem.creation_time item = Some (utc_datetime y mo dd h mi s ms))
      /\ (dict_lookup (lit "last_edited_time") d
          = Some (VStr (notion_timestamp y mo dd h mi s ms)) ->
          IntegrationItem.last_modified_time item = Some (utc_datetime y mo dd h mi s ms)))
  /\ (dict_lookup (lit "created_time") d = None -> IntegrationItem.creation_time item = None)
  /\ (dict_lookup (lit "last_edited_time") d = None ->
      IntegrationItem.last_modified_time item = None).
Proof.
  unfold Notion.create_integration_item_metadata_object. intros H.
  cbn [py_get bind] in H.
  repeat match type of H with
         | bind ?r _ = Ok _ => destruct r eqn:?; cbn [bind] in H; [|discriminate H]
         end.
  injection H as <-. cbn [IntegrationItem.creation_time IntegrationItem.last_modified_time].
  split; [|split].
  - intros y mo dd h mi s ms Hf. split; intros ->; now apply parse_time_notion_timestamp.
  - now intros ->.
  - now intros ->.
Qed.

Lemma notion_timestamps_parsed_witness :
  Notion.create_integration_item_metadata_object utc_runtime (VDict dated_page)
  = Ok dated_page_item
  /\ calendar_fields 2024 2 29 23 59 59 999
  /\ notion_timestamp 2024 2 29 23 59 59 999 = lit "2024-02-29T23:59:59.999Z"
  /\ IntegrationItem.creation_time dated_page_item
     = Some (utc_datetime 2024 2 29 23 59 59 999).
Proof.
  assert (H : Notion.create_integration_item_metadata_object utc_runtime (VDict dated_page)
              = Ok dated_page_item) by (vm_compute; reflexivity).
  assert (Hf : calendar_fields 2024 2 29 23 59 59 999).
  { unfold calendar_fields. change (days_in_month 2024 2) with 29%Z. lia. }
  split; [exact H|]. split; [exact Hf|]. split; [vm_compute; reflexivity|].
  destruct (notion_timestamps_parsed utc_runtime dated_page dated_page_item H) as [Hts _].
  apply (proj1 (Hts 2024 2 29 23 59 59 999 Hf))%Z. vm_compute. reflexivity.
Defined.

(** ** HubSpot timestamps that are not integers *)

Lemma not_in_integer_facts c :
  not_in_integer c = true ->
  (c <? 127)%N = true /\ is_digit c = false /\ (c =? 95)%N = false
  /\ Py_ISSPACE c = false /\ (c =? 43)%N = false /\ (c =? 45)%N = false.
Proof.
  unfold not_in_integer. intros H.
  repeat (apply andb_true_iff in H as [H ?]).
  repeat match goal with h : negb _ = true |- _ => apply negb_true_iff in h end.
  auto 10.
Qed.

Lemma transform_keeps rt c s :
  In c s -> not_in_integer c = true ->
  exists c', In c' (transform_decimal_and_space rt s) /\ not_in_integer c' = true.
Proof.
  intros Hin Hc. induction s as [|ch s IH]; [destruct Hin|].
  cbn [transform_decimal_and_space].
  destruct (ch <? 127)%N eqn:E.
  - destruct Hin as [->|Hin].
    + exists c. split; [now left | exact Hc].
    + destruct (IH Hin) as (c' & H1 & H2). exists c'. split; [now right | exact H2].
  - destruct Hin as [->|Hin].
    { apply not_in_integer_facts in Hc as (Hlt & _). congruence. }
    destruct (IH Hin) as (c' & H1 & H2).
    destruct (Py_UNICODE_ISSPACE ch).
    + exists c'. split; [now right | exact H2].
    + destruct (unicode_todecimal rt ch).
      * exists c'. split; [now right | exact H2].
      * exists 63%N. split; [now left | reflexivity].
Qed.

Lemma skip_spaces_keeps c s :
  In c s -> Py_ISSPACE c = false -> In c (skip_spaces s).
Proof.
  intros Hin Hc. induction s as [|x s IH]; [destruct Hin|].
  cbn [skip_spaces]. destruct (Py_ISSPACE x) eqn:E; [|exact Hin].
  destruct Hin as [->|Hin]; [congruence | exact (IH Hin)].
Qed.

Lemma scan_digits_keeps c s : forall pu acc n rest,
  In c s -> not_in_integer c = true ->
  scan_digits pu acc s = Some (n, rest) -> In c rest.
Proof.
  induction s as [|x s IH]; intros pu acc n rest Hin Hc H; [destruct Hin|].
  pose proof (not_in_integer_facts c Hc) as (_ & Hd & Hu & _).
  cbn [scan_digits] in H.
  destruct (is_digit x) eqn:Ex.
  { destruct Hin as [->|Hin]; [congruence | exact (IH _ _ _ _ Hin Hc H)]. }
  destruct (x =? 95)%N eqn:E95.
  { destruct pu; [discriminate|].
    destruct Hin as [->|Hin]; [congruence | exact (IH _ _ _ _ Hin Hc H)]. }
  destruct pu; [discriminate|]. injection H as _ <-. exact Hin.
Qed.

Lemma long_from_string_rejects c s :
  In c s -> not_in_integer c = true -> long_from_string s = None.
Proof.
  intros Hin Hc.
  pose proof (not_in_integer_facts c Hc) as (_ & Hd & Hu & Hsp & Hplus & Hminus).
  unfold long_from_string.
  pose proof (skip_spaces_keeps c s Hin Hsp) as H1.
  set (s1 := skip_spaces s) in *.
  assert (H2 : In c (snd (match s1 with
                           | 43%N :: r => (false, r)
                           | 45%N :: r => (true, r)
                           | _ => (false, s1)
                           end))).
  { destruct s1 as [|x r]; [destruct H1|].
    destruct (N.eq_dec x 43%N) as [->|N43].
    { destruct H1 as [<-|H1]; [discriminate Hplus | exact H1]. }
    destruct (N.eq_dec x 45%N) as [->|N45].
    { destruct H1 as [<-|H1]; [discriminate Hminus | exact H1]. }
    assert (E : match x :: r with
                | 43%N :: r0 => (false, r0)
                | 45%N :: r0 => (true, r0)
                | _ => (false, x :: r)
                end = (false, x :: r)).
    { destruct x as [|p]; [reflexivity|].
      do 6 (destruct p as [p|p|]; try reflexivity); congruence. }
    rewrite E. exact H1. }
  destruct (match s1 with
            | 43%N :: r => (false, r)
            | 45%N :: r => (true, r)
            | _ => (false, s1)
            end) as [neg s2].
  cbn [snd] in H2.
  destruct s2 as [|x r]; [reflexivity|].
  destruct (is_digit x); [|reflexivity].
  destruct (scan_digits false 0 (x :: r)) as [[n rest]|] eqn:Es; [|reflexivity].
  pose proof (scan_digits_keeps c _ _ _ _ _ H2 Hc Es) as H3.
  pose proof (skip_spaces_keeps c rest H3 Hsp) as H4.
  destruct (skip_spaces rest); [destruct H4 | reflexivity].
Qed.

Lemma parse_timestamp_rejects rt props key s c :
  dict_lookup key props = Some (VStr s) ->
  In c s -> not_in_integer c = true ->
  Hubspot.parse_timestamp rt (VDict props) key = Ok None.
Proof.
  intros Hk Hin Hc. unfold Hubspot.parse_timestamp. cbn [py_get py_getitem bind].
  rewrite Hk. cbn [of_option bind].
  assert (Ht : py_truthy (VStr s) = true) by (destruct s; [destruct Hin | reflexivity]).
  rewrite Ht. unfold Hubspot.epoch_millis_to_datetime. cbn [py_int].
  destruct (transform_keeps rt c s Hin Hc) as (c' & Hin' & Hc').
  rewrite (long_from_string_rejects c' _ Hin' Hc'). reflexivity.
Qed.



(** ** Starting a flow never fails *)

Lemma escape_char_ascii_any c : forallb is_ascii (escape_char c) = true.
Proof.
  unfold escape_char.
  repeat match goal with
         | |- forallb _ (if ?b then _ else _) = true => destruct b eqn:?; [try reflexivity|]
         end.
  - cbn [forallb]. unfold is_ascii. rewrite andb_true_r. nbool. apply N.ltb_lt. lia.
  - apply u_escape_ascii. now apply N.ltb_lt.
  - rewrite forallb_app. apply andb_true_iff. split; apply u_escape_ascii.
    + pose proof (N_all_below_spec _ _ surrogate_table _
                    (land_3FF_bound (N.shiftr (c - 0x10000) 10))) as H.
      unfold surrogate_ok in H. repeat (apply andb_true_iff in H as [H ?]).
      now apply N.ltb_lt.
    + pose proof (N_all_below_spec _ _ surrogate_table _ (land_3FF_bound (c - 0x10000))) as H.
      unfold surrogate_ok in H. repeat (apply andb_true_iff in H as [H ?]).
      now apply N.ltb_lt.
Qed.

Lemma encode_basestring_ascii_any s : forallb is_ascii (encode_basestring_ascii s) = true.
Proof.
  assert (H : forallb is_ascii (escape_body s) = true).
  { unfold escape_body. induction s as [|c s IH]; [reflexivity|]. cbn [flat_map].
    now rewrite forallb_app, escape_char_ascii_any, IH. }
  unfold encode_basestring_ascii. cbn [forallb]. rewrite forallb_app, H. reflexivity.
Qed.

Lemma json_dumps_state_ascii_any rt token user_id org_id :
  forallb is_ascii (json_dumps rt (state_data token user_id org_id)) = true.
Proof.
  rewrite json_dumps_state. cbn [forallb]. rewrite !forallb_app.
  rewrite !encode_basestring_ascii_any. reflexivity.
Qed.

Lemma encode_state_value_any rt token user_id org_id :
  encode_state_value rt (state_data token user_id org_id)
  = Ok (urlsafe_b64encode (json_dumps rt (state_data token user_id org_id))).
Proof.
  unfold encode_state_value.
  pose proof (json_dumps_state_ascii_any rt token user_id org_id) as Hascii.
  rewrite (utf8_encode_ascii _ Hascii). cbn [bind].
  apply utf8_decode_ascii, b64encode_ascii, ascii_octets, Hascii.
Qed.

Lemma urlsafe_sextet_table : N_all_below 64 urlsafe_sextet_ok = true.
Proof. vm_compute. reflexivity. Qed.

Lemma urlsafe_b64encode_alphabet data :
  Forall (fun b => (b < 256)%N) data -> forallb urlsafe_char (urlsafe_b64encode data) = true.
Proof.
  intros H. unfold urlsafe_b64encode.
  apply forallb_forall. intros c' Hc'. apply in_map_iff in Hc' as (c & <- & Hc).
  pose proof (b64encode_alphabet data H) as Ha. rewrite List.Forall_forall in Ha.
  destruct (Ha c Hc) as [->|(s & Hs & ->)]; [reflexivity|].
  exact (N_all_below_spec _ _ urlsafe_sextet_table s Hs).
Qed.

Lemma b64encode_length data : exists k, length (b64encode data) = 4 * k.
Proof.
  induction data as [|a|a b|a b c rest [k IH]] using list_ind3.
  - exists 0. reflexivity.
  - exists 1. reflexivity.
  - exists 1. reflexivity.
  - exists (S k). cbn [b64encode length]. rewrite IH. lia.
Qed.

(** X1.  [authorize_hubspot] and [authorize_notion] never raise, whatever
    text the user and organisation ids are: both store the state under
    their state key and return the authorization URL with the state at its
    end (for Notion, after the module's [authorization_url]).  The state is
    not empty, is made of letters, digits, hyphens, underscores and pad
    characters only, and its length is a multiple of four. *)
Theorem authorize_never_fails rt env token user_id org_id store :
  exists state k,
    Hubspot.authorize_hubspot rt env token user_id org_id store
    = (Ok (lit "https://app.hubspot.com/oauth/authorize?client_id="
           ++ py_str rt (CLIENT_ID env)
           ++ lit "&redirect_uri=" ++ py_str rt (REDIRECT_URI env)
           ++ lit "&scope=" ++ Hubspot.SCOPE
           ++ lit "&state=" ++ state),
       <[Hubspot.state_key org_id user_id := state]> store)
    /\ Notion.authorize_notion rt env token user_id org_id store
       = (Ok (Notion.authorization_url rt env ++ lit "&state=" ++ state),
          <[Notion.state_key org_id user_id := state]> store)
    /\ state <> []
    /\ forallb urlsafe_char state = true
    /\ length state = 4 * k.
Proof.
  set (state := urlsafe_b64encode (json_dumps rt (state_data token user_id org_id))).
  destruct (b64encode_length (json_dumps rt (state_data token user_id org_id))) as [k Hk].
  exists state, k. split; [|split; [|split; [|split]]].
  - unfold Hubspot.authorize_hubspot, mbind, lift, ret, MockRedisClient.add_key_value_redis.
    rewrite encode_state_value_any. reflexivity.
  - unfold Notion.authorize_notion, Notion.encode_state, mbind, lift, ret,
      MockRedisClient.add_key_value_redis, Notion.authorization_url.
    rewrite encode_state_value_any. cbn [bind fst]. fold state.
    rewrite <- !app_assoc. reflexivity.
  - destruct (encoded_state_nonempty rt token user_id org_id) as (c & t & E).
    subst state. rewrite E. discriminate.
  - apply urlsafe_b64encode_alphabet, ascii_octets, json_dumps_state_ascii_any.
  - subst state. unfold urlsafe_b64encode. now rewrite length_map.
Qed.

(** ** The forms of credentials the aggregators take *)



(** ** The checks a callback makes before it asks for tokens *)

Lemma decode_state_needs_ascii state c :
  In c state -> is_ascii c = false -> decode_state state = Raise ValueError.
Proof.
  intros Hin Hc. unfold decode_state, urlsafe_b64decode, bytes_from_decode_data.
  assert (H : forallb is_ascii state = false).
  { destruct (forallb is_ascii state) eqn:E; [|reflexivity].
    rewrite forallb_forall in E. rewrite (E c Hin) in Hc. discriminate. }
  now rewrite H.
Qed.

(** X8.  Both callback handlers check the request in the same order, raise
    HTTP 400 at the first check that fails and leave the store alone: an
    [error] parameter is passed on as the detail; then a missing or empty
    [code] or [state] gives "Missing code or state"; then a state that
    does not decode -- for one, any state with a character outside ASCII --
    gives "Invalid state". *)
Theorem callback_request_validation rt env client request store :
  (forall e,
      query_params request !! lit "error" = Some e -> e <> [] ->
      Hubspot.oauth2callback_hubspot rt env client request store
      = (Raise (HTTPException 400 e), store)
      /\ Notion.oauth2callback_notion rt env client request store
         = (Raise (HTTPException 400 e), store))
  /\ (str_truthy (query_params request !! lit "error") = false ->
      str_truthy (query_params request !! lit "code") = false
      \/ str_truthy (query_params request !! lit "state") = false ->
      Hubspot.oauth2callback_hubspot rt env client request store
      = (Raise missing_code_or_state, store)
      /\ Notion.oauth2callback_notion rt env client request store
         = (Raise missing_code_or_state, store))
  /\ (forall state e,
        str_truthy (query_params request !! lit "error") = false ->
        str_truthy (query_params request !! lit "code") = true ->
        query_params request !! lit "state" = Some state -> state <> [] ->
        decode_state state = Raise e ->
        Hubspot.oauth2callback_hubspot rt env client request store
        = (Raise invalid_state, store)
        /\ Notion.oauth2callback_notion rt env client request store
           = (Raise invalid_state, store))
  /\ (forall state c, In c state -> is_ascii c = false ->
                      decode_state state = Raise ValueError).
Proof.
  unfold Hubspot.oauth2callback_hubspot, Notion.oauth2callback_notion,
    mbind, try_except, lift, raise, ret.
  split; [|split; [|split]].
  - intros e He Hne. rewrite He. destruct e; [congruence|]. split; reflexivity.
  - intros He [Hc|Hs]; rewrite He; cbv iota.
    + rewrite Hc. split; reflexivity.
    + rewrite Hs, orb_true_r. split; reflexivity.
  - intros state e He Hc Hs Hne Hd. rewrite He, Hc, Hs. cbv iota.
    destruct state as [|c0 state]; [congruence|].
    cbn [str_truthy negb orb default from_option id]. rewrite Hd. split; reflexivity.
  - intros state c. apply decode_state_needs_ascii.
Qed.

Lemma callback_request_validation_witness :
  Notion.oauth2callback_notion utc_runtime example_settings accepting_client
    {| query_params := {[ lit "error" := lit "access_denied" ]} |} example_notion_store
  = (Raise (HTTPException 400 (lit "access_denied")), example_notion_store)
  /\ Hubspot.oauth2callback_hubspot utc_runtime example_settings accepting_client
       (callback_request (lit "code-1") [233%N]) ∅
     = (Raise invalid_state, ∅).
Proof.
  split.
  - destruct (callback_request_validation utc_runtime example_settings accepting_client
                {| query_params := {[ lit "error" := lit "access_denied" ]} |}
                example_notion_store) as (Herr & _).
    apply (Herr (lit "access_denied")); [reflexivity | discriminate].
  - destruct (callback_request_validation utc_runtime example_settings accepting_client
                (callback_request (lit "code-1") [233%N]) ∅) as (_ & _ & Hinv & _).
    apply (Hinv [233%N] ValueError); try reflexivity; try discriminate.
Defined.



(** ** Answers of the API that are not what the aggregators expect *)

(** X19.  What a 200 answer whose body is not the expected object does.  In
    [get_items_hubspot] the category contributes nothing, whether the body
    is not JSON, is not an object, has no [results] entry or has one that
    cannot be iterated.  In [get_items_notion] a body without [results]
    gives the empty list, and the other three raise: the decoding error,
    AttributeError and TypeError. *)
Theorem unexpected_bodies rt client credentials access_token :
  dict_lookup (lit "access_token") credentials = Some access_token ->
  py_truthy access_token = true ->
  (forall url limit item_type,
      (forall e,
          client (Hubspot.list_request rt url access_token limit) = Response 200 (Raise e) ->
          Hubspot.fetch_block rt client access_token url limit item_type [] = [])
      /\ (forall data,
            client (Hubspot.list_request rt url access_token limit) = Response 200 (Ok data) ->
            (is_dict data = false ->
             Hubspot.fetch_block rt client access_token url limit item_type [] = [])
            /\ (forall d, data = VDict d -> dict_lookup (lit "results") d = None ->
                          Hubspot.fetch_block rt client access_token url limit item_type [] = [])
            /\ (forall d v, data = VDict d -> dict_lookup (lit "results") d = Some v ->
                            not_iterable v = true ->
                            Hubspot.fetch_block rt client access_token url limit item_type []
                            = [])))
  /\ (forall e,
        client (Notion.search_request rt access_token) = Response 200 (Raise e) ->
        Notion.get_items_notion rt client (VDict credentials) = Raise e)
  /\ (forall data,
        client (Notion.search_request rt access_token) = Response 200 (Ok data) ->
        (is_dict data = false ->
         Notion.get_items_notion rt client (VDict credentials) = Raise AttributeError)
        /\ (forall d, data = VDict d -> dict_lookup (lit "results") d = None ->
                      Notion.get_items_notion rt client (VDict credentials) = Ok [])
        /\ (forall d v, data = VDict d -> dict_lookup (lit "results") d = Some v ->
                        not_iterable v = true ->
                        Notion.get_items_notion rt client (VDict credentials)
                        = Raise TypeError)).
Proof.
  intros Ha Ht. split; [|split].
  - intros url limit item_type. unfold Hubspot.fetch_block. split.
    + now intros e ->.
    + intros data ->. cbn [Z.eqb Pos.eqb bind]. split; [|split].
      * intros Hd. destruct data; try discriminate Hd; reflexivity.
      * intros d -> Hr. cbn [py_get bind]. rewrite Hr. reflexivity.
      * intros d v -> Hr Hv. cbn [py_get bind]. rewrite Hr.
        destruct v; try discriminate Hv; reflexivity.
  - intros e Hc. unfold Notion.get_items_notion. cbn [bind py_get]. rewrite Ha, Ht.
    cbn [negb]. now rewrite Hc.
  - intros data Hc. unfold Notion.get_items_notion. cbn [bind py_get]. rewrite Ha, Ht.
    cbn [negb]. rewrite Hc. cbn [Z.eqb Pos.eqb bind]. split; [|split].
    + intros Hd. destruct data; try discriminate Hd; reflexivity.
    + intros d -> Hr. cbn [py_get bind]. rewrite Hr. reflexivity.
    + intros d v -> Hr Hv. cbn [py_get bind]. rewrite Hr.
      destruct v; try discriminate Hv; reflexivity.
Qed.

Lemma unexpected_bodies_witness :
  Hubspot.get_items_hubspot utc_runtime null_results_client example_credentials = Ok []
  /\ Hubspot.fetch_block utc_runtime null_results_client (VStr (lit "tok-1"))
       Hubspot.deals_url 50 (lit "deal") [] = []
  /\ Notion.get_items_notion utc_runtime null_results_client example_credentials
     = Raise TypeError.
Proof.
  pose proof (unexpected_bodies utc_runtime null_results_client
                [(lit "access_token", VStr (lit "tok-1"))] (VStr (lit "tok-1"))
                eq_refl eq_refl) as (Hhub & _ & Hnotion).
  split; [vm_compute; reflexivity|]. split.
  - destruct (Hhub Hubspot.deals_url 50%Z (lit "deal")) as [_ Hbody].
    destruct (Hbody (VDict [(lit "results", VNone)]) eq_refl) as (_ & _ & Hnull).
    exact (Hnull [(lit "results", VNone)] VNone eq_refl eq_refl eq_refl).
  - destruct (Hnotion (VDict [(lit "results", VNone)]) eq_refl) as (_ & _ & Hnull).
    exact (Hnull [(lit "results", VNone)] VNone eq_refl eq_refl eq_refl).
Defined.

(** ** The Basic credential of the Notion token request *)

(** X10.  For ASCII client credentials, the credential the Notion callback
    puts after "Basic " is the base64 text of [client_id:client_secret]: it
    is ASCII, and base64 decoding gives the two back. *)
Theorem basic_credential_round_trip rt env :
  forallb is_ascii (basic_credentials rt env) = true ->
  (b <- utf8_encode (py_str rt (CLIENT_ID env) ++ lit ":" ++ py_str rt (CLIENT_SECRET env)) ;;
   utf8_decode (b64encode b))
  = Ok (basic_auth_header rt env)
  /\ forallb is_ascii (basic_auth_header rt env) = true
  /\ (b <- of_option ValueError (a2b_base64 (basic_auth_header rt env)) ;; utf8_decode b)
     = Ok (py_str rt (CLIENT_ID env) ++ lit ":" ++ py_str rt (CLIENT_SECRET env))
  /\ forall code,
       http_headers (Notion.token_request env code (basic_auth_header rt env))
       = [(lit "Authorization", lit "Basic " ++ basic_auth_header rt env);
          (lit "Content-Type", lit "application/json")].
Proof.
  intros H. split; [now apply basic_auth_header_ok|]. split; [|split].
  - apply b64encode_plain_ascii, ascii_octets, H.
  - unfold basic_auth_header. rewrite (a2b_b64encode _ (ascii_octets _ H)). cbn [of_option bind].
    now apply utf8_decode_ascii.
  - reflexivity.
Qed.

Lemma basic_credential_round_trip_witness :
  forallb is_ascii (basic_credentials utc_runtime example_settings) = true
  /\ basic_credentials utc_runtime example_settings = lit "client:secret"
  /\ basic_auth_header utc_runtime example_settings = lit "Y2xpZW50OnNlY3JldA=="
  /\ (b <- of_option ValueError (a2b_base64 (basic_auth_header utc_runtime example_settings)) ;;
      utf8_decode b)
     = Ok (lit "client:secret").
Proof.
  pose proof (basic_credential_round_trip utc_runtime example_settings eq_refl)
    as (_ & _ & Hback & _).
  split; [reflexivity|]. split; [reflexivity|]. split; [vm_compute; reflexivity|].
  exact Hback.
Defined.

(** ** Millisecond counts as text and as numbers *)

Lemma scan_digits_all ds : forall acc,
  forallb is_digit ds = true -> scan_digits false acc ds = Some (horner acc ds, []).
Proof.
  induction ds as [|c ds IH]; intros acc H; [reflexivity|].
  cbn [forallb] in H. apply andb_true_iff in H as [Hc Hds].
  cbn [scan_digits]. rewrite Hc. unfold horner. cbn [fold_left]. now apply IH.
Qed.

Lemma long_from_digits c r :
  forallb is_digit (c :: r) = true ->
  long_from_string (c :: r) = Some (digits_value (c :: r))
  /\ long_from_string (45%N :: c :: r) = Some (- digits_value (c :: r))%Z.
Proof.
  intros H. pose proof (scan_digits_all (c :: r) 0%Z H) as Hs.
  cbn [forallb] in H. apply andb_true_iff in H as [Hc Hr].
  assert (Hsp : Py_ISSPACE c = false).
  { unfold is_digit, Py_ISSPACE in *. nbool.
    apply orb_false_iff. split; [apply N.eqb_neq; lia|].
    apply andb_false_iff. right. apply N.leb_gt. lia. }
  unfold long_from_string. split.
  - cbn [skip_spaces]. rewrite Hsp.
    assert (E : match c :: r with
                | 43%N :: r0 => (false, r0)
                | 45%N :: r0 => (true, r0)
                | _ => (false, c :: r)
                end = (false, c :: r)).
    { apply digit_cases in Hc.
      repeat (destruct Hc as [-> | Hc]; [reflexivity|]). subst. reflexivity. }
    rewrite E, Hc, Hs. reflexivity.
  - change (skip_spaces (45%N :: c :: r)) with (45%N :: c :: r). cbv iota.
    rewrite Hc, Hs. reflexivity.
Qed.

Lemma transform_ascii rt s :
  forallb (fun c => (c <? 127)%N) s = true -> transform_decimal_and_space rt s = s.
Proof.
  induction s as [|c s IH]; [reflexivity|]. cbn [forallb transform_decimal_and_space].
  intros H. apply andb_true_iff in H as [Hc Hs]. now rewrite Hc, (IH Hs).
Qed.

Lemma digits_below_127 s : forallb is_digit s = true -> forallb (fun c => (c <? 127)%N) s = true.
Proof.
  induction s as [|c s IH]; [reflexivity|]. cbn [forallb]. intros H.
  apply andb_true_iff in H as [Hc Hs]. rewrite (IH Hs), andb_true_r.
  unfold is_digit in Hc. nbool. apply N.ltb_lt. lia.
Qed.

(** [int(str(z))] is [z]. *)
Lemma py_int_int_repr rt z : py_int rt (VStr (int_repr z)) = Ok z.
Proof.
  cbn [py_int].
  assert (Hnat : forall n,
            exists c r, uint_chars (N.to_uint n) = c :: r
                        /\ forallb is_digit (c :: r) = true
                        /\ digits_value (c :: r) = Z.of_N n).
  { intros n. pose proof (uint_chars_digits (N.to_uint n)) as Hd.
    pose proof (digits_value_N n) as Hv.
    destruct n as [|p].
    - exists 48%N, []. repeat split.
    - cbn [N.to_uint] in *. destruct (to_uint_head p) as (c & r & E & _).
      rewrite E in *. exists c, r. auto. }
  destruct z as [|p|p]; unfold int_repr; cbn [Z.to_N].
  - reflexivity.
  - destruct (Hnat (Npos p)) as (c & r & E & Hd & Hv). rewrite E.
    rewrite (transform_ascii rt _ (digits_below_127 _ Hd)).
    rewrite (proj1 (long_from_digits c r Hd)), Hv. reflexivity.
  - destruct (Hnat (Npos p)) as (c & r & E & Hd & Hv). rewrite E.
    assert (Ht : transform_decimal_and_space rt (45%N :: c :: r) = 45%N :: c :: r).
    { apply transform_ascii. cbn [forallb]. cbn [forallb] in Hd.
      apply andb_true_iff in Hd as [Hc Hr].
      rewrite (digits_below_127 _ Hr), andb_true_r.
      unfold is_digit in Hc. nbool. apply andb_true_iff. split; [reflexivity|].
      apply N.ltb_lt. lia. }
    rewrite Ht, (proj2 (long_from_digits c r Hd)), Hv. reflexivity.
Qed.

(** X24.  A millisecond count counts the same as a JSON number and as its
    decimal text: the two give the same creation or modification time, or
    fail the same way.  The one exception is zero, which as a number is
    "no timestamp" and gives [None] without being converted. *)
Theorem hubspot_timestamp_text_or_number rt props props' key z :
  int_text_allowed z = true ->
  dict_lookup key props = Some (VStr (int_repr z)) ->
  dict_lookup key props' = Some (VInt z) ->
  Hubspot.epoch_millis_to_datetime rt (VStr (int_repr z))
  = Hubspot.epoch_millis_to_datetime rt (VInt z)
  /\ (z <> 0%Z ->
      Hubspot.parse_timestamp rt (VDict props) key
      = Hubspot.parse_timestamp rt (VDict props') key)
  /\ (z = 0%Z -> Hubspot.parse_timestamp rt (VDict props') key = Ok None).
Proof.
  intros _ Hs Hn.
  assert (He : Hubspot.epoch_millis_to_datetime rt (VStr (int_repr z))
               = Hubspot.epoch_millis_to_datetime rt (VInt z)).
  { unfold Hubspot.epoch_millis_to_datetime. now rewrite py_int_int_repr. }
  split; [exact He|]. unfold Hubspot.parse_timestamp. cbn [py_get py_getitem bind].
  rewrite Hs, Hn. cbn [of_option bind]. split.
  - intros Hz.
    assert (Ht : py_truthy (VStr (int_repr z)) = true).
    { cbn [py_truthy]. destruct (int_repr_head z) as (c & r & -> & _). reflexivity. }
    assert (Ht' : py_truthy (VInt z) = true).
    { cbn [py_truthy]. apply negb_true_iff, Z.eqb_neq, Hz. }
    now rewrite Ht, Ht', He.
  - now intros ->.
Qed.

Lemma hubspot_timestamp_text_or_number_witness :
  int_text_allowed 1700000000000 = true
  /\ int_repr 1700000000000 = lit "1700000000000"
  /\ Hubspot.parse_timestamp utc_runtime
       (VDict [(lit "createdate", VStr (lit "1700000000000"))]) (lit "createdate")
     = Hubspot.parse_timestamp utc_runtime
         (VDict [(lit "createdate", VInt 1700000000000)]) (lit "createdate")
  /\ Hubspot.parse_timestamp utc_runtime
       (VDict [(lit "createdate", VInt 1700000000000)]) (lit "createdate")
     = Ok (Some {| year := 2023; month := 11; day := 14; hour := 22; minute := 13;
                   second := 20; microsecond := 0; tzinfo := None; fold := 0 |}).
Proof.
  assert (Hr : int_repr 1700000000000 = lit "1700000000000") by (vm_compute; reflexivity).
  split; [reflexivity|]. split; [exact Hr|]. split; [|vm_compute; reflexivity].
  pose proof (hubspot_timestamp_text_or_number utc_runtime
                [(lit "createdate", VStr (int_repr 1700000000000))]
                [(lit "createdate", VInt 1700000000000)] (lit "createdate") 1700000000000%Z
                eq_refl eq_refl eq_refl) as (_ & Hsame & _).
  rewrite <- Hr. apply Hsame. discriminate.
Defined.

(** ** The requests that are made *)

Lemma fetch_block_client rt client client' access_token url limit item_type acc :
  client (Hubspot.list_request rt url access_token limit)
  = client' (Hubspot.list_request rt url access_token limit) ->
  Hubspot.fetch_block rt client access_token url limit item_type acc
  = Hubspot.fetch_block rt client' access_token url limit item_type acc.
Proof. intros H. unfold Hubspot.fetch_block. now rewrite H. Qed.

(** X11.  The adapters depend on the network through a handful of requests
    only, so two networks that answer these alike give the same results.
    [get_items_hubspot] makes three GET requests, for 100 contacts, 50
    companies and 50 deals, each with the access token as Bearer
    credential; [get_items_notion] makes one POST request to the search
    endpoint, with the Bearer credential and the Notion version; each
    callback makes one POST request to its token endpoint, with the code of
    the incoming request. *)
Theorem requests_made rt env client client' :
  (forall credentials access_token,
      dict_lookup (lit "access_token") credentials = Some access_token ->
      client (Hubspot.list_request rt Hubspot.contacts_url access_token 100)
      = client' (Hubspot.list_request rt Hubspot.contacts_url access_token 100) ->
      client (Hubspot.list_request rt Hubspot.companies_url access_token 50)
      = client' (Hubspot.list_request rt Hubspot.companies_url access_token 50) ->
      client (Hubspot.list_request rt Hubspot.deals_url access_token 50)
      = client' (Hubspot.list_request rt Hubspot.deals_url access_token 50) ->
      Hubspot.get_items_hubspot rt client (VDict credentials)
      = Hubspot.get_items_hubspot rt client' (VDict credentials))
  /\ (forall credentials access_token,
        dict_lookup (lit "access_token") credentials = Some access_token ->
        client (Notion.search_request rt access_token)
        = client' (Notion.search_request rt access_token) ->
        Notion.get_items_notion rt client (VDict credentials)
        = Notion.get_items_notion rt client' (VDict credentials))
  /\ (forall request code store,
        query_params request !! lit "code" = Some code ->
        client (Hubspot.token_request env code) = client' (Hubspot.token_request env code) ->
        Hubspot.oauth2callback_hubspot rt env client request store
        = Hubspot.oauth2callback_hubspot rt env client' request store)
  /\ (forall request code store,
        query_params request !! lit "code" = Some code ->
        (forall auth_header,
            client (Notion.token_request env code auth_header)
            = client' (Notion.token_request env code auth_header)) ->
        Notion.oauth2callback_notion rt env client request store
        = Notion.oauth2callback_notion rt env client' request store)
  /\ (forall url access_token limit,
        Hubspot.list_request rt url access_token limit
        = {| http_method := lit "GET"; http_url := url;
             http_headers := [(lit "Authorization", lit "Bearer " ++ py_str rt access_token)];
             http_payload := [(lit "limit", VInt limit)] |})
  /\ (forall access_token,
        Notion.search_request rt access_token
        = {| http_method := lit "POST"; http_url := lit "https://api.notion.com/v1/search";
             http_headers := [(lit "Authorization", lit "Bearer " ++ py_str rt access_token);
                              (lit "Notion-Version", lit "2022-06-28")];
             http_payload := [] |}).
Proof.
  split; [|split; [|split; [|split; [|split]]]].
  - intros credentials access_token Ha H1 H2 H3.
    unfold Hubspot.get_items_hubspot. cbn [bind py_get]. rewrite Ha.
    destruct (py_truthy access_token); cbn [negb]; [|reflexivity]. f_equal.
    rewrite (fetch_block_client rt client client' _ Hubspot.contacts_url _ _ _ H1).
    rewrite (fetch_block_client rt client client' _ Hubspot.companies_url _ _ _ H2).
    now rewrite (fetch_block_client rt client client' _ Hubspot.deals_url _ _ _ H3).
  - intros credentials access_token Ha H.
    unfold Notion.get_items_notion. cbn [bind py_get]. rewrite Ha, H. reflexivity.
  - intros request code store Hc H.
    unfold Hubspot.oauth2callback_hubspot, mbind, try_except, lift, raise, ret,
      MockRedisClient.add_key_value_redis, exchange.
    rewrite Hc. cbn [default from_option id]. now rewrite H.
  - intros request code store Hc H.
    unfold Notion.oauth2callback_notion, mbind, try_except, lift, raise, ret,
      MockRedisClient.add_key_value_redis, MockRedisClient.get_value_redis,
      MockRedisClient.delete_key_redis, exchange.
    rewrite Hc. cbn [default from_option id].
    destruct (str_truthy (query_params request !! lit "error")); [reflexivity|].
    destruct (negb (str_truthy (Some code)) || _); [reflexivity|].
    destruct (decode_state _) as [state_data|e]; [|reflexivity].
    destruct (py_get state_data (lit "user_id") VNone) as [user_id|e]; [|reflexivity].
    destruct (py_get state_data (lit "org_id") VNone) as [org_id|e]; [|reflexivity].
    destruct (negb (str_truthy _) || _); [reflexivity|].
    destruct (b <- utf8_encode _ ;; utf8_decode (b64encode b)) as [auth_header|e];
      [|reflexivity].
    now rewrite H.
  - reflexivity.
  - reflexivity.
Qed.

Lemma requests_made_witness :
  Hubspot.get_items_hubspot utc_runtime contacts_down_client example_credentials
  = Hubspot.get_items_hubspot utc_runtime
      (fun req => if str_eqb (http_method req) (lit "GET") then contacts_down_client req
                  else Transport_failure)
      example_credentials.
Proof.
  apply (proj1 (requests_made utc_runtime example_settings contacts_down_client
                  (fun req => if str_eqb (http_method req) (lit "GET")
                              then contacts_down_client req else Transport_failure))
           [(lit "access_token", VStr (lit "tok-1"))] (VStr (lit "tok-1")));
    reflexivity.
Defined.

(** ** The token record *)

(** X14.  What a callback stores is what the credentials functions read back:
    for every token payload made of null, booleans, integers, strings,
    lists and objects, [json.loads] of the text [json.dumps] writes is the
    payload itself, and that text is never empty, so a stored record is
    never taken for a missing one. *)
Theorem token_record_round_trip rt token_info :
  json_safe token_info = true ->
  json_loads (json_dumps rt token_info) = Ok token_info
  /\ str_truthy (Some (json_dumps rt token_info)) = true
  /\ forall user_id org_id store,
       (_ <~ MockRedisClient.add_key_value_redis (Hubspot.tokens_key org_id user_id)
               (json_dumps rt token_info) None ;;
        Hubspot.get_hubspot_credentials user_id org_id) store
       = (Ok token_info,
          <[Hubspot.tokens_key org_id user_id := json_dumps rt token_info]> store)
       /\ (_ <~ MockRedisClient.add_key_value_redis (Notion.tokens_key org_id user_id)
                  (json_dumps rt token_info) None ;;
           Notion.get_notion_credentials user_id org_id) store
          = (Ok token_info,
             <[Notion.tokens_key org_id user_id := json_dumps rt token_info]> store).
Proof.
  intros Hsafe.
  assert (Ht : str_truthy (Some (json_dumps rt token_info)) = true).
  { destruct (json_dumps_start rt token_info Hsafe) as (c & t & -> & _). reflexivity. }
  split; [now apply json_loads_dumps|]. split; [exact Ht|].
  intros user_id org_id store.
  unfold mbind, MockRedisClient.add_key_value_redis, Hubspot.get_hubspot_credentials,
    Notion.get_notion_credentials, MockRedisClient.get_value_redis, lift, raise, ret.
  unfold mbind. cbv beta iota. rewrite !lookup_insert_eq, Ht. cbn [negb default from_option id].
  rewrite (json_loads_dumps rt _ Hsafe). split; reflexivity.
Qed.

Lemma token_record_round_trip_witness :
  json_safe nested_payload = true
  /\ json_loads (json_dumps utc_runtime nested_payload) = Ok nested_payload.
Proof.
  split; [reflexivity|].
  exact (proj1 (token_record_round_trip utc_runtime nested_payload eq_refl)).
Defined.
